(** * ai-todo-manager: the AI parse and summarize routes

    The two route handlers of the repository are modelled here, with
    the dialog that calls them:
    - [Summarize]: the summarize-todos route
      ([computeStats], [rate], the request checks of its [POST]);
    - [ParseTodo]: the parse-todo route
      ([validateInput], [preprocessText], [postprocess], its [POST]);
    - [Client], [ClientStats]: the dialog of [AiTodoDialog.tsx]
      ([getCurrentLocalDateTime], [toSummaryInput], [isSameLocalDay],
      [computeTodayStats], [computeWeekStats]);
    - [SummarizePrompt]: the todos [buildStatsBlock] lists in the prompt.

    Part I is the embedding of the source, Part II the vocabulary the
    properties are stated with, Part III the properties and their proofs.

    Conventions of the embedding.
    - A JavaScript string is the list of its UTF-16 code units ([list Z]);
      [length], [slice], [trim] and regular expressions without the [u]
      flag work on code units, as in the engine.
    - A JavaScript number that is an integer count is a [Z]; a number that
      may be [NaN] is an [option Z] ([None] is [NaN]).  [rate] goes through
      IEEE-754 binary64 (the kernel's primitive floats), as the source does.
    - A [Date] is its time value in milliseconds since the epoch, or [NaN]:
      [option Z].  The calendar is the proleptic Gregorian one of ECMAScript
      (Day, DayFromYear, MonthFromTime, MakeDay, ...).  Local time is UTC
      plus a fixed offset [LocalTZA] of the environment (no daylight saving
      transitions), and time values are not clipped at +-8.64e15 ms.
    - [Date.parse] belongs to the engine: it is a field of the environment
      [DateEnv], so every theorem holds for any parser.  [isoParse] is the
      ISO-8601 instance used to run the code on concrete requests.
    - A module-level regular expression with the [g] flag carries its
      [lastIndex] between calls; the functions that [test] it thread that
      index explicitly.
    - An object literal used as a map is a [gmap] of its own properties;
      reads fall back to the members of [Object.prototype], as property
      lookup does.
    - A handler is run up to its call of the generative model: it either
      answers, or yields the prompt and the continuation that answers from
      the model's reply. *)

From Stdlib Require Import ZArith List Bool Lia String Ascii Floats Uint63 Decimal.
From stdpp Require Import base option list gmap.
Import ListNotations.
Local Open Scope Z_scope.

Abbreviation jsstring := (list Z).

(* ================================================================== *)
(** * Part I: the embedding                                           *)
(* ================================================================== *)

(** ** Strings *)

Module JsString.

(** An ASCII literal as code units. *)
Definition js (s : string) : jsstring :=
  List.map (fun a => Z.of_N (N_of_ascii a)) (list_ascii_of_string s).

(** WhiteSpace and LineTerminator of ECMAScript: what [\s] matches and
    what [trim] strips. *)
Definition isSpace (c : Z) : bool :=
  (9 <=? c) && (c <=? 13) || (c =? 32) || (c =? 160) || (c =? 5760)
  || (8192 <=? c) && (c <=? 8202)
  || (c =? 8232) || (c =? 8233) || (c =? 8239) || (c =? 8287)
  || (c =? 12288) || (c =? 65279).

Fixpoint trimStart (s : jsstring) : jsstring :=
  match s with
  | [] => []
  | c :: r => if isSpace c then trimStart r else s
  end.

Fixpoint trimEnd (s : jsstring) : jsstring :=
  match s with
  | [] => []
  | c :: r =>
      match trimEnd r with
      | [] => if isSpace c then [] else [c]
      | r' => c :: r'
      end
  end.

(** [String.prototype.trim]. *)
Definition trim (s : jsstring) : jsstring := trimEnd (trimStart s).

(** [s.slice(0, n)] for [0 <= n]. *)
Definition slice0 (n : nat) (s : jsstring) : jsstring := firstn n s.

(** [s.startsWith(p)]. *)
Fixpoint startsWith (s p : jsstring) : bool :=
  match p, s with
  | [], _ => true
  | _ :: _, [] => false
  | a :: p', b :: s' => (a =? b) && startsWith s' p'
  end.

(** [s.includes(p)]. *)
Fixpoint includes (s p : jsstring) : bool :=
  startsWith s p || match s with [] => false | _ :: r => includes r p end.

(** Length as a JavaScript number. *)
Definition len (s : jsstring) : Z := Z.of_nat (length s).

(** Decimal digits of [String(n)] for an integer [n]. *)
Fixpoint digitsOfUint (u : Decimal.uint) : jsstring :=
  match u with
  | Decimal.Nil => []
  | Decimal.D0 r => 48 :: digitsOfUint r
  | Decimal.D1 r => 49 :: digitsOfUint r
  | Decimal.D2 r => 50 :: digitsOfUint r
  | Decimal.D3 r => 51 :: digitsOfUint r
  | Decimal.D4 r => 52 :: digitsOfUint r
  | Decimal.D5 r => 53 :: digitsOfUint r
  | Decimal.D6 r => 54 :: digitsOfUint r
  | Decimal.D7 r => 55 :: digitsOfUint r
  | Decimal.D8 r => 56 :: digitsOfUint r
  | Decimal.D9 r => 57 :: digitsOfUint r
  end.

(** [String(n)]: [None] is [NaN]. *)
Definition numToString (n : option Z) : jsstring :=
  match n with
  | None => js "NaN"
  | Some z =>
      match Z.to_int z with
      | Decimal.Pos u => digitsOfUint u
      | Decimal.Neg u => 45 :: digitsOfUint u
      end
  end.

(** [s.padStart(n, '0')]. *)
Definition padStart0 (n : nat) (s : jsstring) : jsstring :=
  List.repeat 48 (n - length s)%nat ++ s.

(** A JavaScript string is falsy exactly when it is empty; [null] is
    falsy.  [truthy] is the test [if (x)] for [x : string | null]. *)
Definition truthy (x : option jsstring) : bool :=
  match x with
  | Some (_ :: _) => true
  | _ => false
  end.

End JsString.

(** ** Numbers: [Math.round] over binary64 *)

Module JsNumber.

(** The double nearest to an integer count (exact below 2^53). *)
Definition ofZ (z : Z) : float := PrimFloat.of_uint63 (Uint63.of_Z z).

(** [Math.round(x)] for a finite [x]: the integer nearest to [x], ties
    towards +infinity, computed exactly from mantissa and exponent.
    [NaN] and the infinities are not integers; they map to 0 here and are
    never reached by [rate], whose quotient has a positive divisor. *)
Definition Math_round (x : float) : Z :=
  match Prim2SF x with
  | S754_finite s m e =>
      let n := if s then Z.neg m else Z.pos m in
      if 0 <=? e then n * 2 ^ e
      else (2 * n + 2 ^ (- e)) / 2 ^ (- e + 1)
  | _ => 0
  end.

End JsNumber.

(** ** Dates *)

Module JsDate.

Definition msPerDay : Z := 86400000.
Definition msPerHour : Z := 3600000.
Definition msPerMinute : Z := 60000.
Definition msPerSecond : Z := 1000.

Definition Day (t : Z) : Z := t / msPerDay.
Definition TimeWithinDay (t : Z) : Z := t mod msPerDay.

(** Day number of the first day of year [y]. *)
Definition DayFromYear (y : Z) : Z :=
  365 * (y - 1970) + (y - 1969) / 4 - (y - 1901) / 100 + (y - 1601) / 400.

Definition isLeap (y : Z) : bool :=
  ((y mod 4 =? 0) && negb (y mod 100 =? 0)) || (y mod 400 =? 0).

Definition DaysInYear (y : Z) : Z := if isLeap y then 366 else 365.

(** The year a day number falls in: the largest [y] with
    [DayFromYear y <= d].  The Gregorian calendar repeats every 400 years
    (146097 days); inside one period the quotient by 366 is at most two
    years short. *)
Definition YearFromDay (d : Z) : Z :=
  let q := d / 146097 in
  let r := d mod 146097 in
  let k := r / 366 in
  1970 + 400 * q +
  (if DayFromYear (1970 + k + 2) <=? r then k + 2
   else if DayFromYear (1970 + k + 1) <=? r then k + 1
   else k).

Definition YearFromTime (t : Z) : Z := YearFromDay (Day t).

Definition DayWithinYear (t : Z) : Z := Day t - DayFromYear (YearFromTime t).

Definition leapDays (t : Z) : Z := if isLeap (YearFromTime t) then 1 else 0.

(** Day-in-year on which month [m] (0 = January) starts. *)
Definition monthStart (m : Z) (leap : Z) : Z :=
  if m <=? 0 then 0
  else if m =? 1 then 31
  else if m =? 2 then 59 + leap
  else if m =? 3 then 90 + leap
  else if m =? 4 then 120 + leap
  else if m =? 5 then 151 + leap
  else if m =? 6 then 181 + leap
  else if m =? 7 then 212 + leap
  else if m =? 8 then 243 + leap
  else if m =? 9 then 273 + leap
  else if m =? 10 then 304 + leap
  else 334 + leap.

Definition MonthFromTime (t : Z) : Z :=
  let d := DayWithinYear t in
  let l := leapDays t in
  if d <? 31 then 0
  else if d <? 59 + l then 1
  else if d <? 90 + l then 2
  else if d <? 120 + l then 3
  else if d <? 151 + l then 4
  else if d <? 181 + l then 5
  else if d <? 212 + l then 6
  else if d <? 243 + l then 7
  else if d <? 273 + l then 8
  else if d <? 304 + l then 9
  else if d <? 334 + l then 10
  else 11.

Definition DateFromTime (t : Z) : Z :=
  DayWithinYear t - monthStart (MonthFromTime t) (leapDays t) + 1.

Definition WeekDay (t : Z) : Z := (Day t + 4) mod 7.
Definition HourFromTime (t : Z) : Z := (t / msPerHour) mod 24.
Definition MinFromTime (t : Z) : Z := (t / msPerMinute) mod 60.

Definition MakeTime (h m s ms : Z) : Z :=
  h * msPerHour + m * msPerMinute + s * msPerSecond + ms.

Definition MakeDay (year month date : Z) : Z :=
  let ym := year + month / 12 in
  let mn := month mod 12 in
  DayFromYear ym + monthStart mn (if isLeap ym then 1 else 0) + date - 1.

Definition MakeDate (day time : Z) : Z := day * msPerDay + time.

(** What the engine and the host contribute: the local zone offset in
    milliseconds and [Date.parse] ([None] for [NaN]). *)
Record DateEnv : Type := {
  LocalTZA : Z;
  parseImpl : jsstring -> option Z
}.

(** A [Date]: its time value, [None] for an invalid date. *)
Abbreviation Date := (option Z).

Section WithEnv.
Variable E : DateEnv.

Definition LocalTime (t : Z) : Z := t + LocalTZA E.
Definition UTC (t : Z) : Z := t - LocalTZA E.

(** [new Date(s)] for a string [s].  The empty string is never a date. *)
Definition newDate (s : jsstring) : Date :=
  match s with
  | [] => None
  | _ => parseImpl E s
  end.

Definition getFullYear (d : Date) : option Z :=
  (fun t => YearFromTime (LocalTime t)) <$> d.
Definition getMonth (d : Date) : option Z :=
  (fun t => MonthFromTime (LocalTime t)) <$> d.
Definition getDate (d : Date) : option Z :=
  (fun t => DateFromTime (LocalTime t)) <$> d.
Definition getDay (d : Date) : option Z :=
  (fun t => WeekDay (LocalTime t)) <$> d.
Definition getHours (d : Date) : option Z :=
  (fun t => HourFromTime (LocalTime t)) <$> d.
Definition getMinutes (d : Date) : option Z :=
  (fun t => MinFromTime (LocalTime t)) <$> d.

(** [d.setFullYear(y)]: month, date and time of day are kept; an invalid
    date restarts from +0, a [NaN] year gives an invalid date. *)
Definition setFullYear (d : Date) (y : option Z) : Date :=
  match y with
  | None => None
  | Some y =>
      let t := match d with None => 0 | Some t => LocalTime t end in
      Some (UTC (MakeDate (MakeDay y (MonthFromTime t) (DateFromTime t))
                          (TimeWithinDay t)))
  end.

(** [d.setDate(dt)]. *)
Definition setDate (d : Date) (dt : option Z) : Date :=
  match d, dt with
  | Some t, Some dt =>
      let t := LocalTime t in
      Some (UTC (MakeDate (MakeDay (YearFromTime t) (MonthFromTime t) dt)
                          (TimeWithinDay t)))
  | _, _ => None
  end.

(** [d.setHours(h, m, s, ms)]. *)
Definition setHours (d : Date) (h m s ms : Z) : Date :=
  match d with
  | Some t =>
      Some (UTC (MakeDate (Day (LocalTime t)) (MakeTime h m s ms)))
  | None => None
  end.

(** The relational operators on dates compare time values; any
    comparison with an invalid date is false. *)
Definition dateLt (a b : Date) : bool :=
  match a, b with Some x, Some y => x <? y | _, _ => false end.
Definition dateLe (a b : Date) : bool :=
  match a, b with Some x, Some y => x <=? y | _, _ => false end.
Definition dateGt (a b : Date) : bool := dateLt b a.
Definition dateGe (a b : Date) : bool := dateLe b a.

End WithEnv.

(** *** An ISO-8601 [Date.parse]

    The date-time string format of ECMAScript:
    [YYYY-MM-DD] (UTC), [YYYY-MM-DDTHH:mm], [YYYY-MM-DDTHH:mm:ss],
    [YYYY-MM-DDTHH:mm:ss.sss] (local time), each optionally followed by
    [Z] or [+HH:mm] / [-HH:mm]. *)

Definition digit (c : Z) : option Z :=
  if (48 <=? c) && (c <=? 57) then Some (c - 48) else None.

Definition digits2 (a b : Z) : option Z :=
  x ← digit a; y ← digit b; Some (10 * x + y).

Definition digits3 (a b c : Z) : option Z :=
  x ← digit a; y ← digits2 b c; Some (100 * x + y).

Definition digits4 (a b c d : Z) : option Z :=
  x ← digits2 a b; y ← digits2 c d; Some (100 * x + y).

(** The zone suffix: [Some None] when absent (local time), [Some (Some o)]
    for an explicit offset of [o] ms, [None] when malformed. *)
Definition parseZone (s : jsstring) : option (option Z) :=
  match s with
  | [] => Some None
  | [90] => Some (Some 0)
  | [sg; h1; h2; 58; m1; m2] =>
      h ← digits2 h1 h2; m ← digits2 m1 m2;
      if (h <? 24) && (m <? 60) then
        if sg =? 43 then Some (Some (h * msPerHour + m * msPerMinute))
        else if sg =? 45 then Some (Some (- (h * msPerHour + m * msPerMinute)))
        else None
      else None
  | _ => None
  end.

(** Seconds and milliseconds, then the zone. *)
Definition parseSeconds (s : jsstring) : option (Z * option Z) :=
  match s with
  | 58 :: s1 :: s2 :: 46 :: f1 :: f2 :: f3 :: z =>
      sec ← digits2 s1 s2; ms ← digits3 f1 f2 f3; zn ← parseZone z;
      if sec <? 60 then Some (sec * msPerSecond + ms, zn) else None
  | 58 :: s1 :: s2 :: z =>
      sec ← digits2 s1 s2; zn ← parseZone z;
      if sec <? 60 then Some (sec * msPerSecond, zn) else None
  | z => zn ← parseZone z; Some (0, zn)
  end.

Definition daysInMonth (y m : Z) : Z :=
  if m =? 1 then (if isLeap y then 29 else 28)
  else if (m =? 3) || (m =? 5) || (m =? 8) || (m =? 10) then 30
  else 31.

Definition isoParse (tza : Z) (s : jsstring) : option Z :=
  match s with
  | y1 :: y2 :: y3 :: y4 :: 45 :: m1 :: m2 :: 45 :: d1 :: d2 :: rest =>
      y ← digits4 y1 y2 y3 y4; m ← digits2 m1 m2; d ← digits2 d1 d2;
      if (1 <=? m) && (m <=? 12) && (1 <=? d) && (d <=? daysInMonth y (m - 1))
      then
        let day := MakeDay y (m - 1) d in
        match rest with
        | [] => Some (MakeDate day 0)
        | 84 :: h1 :: h2 :: 58 :: n1 :: n2 :: rest' =>
            h ← digits2 h1 h2; n ← digits2 n1 n2;
            '(sms, zn) ← parseSeconds rest';
            if (h <? 24) && (n <? 60) then
              let t := MakeDate day (h * msPerHour + n * msPerMinute + sms) in
              Some (t - default tza zn)
            else None
        | _ => None
        end
      else None
  | _ => None
  end.

(** An environment whose zone is [tza] ms east of UTC and whose parser is
    [isoParse]. *)
Definition isoEnv (tza : Z) : DateEnv :=
  {| LocalTZA := tza; parseImpl := isoParse tza |}.

End JsDate.


(** ** Route handlers: what a handler does up to its model call *)

Module Route.

(** [NextResponse.json]: an error payload with its HTTP status, or the
    result object (status 200). *)
Inductive Response (T : Type) : Type :=
| errorResponse (message : jsstring) (status : Z)
| json (object : T).
Arguments errorResponse {T} message status.
Arguments json {T} object.

(** What [await generateObject(...)] gives back: the object, or an
    exception with its message. *)
Inductive ModelReply (Raw : Type) : Type :=
| Generated (object : Raw)
| Thrown (message : jsstring).
Arguments Generated {Raw} object.
Arguments Thrown {Raw} message.

(** What [await request.json()] and the destructuring of the body give:
    the body, or an exception with its message (malformed JSON, a [null]
    body). *)
Inductive Body (B : Type) : Type :=
| Parsed (body : B)
| Unreadable (message : jsstring).
Arguments Parsed {B} body.
Arguments Unreadable {B} message.

(** A handler either answers at once or calls the generative model with a
    prompt and answers from its reply. *)
Inductive Handler (Prompt Raw T : Type) : Type :=
| Answer (r : Response T)
| GenerateObject (prompt : Prompt) (k : ModelReply Raw -> Response T).
Arguments Answer {Prompt Raw T} r.
Arguments GenerateObject {Prompt Raw T} prompt k.

(** The generative model is invoked by this run of the handler. *)
Definition invokesModel {P R T} (h : Handler P R T) : bool :=
  match h with
  | Answer _ => false
  | GenerateObject _ _ => true
  end.

(** The response of a run that answers without the model. *)
Definition answered {P R T} (h : Handler P R T) : option (Response T) :=
  match h with
  | Answer r => Some r
  | GenerateObject _ _ => None
  end.

(** The prompt of a run that calls the model. *)
Definition promptOf {P R T} (h : Handler P R T) : option P :=
  match h with
  | Answer _ => None
  | GenerateObject prompt _ => Some prompt
  end.

Definition statusOf {T} (r : Response T) : Z :=
  match r with
  | errorResponse _ status => status
  | json _ => 200
  end.

End Route.

(** ** The summarize-todos route *)

Module Todo.
(** The priority of a todo, typed ['high' | 'medium' | 'low'] in the
    source; the embedding follows the type, so [p in priorityCompletion]
    holds for every todo. *)
Inductive Priority : Type := high | medium | low.

(** [TodoSummaryInput]: the projection of a todo the route receives. *)

Record TodoSummaryInput : Type := {
  title : jsstring;
  completed : bool;
  due_at : option jsstring;
  priority : Priority;
  category : option jsstring;
  created_at : jsstring
}.
End Todo.

Module Summarize.
Import JsString JsNumber JsDate Route.
Export Todo.

#[global] Instance Priority_eq_dec : EqDecision Priority.
Proof. solve_decision. Defined.

(** The property name of a priority. *)
Definition priorityKey (p : Priority) : jsstring :=
  match p with
  | high => js "high"
  | medium => js "medium"
  | low => js "low"
  end.

Module PriorityCompletionStat.
Record t : Type := { total : Z; completed : Z; rate : Z }.
End PriorityCompletionStat.

Module CategoryStat.
Record t : Type := { total : Z; completed : Z; overdue : Z }.
End CategoryStat.

Module TimeSlotDist.
Record t : Type := { morning : Z; afternoon : Z; evening : Z; night : Z }.
End TimeSlotDist.

(** A value stored under a key of [overdueByCategory] /
    [overdueByPriority]: a count, or the string that [+ 1] makes of a
    member inherited from [Object.prototype]. *)
Inductive Tally : Type :=
| Count (n : Z)
| Concatenated.

Record PeriodStats : Type := {
  now : Date;
  todayStr : jsstring;
  weekMonday : Date;
  weekSunday : Date;
  total : Z;
  completed : Z;
  inProgress : Z;
  overdue : Z;
  completionRate : Z;
  todayTasks : list TodoSummaryInput;
  weekTasks : list TodoSummaryInput;
  priorityCompletion : Priority -> PriorityCompletionStat.t;
  categoryCompletion : gmap jsstring CategoryStat.t;
  deadlineAdherenceRate : Z;
  timeSlotDist : TimeSlotDist.t;
  dayOfWeekDist : list Z;
  overdueByCategory : gmap jsstring Tally;
  overdueByPriority : gmap jsstring Tally;
  completedThisWeek : Z
}.

(** [rate]: [total > 0 ? Math.round((completed / total) * 100) : 0]. *)
Definition rate (completed total : Z) : Z :=
  if 0 <? total
  then Math_round (PrimFloat.mul (PrimFloat.div (ofZ completed) (ofZ total))
                                 (ofZ 100))
  else 0.

(** [todos.filter(p).length]. *)
Definition countIf {A} (p : A -> bool) (l : list A) : Z :=
  Z.of_nat (length (List.filter p l)).

(** The fallback category key. *)
Definition uncategorized : jsstring := [48120; 48516; 47448].

(** [t.category || uncategorized]. *)
Definition categoryKey (t : TodoSummaryInput) : jsstring :=
  match Todo.category t with
  | Some (c :: r) => c :: r
  | _ => uncategorized
  end.

(** The names every object literal inherits from [Object.prototype]:
    reading such a key from a fresh object finds a (truthy) inherited
    member, not [undefined]. *)
Definition objectPrototypeKeys : list jsstring :=
  List.map js
    ["constructor"; "__defineGetter__"; "__defineSetter__"; "hasOwnProperty";
     "__lookupGetter__"; "__lookupSetter__"; "isPrototypeOf";
     "propertyIsEnumerable"; "toString"; "valueOf"; "__proto__";
     "toLocaleString"]%string.

Definition inheritedKey (k : jsstring) : bool :=
  bool_decide (k ∈ objectPrototypeKeys).

(** [obj[k] = (obj[k] || 0) + 1] on an object literal.  An own count is
    incremented; a missing key starts at 1; a key inherited from
    [Object.prototype] yields a string concatenation, stored as an own
    property except under [__proto__], whose setter ignores it. *)
Definition bump (k : jsstring) (m : gmap jsstring Tally) : gmap jsstring Tally :=
  match m !! k with
  | Some (Count n) => <[k := Count (n + 1)]> m
  | Some Concatenated => m
  | None =>
      if inheritedKey k
      then (if bool_decide (k = js "__proto__") then m
            else <[k := Concatenated]> m)
      else <[k := Count 1]> m
  end.

Section WithEnv.
Variable E : DateEnv.

Definition pad2 (n : option Z) : jsstring := padStart0 2 (numToString n).

(** The local calendar date of [now] as [YYYY-MM-DD]. *)
Definition todayStrOf (now : Date) : jsstring :=
  numToString (getFullYear E now) ++ js "-"
  ++ pad2 ((fun m => m + 1) <$> getMonth E now) ++ js "-"
  ++ pad2 (getDate E now).

(** Monday 00:00:00.000 of the week of [now]. *)
Definition weekMondayOf (now : Date) : Date :=
  let dayOfWeek := getDay E now in
  let weekMonday := now in
  let weekMonday :=
    setDate E weekMonday
      (d ← getDate E now; w ← dayOfWeek;
       Some (d - (if w =? 0 then 6 else w - 1))) in
  setHours E weekMonday 0 0 0 0.

(** Sunday 23:59:59.999 of the week that starts at [weekMonday]. *)
Definition weekSundayOf (weekMonday : Date) : Date :=
  let weekSunday := weekMonday in
  let weekSunday :=
    setDate E weekSunday ((fun d => d + 6) <$> getDate E weekMonday) in
  setHours E weekSunday 23 59 59 999.

(** [t.due_at?.startsWith(todayStr)]. *)
Definition dueToday (todayStr : jsstring) (t : TodoSummaryInput) : bool :=
  match Todo.due_at t with
  | Some s => startsWith s todayStr
  | None => false
  end.

(** [t.due_at && new Date(t.due_at) >= weekMonday
     && new Date(t.due_at) <= weekSunday]. *)
Definition dueInWeek (weekMonday weekSunday : Date) (t : TodoSummaryInput) : bool :=
  match Todo.due_at t with
  | Some s =>
      truthy (Some s)
      && dateGe (newDate E s) weekMonday && dateLe (newDate E s) weekSunday
  | None => false
  end.

(** [!t.completed && t.due_at && new Date(t.due_at) < now]. *)
Definition isOverdue (now : Date) (t : TodoSummaryInput) : bool :=
  negb (Todo.completed t)
  && match Todo.due_at t with
     | Some s => truthy (Some s) && dateLt (newDate E s) now
     | None => false
     end.

(** One turn of the loop over [priorityCompletion]. *)
Definition priorityStep
    (pc : Priority -> PriorityCompletionStat.t) (t : TodoSummaryInput)
    : Priority -> PriorityCompletionStat.t :=
  fun p =>
    if bool_decide (p = Todo.priority t) then
      {| PriorityCompletionStat.total := PriorityCompletionStat.total (pc p) + 1;
         PriorityCompletionStat.completed :=
           PriorityCompletionStat.completed (pc p)
           + (if Todo.completed t then 1 else 0);
         PriorityCompletionStat.rate := PriorityCompletionStat.rate (pc p) |}
    else pc p.

(** The second loop: the rate of each priority. *)
Definition priorityRates
    (pc : Priority -> PriorityCompletionStat.t)
    : Priority -> PriorityCompletionStat.t :=
  fun p =>
    {| PriorityCompletionStat.total := PriorityCompletionStat.total (pc p);
       PriorityCompletionStat.completed := PriorityCompletionStat.completed (pc p);
       PriorityCompletionStat.rate :=
         rate (PriorityCompletionStat.completed (pc p))
              (PriorityCompletionStat.total (pc p)) |}.

(** One turn of the loop over [categoryCompletion].  A category named
    like a member of [Object.prototype] never gets an entry of its own:
    the increments land on the inherited member. *)
Definition categoryStep (now : Date)
    (cc : gmap jsstring CategoryStat.t) (t : TodoSummaryInput)
    : gmap jsstring CategoryStat.t :=
  let cat := categoryKey t in
  let entry :=
    match cc !! cat with
    | Some e => Some e
    | None =>
        if inheritedKey cat then None
        else Some {| CategoryStat.total := 0; CategoryStat.completed := 0;
                     CategoryStat.overdue := 0 |}
    end in
  match entry with
  | None => cc
  | Some e =>
      <[cat :=
          {| CategoryStat.total := CategoryStat.total e + 1;
             CategoryStat.completed :=
               CategoryStat.completed e + (if Todo.completed t then 1 else 0);
             CategoryStat.overdue :=
               CategoryStat.overdue e + (if isOverdue now t then 1 else 0) |}]> cc
  end.

(** One turn of the time-of-day loop: [NaN < 12] is false, so an invalid
    date lands in the last branch. *)
Definition timeSlotStep (d : TimeSlotDist.t) (t : TodoSummaryInput) : TimeSlotDist.t :=
  match Todo.due_at t with
  | Some s =>
      if truthy (Some s) then
        let h := getHours E (newDate E s) in
        let lt (n : Z) := match h with Some h => h <? n | None => false end in
        if lt 12 then
          {| TimeSlotDist.morning := TimeSlotDist.morning d + 1;
             TimeSlotDist.afternoon := TimeSlotDist.afternoon d;
             TimeSlotDist.evening := TimeSlotDist.evening d;
             TimeSlotDist.night := TimeSlotDist.night d |}
        else if lt 17 then
          {| TimeSlotDist.morning := TimeSlotDist.morning d;
             TimeSlotDist.afternoon := TimeSlotDist.afternoon d + 1;
             TimeSlotDist.evening := TimeSlotDist.evening d;
             TimeSlotDist.night := TimeSlotDist.night d |}
        else if lt 21 then
          {| TimeSlotDist.morning := TimeSlotDist.morning d;
             TimeSlotDist.afternoon := TimeSlotDist.afternoon d;
             TimeSlotDist.evening := TimeSlotDist.evening d + 1;
             TimeSlotDist.night := TimeSlotDist.night d |}
        else
          {| TimeSlotDist.morning := TimeSlotDist.morning d;
             TimeSlotDist.afternoon := TimeSlotDist.afternoon d;
             TimeSlotDist.evening := TimeSlotDist.evening d;
             TimeSlotDist.night := TimeSlotDist.night d + 1 |}
      else d
  | None => d
  end.

(** One turn of the day-of-week loop: [dist[getDay()]++].  [getDay] of a
    valid date is an index 0..6 of the array; for an invalid date the
    increment goes to the property [NaN] and no element changes. *)
Definition dayOfWeekStep (dist : list Z) (t : TodoSummaryInput) : list Z :=
  match Todo.due_at t with
  | Some s =>
      if truthy (Some s) then
        match getDay E (newDate E s) with
        | Some i => alter (fun n => n + 1) (Z.to_nat i) dist
        | None => dist
        end
      else dist
  | None => dist
  end.

(** One turn of the loop over the overdue todos. *)
Definition overdueStep
    (acc : gmap jsstring Tally * gmap jsstring Tally) (t : TodoSummaryInput)
    : gmap jsstring Tally * gmap jsstring Tally :=
  (bump (categoryKey t) acc.1, bump (priorityKey (Todo.priority t)) acc.2).

Definition computeStats (todos : list TodoSummaryInput) (nowStr : jsstring) : PeriodStats :=
  let now := newDate E nowStr in
  let todayStr := todayStrOf now in
  let weekMonday := weekMondayOf now in
  let weekSunday := weekSundayOf weekMonday in
  let todayTasks := List.filter (dueToday todayStr) todos in
  let weekTasks := List.filter (dueInWeek weekMonday weekSunday) todos in
  let completedThisWeek :=
    countIf (fun t => Todo.completed t && dueInWeek weekMonday weekSunday t) todos in
  let total := Z.of_nat (length todos) in
  let completed := countIf Todo.completed todos in
  let inProgress := total - completed in
  let completionRate := rate completed total in
  let overdue := countIf (isOverdue now) todos in
  let zero := {| PriorityCompletionStat.total := 0;
                 PriorityCompletionStat.completed := 0;
                 PriorityCompletionStat.rate := 0 |} in
  let priorityCompletion :=
    priorityRates (fold_left priorityStep todos (fun _ => zero)) in
  let categoryCompletion := fold_left (categoryStep now) todos ∅ in
  let withDue := List.filter (fun t => truthy (Todo.due_at t)) todos in
  let completedWithDue := countIf Todo.completed withDue in
  let deadlineAdherenceRate := rate completedWithDue (Z.of_nat (length withDue)) in
  let timeSlotDist :=
    fold_left timeSlotStep todos
      {| TimeSlotDist.morning := 0; TimeSlotDist.afternoon := 0;
         TimeSlotDist.evening := 0; TimeSlotDist.night := 0 |} in
  let dayOfWeekDist := fold_left dayOfWeekStep todos (List.repeat 0 7) in
  let overdueBy :=
    fold_left overdueStep (List.filter (isOverdue now) todos) (∅, ∅) in
  {| now := now;
     todayStr := todayStr;
     weekMonday := weekMonday;
     weekSunday := weekSunday;
     total := total;
     completed := completed;
     inProgress := inProgress;
     overdue := overdue;
     completionRate := completionRate;
     todayTasks := todayTasks;
     weekTasks := weekTasks;
     completedThisWeek := completedThisWeek;
     priorityCompletion := priorityCompletion;
     categoryCompletion := categoryCompletion;
     deadlineAdherenceRate := deadlineAdherenceRate;
     timeSlotDist := timeSlotDist;
     dayOfWeekDist := dayOfWeekDist;
     overdueByCategory := overdueBy.1;
     overdueByPriority := overdueBy.2 |}.

End WithEnv.

(** *** The handler *)

Inductive Period : Type := today | week.

(** [todos] as it arrives: any JSON value, an array or not. *)
Inductive JsTodos : Type :=
| NotAnArray
| TodoArray (items : list TodoSummaryInput).

(** The request body.  [period] is [None] when it is not a string;
    [currentLocalDateTime] is [None] when absent. *)
Record SummarizeTodosRequest : Type := {
  todos : JsTodos;
  period : option jsstring;
  currentLocalDateTime : option jsstring
}.

Record TodoSummary : Type := {
  summary : jsstring;
  urgentTasks : list jsstring;
  insights : list jsstring;
  recommendations : list jsstring
}.

(** What the prompt is rendered from ([buildStatsBlock] and the period
    label). *)
Record SummaryPrompt : Type := {
  promptPeriod : Period;
  promptStats : PeriodStats
}.

(** [buildStatsBlock]: the text block is a rendering of the statistics
    and the period; only whether it is produced is modelled.  Its first
    field is [stats.now.toISOString()], which throws a [RangeError] when
    [now] is an invalid date: the result is the prompt's content, or the
    message of that exception. *)
Definition buildStatsBlock (stats : PeriodStats) (period : Period)
    : SummaryPrompt + jsstring :=
  match now stats with
  | Some _ => inl {| promptPeriod := period; promptStats := stats |}
  | None => inr (js "Invalid time value")
  end.

(* '할 일 데이터 형식이 올바르지 않습니다.' *)
Definition msgTodosFormat : jsstring :=
  [54624; 32; 51068; 32; 45936; 51060; 53552; 32; 54805; 49885; 51060; 32;
   50732; 48148; 47476; 51648; 32; 50506; 49845; 45768; 45796; 46].
(* '분석 기간이 올바르지 않습니다.' *)
Definition msgPeriod : jsstring :=
  [48516; 49437; 32; 44592; 44036; 51060; 32; 50732; 48148; 47476; 51648; 32;
   50506; 49845; 45768; 45796; 46].
(* '분석할 할 일이 없습니다. 할 일을 먼저 추가해주세요.'
   (there are no todos to analyze; add a todo first) *)
Definition msgNoTodos : jsstring :=
  [48516; 49437; 54624; 32; 54624; 32; 51068; 51060; 32; 50630; 49845; 45768;
   45796; 46; 32; 54624; 32; 51068; 51012; 32; 47676; 51200; 32; 52628; 44032;
   54644; 51452; 49464; 50836; 46].
(* '한 번에 분석할 수 있는 최대 개수(200개)를 초과했습니다.'
   (more than the maximum of 200 items that can be analyzed at once) *)
Definition msgTooMany : jsstring :=
  [54620; 32; 48264; 50640; 32; 48516; 49437; 54624; 32; 49688; 32; 51080;
   45716; 32; 52572; 45824; 32; 44060; 49688; 40; 50; 48; 48; 44060; 41; 47484;
   32; 52488; 44284; 54664; 49845; 45768; 45796; 46].
(* 'AI 서비스 인증 오류가 발생했습니다.' *)
Definition msgAuth : jsstring :=
  [65; 73; 32; 49436; 48708; 49828; 32; 51064; 51613; 32; 50724; 47448; 44032;
   32; 48156; 49373; 54664; 49845; 45768; 45796; 46].
(* 'AI 서비스 사용량이 초과되었습니다. 잠시 후 다시 시도해주세요.' *)
Definition msgQuota : jsstring :=
  [65; 73; 32; 49436; 48708; 49828; 32; 49324; 50857; 47049; 51060; 32; 52488;
   44284; 46104; 50632; 49845; 45768; 45796; 46; 32; 51104; 49884; 32; 54980;
   32; 45796; 49884; 32; 49884; 46020; 54644; 51452; 49464; 50836; 46].
(* 'AI 분석 중 오류가 발생했습니다. 다시 시도해주세요.' *)
Definition msgFailed : jsstring :=
  [65; 73; 32; 48516; 49437; 32; 51473; 32; 50724; 47448; 44032; 32; 48156;
   49373; 54664; 49845; 45768; 45796; 46; 32; 45796; 49884; 32; 49884; 46020;
   54644; 51452; 49464; 50836; 46].

(** The [catch] block: the status follows from the exception's message. *)
Definition onError {T} (message : jsstring) : Response T :=
  if includes message (js "API_KEY") || includes message (js "authentication")
     || includes message (js "API key")
  then errorResponse msgAuth 500
  else if includes message (js "quota")
          || includes message (js "RESOURCE_EXHAUSTED")
          || includes message (js "429")
  then errorResponse msgQuota 429
  else errorResponse msgFailed 500.

(** [['today', 'week'].includes(period)]. *)
Definition parsePeriod (p : option jsstring) : option Period :=
  match p with
  | Some s =>
      if bool_decide (s = js "today") then Some today
      else if bool_decide (s = js "week") then Some week
      else None
  | None => None
  end.

(** [POST].  [clock] is [new Date().toISOString().slice(0, 16)], read
    when the request carries no [currentLocalDateTime].  An unreadable
    body and a failing [buildStatsBlock] throw into the [catch] block. *)
Definition POST (E : DateEnv) (clock : jsstring)
    (body : Body SummarizeTodosRequest)
    : Handler SummaryPrompt TodoSummary TodoSummary :=
  match body with
  | Unreadable message => Answer (onError message)
  | Parsed body =>
      match todos body with
      | NotAnArray => Answer (errorResponse msgTodosFormat 400)
      | TodoArray items =>
          match parsePeriod (period body) with
          | None => Answer (errorResponse msgPeriod 400)
          | Some per =>
              if Z.of_nat (length items) =? 0
              then Answer (errorResponse msgNoTodos 400)
              else if 200 <? Z.of_nat (length items)
              then Answer (errorResponse msgTooMany 400)
              else
                let nowStr :=
                  if truthy (currentLocalDateTime body)
                  then default [] (currentLocalDateTime body)
                  else clock in
                let stats := computeStats E items nowStr in
                match buildStatsBlock stats per with
                | inr message => Answer (onError message)
                | inl statsBlock =>
                    GenerateObject statsBlock
                      (fun reply =>
                         match reply with
                         | Generated object => json object
                         | Thrown message => onError message
                         end)
                end
          end
      end
  end.

End Summarize.

(** ** The parse-todo route *)

Module ParseTodo.
Import JsString JsDate Route.

Definition MIN_LENGTH : Z := 2.
Definition MAX_LENGTH : Z := 500.
Definition TITLE_MIN : Z := 2.
Definition TITLE_MAX : Z := 100.

(** [DANGEROUS_CHARS_REGEX]: the class of less-than (60), greater-than
    (62), apostrophe (39), double quote (34), backtick (96), semicolon (59)
    and backslash (92). *)
Definition isDangerous (c : Z) : bool :=
  (c =? 60) || (c =? 62) || (c =? 39) || (c =? 34) || (c =? 96)
  || (c =? 59) || (c =? 92).

(** [EMOJI_REGEX]: the class, on code points. *)
Definition isEmoji (cp : Z) : bool :=
  (127744 <=? cp) && (cp <=? 129535)
  || (9728 <=? cp) && (cp <=? 9983)
  || (9984 <=? cp) && (cp <=? 10175)
  || (65024 <=? cp) && (cp <=? 65279)
  || (126976 <=? cp) && (cp <=? 131071).

Definition isHighSurrogate (c : Z) : bool := (55296 <=? c) && (c <=? 56319).
Definition isLowSurrogate (c : Z) : bool := (56320 <=? c) && (c <=? 57343).

(** The code point of a surrogate pair. *)
Definition codePoint (hi lo : Z) : Z :=
  65536 + (hi - 55296) * 1024 + (lo - 56320).

(** [s.replace(EMOJI_REGEX, '')]: the pattern has the [u] flag, so a high
    surrogate followed by a low one is read as one code point; any other
    code unit is a code point by itself. *)
Fixpoint removeEmoji (s : jsstring) : jsstring :=
  match s with
  | [] => []
  | c :: r =>
      match r with
      | lo :: r' =>
          if isHighSurrogate c && isLowSurrogate lo then
            if isEmoji (codePoint c lo) then removeEmoji r'
            else c :: lo :: removeEmoji r'
          else if isEmoji c then removeEmoji r
          else c :: removeEmoji r
      | [] => if isEmoji c then [] else [c]
      end
  end.

(** [s.replace(DANGEROUS_CHARS_REGEX, '')]. *)
Definition removeDangerous (s : jsstring) : jsstring :=
  List.filter (fun c => negb (isDangerous c)) s.

(** Index of the first dangerous code unit of [s], counted from [i]. *)
Fixpoint findDangerous (i : nat) (s : jsstring) : option nat :=
  match s with
  | [] => None
  | c :: r => if isDangerous c then Some i else findDangerous (S i) r
  end.

(** [DANGEROUS_CHARS_REGEX.test(s)].  The pattern object is shared by the
    whole module and has the [g] flag: the search starts at its
    [lastIndex], a match leaves [lastIndex] just after itself, a failure
    resets it to 0.  The result is the answer and the new [lastIndex]. *)
Definition testDangerous (s : jsstring) (lastIndex : nat) : bool * nat :=
  if (length s <? lastIndex)%nat then (false, 0%nat)
  else
    match findDangerous lastIndex (skipn lastIndex s) with
    | Some i => (true, S i)
    | None => (false, 0%nat)
    end.

Record ValidationResult : Type := {
  ok : bool;
  error : option jsstring
}.

(* '텍스트 형식이 올바르지 않습니다.' *)
Definition msgNotString : jsstring :=
  [53581; 49828; 53944; 32; 54805; 49885; 51060; 32; 50732; 48148; 47476;
   51648; 32; 50506; 49845; 45768; 45796; 46].
(* '할 일 내용을 입력해주세요.' *)
Definition msgEmpty : jsstring :=
  [54624; 32; 51068; 32; 45236; 50857; 51012; 32; 51077; 47141; 54644; 51452;
   49464; 50836; 46].
(* '최소 2자 이상 입력해주세요.' *)
Definition msgTooShort : jsstring :=
  [52572; 49548; 32; 50; 51088; 32; 51060; 49345; 32; 51077; 47141; 54644;
   51452; 49464; 50836; 46].
(* '입력은 500자 이내로 입력해주세요.' *)
Definition msgTooLong : jsstring :=
  [51077; 47141; 51008; 32; 53; 48; 48; 51088; 32; 51060; 45236; 47196; 32;
   51077; 47141; 54644; 51452; 49464; 50836; 46].
(* '사용할 수 없는 특수문자가 포함되어 있습니다.' *)
Definition msgDangerous : jsstring :=
  [49324; 50857; 54624; 32; 49688; 32; 50630; 45716; 32; 53945; 49688; 47928;
   51088; 44032; 32; 54252; 54632; 46104; 50612; 32; 51080; 49845; 45768;
   45796; 46].
(* '이모지만으로는 할 일을 분석할 수 없습니다. 텍스트를 함께 입력해주세요.' *)
Definition msgEmojiOnly : jsstring :=
  [51060; 47784; 51648; 47564; 51004; 47196; 45716; 32; 54624; 32; 51068;
   51012; 32; 48516; 49437; 54624; 32; 49688; 32; 50630; 49845; 45768; 45796;
   46; 32; 53581; 49828; 53944; 47484; 32; 54632; 44760; 32; 51077; 47141;
   54644; 51452; 49464; 50836; 46].
(* '의미 있는 내용을 입력해주세요.' *)
Definition msgMeaningless : jsstring :=
  [51032; 48120; 32; 51080; 45716; 32; 45236; 50857; 51012; 32; 51077; 47141;
   54644; 51452; 49464; 50836; 46].

Definition invalid (message : jsstring) : ValidationResult :=
  {| ok := false; error := Some message |}.
Definition valid : ValidationResult := {| ok := true; error := None |}.

(** [validateInput].  [text] is [None] when it is not a string.  The
    second component threads [DANGEROUS_CHARS_REGEX.lastIndex]. *)
Definition validateInput (text : option jsstring) (lastIndex : nat)
    : ValidationResult * nat :=
  match text with
  | None => (invalid msgNotString, lastIndex)
  | Some text =>
      let trimmed := trim text in
      if len trimmed =? 0 then (invalid msgEmpty, lastIndex)
      else if len trimmed <? MIN_LENGTH then (invalid msgTooShort, lastIndex)
      else if MAX_LENGTH <? len text then (invalid msgTooLong, lastIndex)
      else
        let '(found, lastIndex) := testDangerous trimmed lastIndex in
        if found then (invalid msgDangerous, lastIndex)
        else
          let withoutEmoji := trim (removeEmoji trimmed) in
          if len withoutEmoji =? 0 then (invalid msgEmojiOnly, lastIndex)
          else (valid, lastIndex)
  end.

(** [s.replace(/\s+/g, ' ')]: [inRun] tells that the previous code unit
    was white space, already replaced. *)
Fixpoint collapseFrom (inRun : bool) (s : jsstring) : jsstring :=
  match s with
  | [] => []
  | c :: r =>
      if isSpace c then
        if inRun then collapseFrom true r else 32 :: collapseFrom true r
      else c :: collapseFrom false r
  end.

Definition collapseSpaces (s : jsstring) : jsstring := collapseFrom false s.

(** The replacer of the fullwidth block U+FF01..U+FF5E. *)
Definition toHalfwidth (c : Z) : Z :=
  if (65281 <=? c) && (c <=? 65374) then c - 65248 else c.

(** [preprocessText]. *)
Definition preprocessText (text : jsstring) : jsstring :=
  let result := trim text in
  let result := collapseSpaces result in
  let result := trim (removeEmoji result) in
  let result := removeDangerous result in
  let result := List.map toHalfwidth result in
  trim result.

(** The model's raw object ([z.infer<typeof parsedTodoSchema>]); a field
    is [None] when it is [null] or missing. *)
Record RawTodo : Type := {
  raw_title : option jsstring;
  raw_due_at : option jsstring;
  raw_priority : option jsstring;
  raw_category : option jsstring;
  raw_description : option jsstring
}.

Record ParsedTodoResult : Type := {
  title : jsstring;
  due_at : option jsstring;
  priority : jsstring;
  category : option jsstring;
  description : option jsstring
}.

(* '새 할 일' *)
Definition defaultTitle : jsstring := [49352; 32; 54624; 32; 51068].
(* the horizontal ellipsis U+2026 *)
Definition ellipsis : jsstring := [8230].

(** A match of [/\s+\S*$/] starts at the head of [s]: white space, then
    no white space up to the end. *)
Definition matchesLastWord (s : jsstring) : bool :=
  match s with
  | [] => false
  | c :: r => isSpace c && forallb (fun x => negb (isSpace x)) (trimStart r)
  end.

(** [s.replace(/\s+\S*$/, '')]: the leftmost match, which runs to the
    end of [s], is removed. *)
Fixpoint dropLastWord (s : jsstring) : jsstring :=
  match s with
  | [] => []
  | c :: r => if matchesLastWord s then [] else c :: dropLastWord r
  end.

(** [x?.trim() || null]. *)
Definition trimOrNull (x : option jsstring) : option jsstring :=
  match trim <$> x with
  | Some (c :: r) => Some (c :: r)
  | _ => None
  end.

Section WithEnv.
Variable E : DateEnv.

(** The title repair of [postprocess]. *)
Definition repairTitle (raw : option jsstring) : jsstring :=
  let title := default defaultTitle (trimOrNull raw) in
  if len title <? TITLE_MIN then defaultTitle
  else if TITLE_MAX <? len title then
    trim (dropLastWord (slice0 (Z.to_nat TITLE_MAX) title)) ++ ellipsis
  else title.

Definition pad (n : option Z) : jsstring := padStart0 2 (numToString n).

(** The [YYYY-MM-DDTHH:mm] rendering of a date in local time. *)
Definition serialize (d : Date) : jsstring :=
  numToString (getFullYear E d) ++ js "-"
  ++ pad ((fun m => m + 1) <$> getMonth E d) ++ js "-"
  ++ pad (getDate E d)
  ++ js "T" ++ pad (getHours E d) ++ js ":" ++ pad (getMinutes E d).

(** The due-date repair of [postprocess]. *)
Definition repairDueAt (raw : option jsstring) (now : Date) : option jsstring :=
  match raw with
  | Some s =>
      if truthy (Some s) then
        let parsed := newDate E s in
        match parsed with
        | Some _ =>
            let oneYearLater := now in
            let oneYearLater :=
              setFullYear E oneYearLater ((fun y => y + 1) <$> getFullYear E now) in
            let parsed :=
              if dateGt parsed oneYearLater
              then setFullYear E parsed (getFullYear E now)
              else parsed in
            Some (serialize parsed)
        | None => None
        end
      else None
  | None => None
  end.

(** [postprocess]. *)
Definition postprocess (raw : RawTodo) (nowStr : jsstring) : ParsedTodoResult :=
  let now := newDate E nowStr in
  {| title := repairTitle (raw_title raw);
     due_at := repairDueAt (raw_due_at raw) now;
     priority :=
       match raw_priority raw with
       | Some p =>
           if truthy (Some p)
              && bool_decide (p ∈ [js "high"; js "medium"; js "low"])
           then p else js "medium"
       | None => js "medium"
       end;
     category := trimOrNull (raw_category raw);
     description := trimOrNull (raw_description raw) |}.

End WithEnv.

(** *** The handler *)

(** The request body: [text] is [None] when it is not a string. *)
Record ParseTodoRequest : Type := {
  text : option jsstring;
  currentLocalDateTime : option jsstring
}.

(** What the prompt is rendered from. *)
Record ParsePrompt : Type := {
  promptNow : jsstring;
  promptText : jsstring
}.

(* 'AI 서비스 인증 오류가 발생했습니다. 관리자에게 문의해주세요.' *)
Definition msgAuth : jsstring :=
  [65; 73; 32; 49436; 48708; 49828; 32; 51064; 51613; 32; 50724; 47448; 44032;
   32; 48156; 49373; 54664; 49845; 45768; 45796; 46; 32; 44288; 47532; 51088;
   50640; 44172; 32; 47928; 51032; 54644; 51452; 49464; 50836; 46].
(* 'AI 서비스 사용량이 초과되었습니다. 잠시 후 다시 시도해주세요.' *)
Definition msgQuota : jsstring :=
  [65; 73; 32; 49436; 48708; 49828; 32; 49324; 50857; 47049; 51060; 32; 52488;
   44284; 46104; 50632; 49845; 45768; 45796; 46; 32; 51104; 49884; 32; 54980;
   32; 45796; 49884; 32; 49884; 46020; 54644; 51452; 49464; 50836; 46].
(* 'AI 모델 연결에 실패했습니다. 잠시 후 다시 시도해주세요.' *)
Definition msgModel : jsstring :=
  [65; 73; 32; 47784; 45944; 32; 50672; 44208; 50640; 32; 49892; 54056; 54664;
   49845; 45768; 45796; 46; 32; 51104; 49884; 32; 54980; 32; 45796; 49884; 32;
   49884; 46020; 54644; 51452; 49464; 50836; 46].
(* 'AI 응답을 처리하는 중 오류가 발생했습니다. 다시 시도해주세요.' *)
Definition msgJson : jsstring :=
  [65; 73; 32; 51025; 45813; 51012; 32; 52376; 47532; 54616; 45716; 32; 51473;
   32; 50724; 47448; 44032; 32; 48156; 49373; 54664; 49845; 45768; 45796; 46;
   32; 45796; 49884; 32; 49884; 46020; 54644; 51452; 49464; 50836; 46].
(* 'AI 분석 중 오류가 발생했습니다. 다시 시도해주세요.' *)
Definition msgFailed : jsstring :=
  [65; 73; 32; 48516; 49437; 32; 51473; 32; 50724; 47448; 44032; 32; 48156;
   49373; 54664; 49845; 45768; 45796; 46; 32; 45796; 49884; 32; 49884; 46020;
   54644; 51452; 49464; 50836; 46].

(** The [catch] block. *)
Definition onError {T} (message : jsstring) : Response T :=
  if includes message (js "API_KEY") || includes message (js "authentication")
     || includes message (js "API key")
  then errorResponse msgAuth 500
  else if includes message (js "quota")
          || includes message (js "RESOURCE_EXHAUSTED")
          || includes message (js "429")
  then errorResponse msgQuota 429
  else if includes message (js "model") || includes message (js "not found")
  then errorResponse msgModel 500
  else if includes message (js "JSON") || includes message (js "parse")
  then errorResponse msgJson 500
  else errorResponse msgFailed 500.

(** [POST], with the [lastIndex] of [DANGEROUS_CHARS_REGEX] before and
    after the request.  [preprocessText] runs a global [replace] with that
    pattern, which leaves [lastIndex] at 0. *)
Definition POST (E : DateEnv) (clock : jsstring)
    (body : Body ParseTodoRequest) (lastIndex : nat)
    : Handler ParsePrompt RawTodo ParsedTodoResult * nat :=
  match body with
  | Unreadable message => (Answer (onError message), lastIndex)
  | Parsed body =>
      let '(validation, lastIndex) := validateInput (text body) lastIndex in
      if negb (ok validation)
      then (Answer (errorResponse (default [] (error validation)) 400), lastIndex)
      else
        let cleanedText := preprocessText (default [] (text body)) in
        if len cleanedText <? MIN_LENGTH
        then (Answer (errorResponse msgMeaningless 400), 0%nat)
        else
          let nowStr :=
            if truthy (currentLocalDateTime body)
            then default [] (currentLocalDateTime body)
            else clock in
          (GenerateObject
             {| promptNow := nowStr; promptText := cleanedText |}
             (fun reply =>
                match reply with
                | Generated raw => json (postprocess E raw nowStr)
                | Thrown message => onError message
                end),
           0%nat)
  end.

End ParseTodo.

(** ** The client of the two routes *)

Module Client.
Import JsString JsDate.

Section WithEnv.
Variable E : DateEnv.

(** [pad]: [String(n).padStart(2, '0')]. *)
Definition pad (n : option Z) : jsstring := padStart0 2 (numToString n).

(** [getCurrentLocalDateTime] of [AiTodoDialog.tsx], the value both
    requests carry as [currentLocalDateTime]; [now] is [new Date()]. *)
Definition getCurrentLocalDateTime (now : Date) : jsstring :=
  numToString (getFullYear E now) ++ js "-"
  ++ pad ((fun m => m + 1) <$> getMonth E now) ++ js "-"
  ++ pad (getDate E now)
  ++ js "T" ++ pad (getHours E now) ++ js ":" ++ pad (getMinutes E now).

End WithEnv.

End Client.


(** ** The todos listed in the prompt of the summarize route *)

Module SummarizePrompt.
Import JsString JsDate Summarize.

(** The elements of the request's array with their positions.  The
    elements are distinct objects: two of them are the same object
    exactly when their positions are equal, which is what
    [Array.prototype.includes] compares. *)
Fixpoint indexFrom (i : nat) (todos : list TodoSummaryInput)
    : list (nat * TodoSummaryInput) :=
  match todos with
  | [] => []
  | t :: r => (i, t) :: indexFrom (S i) r
  end.

(** [a.includes(t)] for an element [t] of the request's array. *)
Definition includesObject (a : list (nat * TodoSummaryInput))
    (t : nat * TodoSummaryInput) : bool :=
  existsb (fun x => Nat.eqb x.1 t.1) a.

Section WithEnv.
Variable E : DateEnv.

(** [stats.todayTasks] and [stats.weekTasks] of [computeStats], as
    objects of the request's array. *)
Definition todayObjects (todos : list TodoSummaryInput) (nowStr : jsstring)
    : list (nat * TodoSummaryInput) :=
  let st := computeStats E todos nowStr in
  List.filter (fun x => dueToday (todayStr st) x.2) (indexFrom 0 todos).

Definition weekObjects (todos : list TodoSummaryInput) (nowStr : jsstring)
    : list (nat * TodoSummaryInput) :=
  let st := computeStats E todos nowStr in
  List.filter (fun x => dueInWeek E (weekMonday st) (weekSunday st) x.2)
    (indexFrom 0 todos).

(** [targetTodos] of [buildStatsBlock]: the todos listed under the
    heading of the period. *)
Definition targetTodos (todos : list TodoSummaryInput) (nowStr : jsstring)
    (period : Period) : list (nat * TodoSummaryInput) :=
  match period with
  | today => todayObjects todos nowStr
  | week => weekObjects todos nowStr
  end.

(** The todos [buildStatsBlock] lists under its last heading (the list
    of all todos): the today list, then the todos of the week list that
    are not in the today list; nothing when both are empty. *)
Definition listedTodos (todos : list TodoSummaryInput) (nowStr : jsstring)
    : list (nat * TodoSummaryInput) :=
  let todayTasks := todayObjects todos nowStr in
  let weekTasks := weekObjects todos nowStr in
  if (0 <? Z.of_nat (length todayTasks)) || (0 <? Z.of_nat (length weekTasks))
  then
    todayTasks
    ++ List.filter (fun t => negb (includesObject todayTasks t)) weekTasks
  else [].

End WithEnv.

End SummarizePrompt.

(** ** The statistics the summary section shows ([AiTodoDialog.tsx]) *)

Module ClientTodo.
Import Todo.

(** [Todo] of [lib/types/todo.ts]; an optional field is [None] when it
    is [undefined] or [null]. *)
Record Todo : Type := {
  id : jsstring;
  user_id : jsstring;
  title : jsstring;
  description : option jsstring;
  created_at : jsstring;
  due_at : option jsstring;
  priority : Priority;
  category : option jsstring;
  completed : bool;
  completed_at : option jsstring;
  updated_at : jsstring
}.

End ClientTodo.

Module TodayStats.
Record t : Type := {
  total : Z;
  completed : Z;
  completionRate : Z;
  urgentRemaining : list ClientTodo.Todo;
  allRemaining : list ClientTodo.Todo;
  overdueCount : Z
}.
End TodayStats.

Module DayStat.
Record t : Type := { name : jsstring; total : Z; completed : Z }.
End DayStat.

Module WeekStats.
Record t : Type := {
  total : Z;
  completed : Z;
  completionRate : Z;
  overdueCount : Z;
  dayDist : list DayStat.t
}.
End WeekStats.

Module ClientStats.
Import JsString JsNumber JsDate Todo.

(** Monday to Sunday. *)
Definition DAY_ORDER : list Z := [1; 2; 3; 4; 5; 6; 0].

(* '일', '월', '화', '수', '목', '금', '토' *)
Definition DAY_NAMES : list jsstring :=
  [[51068]; [50900]; [54868]; [49688]; [47785]; [44552]; [53664]].

(** [toSummaryInput]. *)
Definition toSummaryInput (todos : list ClientTodo.Todo) : list TodoSummaryInput :=
  List.map
    (fun t =>
       {| Todo.title := ClientTodo.title t;
          Todo.completed := ClientTodo.completed t;
          Todo.due_at := ClientTodo.due_at t;
          Todo.priority := ClientTodo.priority t;
          Todo.category := ClientTodo.category t;
          Todo.created_at := ClientTodo.created_at t |})
    todos.

(** [l.indexOf(d)] for a number [d]. *)
Fixpoint indexOf (l : list Z) (d : Z) : option nat :=
  match l with
  | [] => None
  | x :: r => if x =? d then Some O else S <$> indexOf r d
  end.

Section WithEnv.
Variable E : DateEnv.

(** [isSameLocalDay]: the due time and the reference fall on the same
    local calendar date. *)
Definition isSameLocalDay (dueAt : jsstring) (ref : Date) : bool :=
  let d := newDate E dueAt in
  match getFullYear E d, getMonth E d, getDate E d,
        getFullYear E ref, getMonth E ref, getDate E ref with
  | Some y, Some m, Some dt, Some y', Some m', Some dt' =>
      (y =? y') && (m =? m') && (dt =? dt')
  | _, _, _, _, _, _ => false
  end.

(** [!t.completed && t.due_at && new Date(t.due_at) < now]. *)
Definition overdueAt (now : Date) (t : ClientTodo.Todo) : bool :=
  negb (ClientTodo.completed t)
  && match ClientTodo.due_at t with
     | Some s => truthy (Some s) && dateLt (newDate E s) now
     | None => false
     end.

(** [total > 0 ? Math.round((completed / total) * 100) : 0]. *)
Definition percentage (completed total : Z) : Z :=
  if 0 <? total
  then Math_round (PrimFloat.mul (PrimFloat.div (ofZ completed) (ofZ total))
                                 (ofZ 100))
  else 0.

(** [computeTodayStats]; [now] is [new Date()]. *)
Definition computeTodayStats (todos : list ClientTodo.Todo) (now : Date)
    : TodayStats.t :=
  let todayTodos :=
    List.filter
      (fun t =>
         match ClientTodo.due_at t with
         | Some s => truthy (Some s) && isSameLocalDay s now
         | None => false
         end) todos in
  let completed :=
    Z.of_nat (length (List.filter ClientTodo.completed todayTodos)) in
  let total := Z.of_nat (length todayTodos) in
  let allRemaining :=
    List.filter (fun t => negb (ClientTodo.completed t)) todayTodos in
  let urgentRemaining :=
    firstn 3
      (List.filter (fun t => bool_decide (ClientTodo.priority t = high))
         allRemaining) in
  let overdueCount :=
    Z.of_nat (length (List.filter (overdueAt now) todos)) in
  {| TodayStats.total := total;
     TodayStats.completed := completed;
     TodayStats.completionRate := percentage completed total;
     TodayStats.urgentRemaining := urgentRemaining;
     TodayStats.allRemaining := allRemaining;
     TodayStats.overdueCount := overdueCount |}.

(** The todos of the week of [computeWeekStats]. *)
Definition weekTodos (todos : list ClientTodo.Todo) (now : Date)
    : list ClientTodo.Todo :=
  let dow := getDay E now in
  let weekMonday := now in
  let weekMonday :=
    setDate E weekMonday
      (d ← getDate E now; w ← dow; Some (d - (if w =? 0 then 6 else w - 1))) in
  let weekMonday := setHours E weekMonday 0 0 0 0 in
  let weekSunday := weekMonday in
  let weekSunday :=
    setDate E weekSunday ((fun d => d + 6) <$> getDate E weekMonday) in
  let weekSunday := setHours E weekSunday 23 59 59 999 in
  List.filter
    (fun t =>
       match ClientTodo.due_at t with
       | Some s =>
           truthy (Some s)
           && (let d := newDate E s in dateGe d weekMonday && dateLe d weekSunday)
       | None => false
       end) todos.

(** One turn of the loop over the todos of the week. *)
Definition dayStep (dayDist : list DayStat.t) (t : ClientTodo.Todo)
    : list DayStat.t :=
  match ClientTodo.due_at t with
  | Some s =>
      if truthy (Some s) then
        match getDay E (newDate E s) with
        | Some d =>
            match indexOf DAY_ORDER d with
            | Some idx =>
                alter
                  (fun e =>
                     {| DayStat.name := DayStat.name e;
                        DayStat.total := DayStat.total e + 1;
                        DayStat.completed :=
                          DayStat.completed e
                          + (if ClientTodo.completed t then 1 else 0) |})
                  idx dayDist
            | None => dayDist
            end
        | None => dayDist
        end
      else dayDist
  | None => dayDist
  end.

(** [computeWeekStats]; [now] is [new Date()]. *)
Definition computeWeekStats (todos : list ClientTodo.Todo) (now : Date)
    : WeekStats.t :=
  let weekTodos := weekTodos todos now in
  let completed :=
    Z.of_nat (length (List.filter ClientTodo.completed weekTodos)) in
  let total := Z.of_nat (length weekTodos) in
  let overdueCount :=
    Z.of_nat (length (List.filter (overdueAt now) todos)) in
  let dayDist :=
    List.map
      (fun dayIdx =>
         {| DayStat.name := default [] (DAY_NAMES !! Z.to_nat dayIdx);
            DayStat.total := 0;
            DayStat.completed := 0 |})
      DAY_ORDER in
  let dayDist := fold_left dayStep weekTodos dayDist in
  {| WeekStats.total := total;
     WeekStats.completed := completed;
     WeekStats.completionRate := percentage completed total;
     WeekStats.overdueCount := overdueCount;
     WeekStats.dayDist := dayDist |}.

End WithEnv.

End ClientStats.

(* ================================================================== *)
(** * Part II: the vocabulary of the properties                       *)
(* ================================================================== *)

(** The notions the theorems of Part III are stated with: the criteria
    of the specification written out, the shapes of strings, and the
    concrete requests the code is run on. *)

(** ** Strings *)

Module StringSpec.
Import JsString.

(** No code unit of [s] is white space. *)
Definition noSpace (s : jsstring) : bool :=
  forallb (fun x => negb (isSpace x)) s.

(** Every code unit of [s] is white space. *)
Definition allSpace (s : jsstring) : bool := forallb isSpace s.

(** The last code unit of [s] is not white space ([s] may be empty). *)
Definition endsClean (s : jsstring) : bool :=
  match rev s with
  | [] => true
  | c :: _ => negb (isSpace c)
  end.

(** The first code unit of [s] is not white space ([s] may be empty). *)
Definition startsClean (s : jsstring) : bool :=
  match s with
  | [] => true
  | c :: _ => negb (isSpace c)
  end.

(** The white space [s] starts with. *)
Fixpoint leadingSpaces (s : jsstring) : jsstring :=
  match s with
  | [] => []
  | c :: r => if isSpace c then c :: leadingSpaces r else []
  end.

(** [p] holds on the [n] integers from [lo] on. *)
Fixpoint holdsFrom (p : Z -> bool) (lo : Z) (n : nat) : bool :=
  match n with
  | O => true
  | S k => p lo && holdsFrom p (lo + 1) k
  end.

End StringSpec.

(** ** The summarize-todos route *)

Module SummarizeSpec.
Import JsString JsNumber JsDate Route Summarize.

(** [rate c t] is an integer within one half of the exact percentage
    [100 c / t], between 0 and 100. *)
Definition nearestPercent (c t : Z) : bool :=
  let r := rate c t in
  (2 * Z.abs (100 * c - r * t) <=? t) && (0 <=? r) && (r <=? 100).

(** The period is one of the two literals. *)
Definition periodOk (b : SummarizeTodosRequest) : Prop :=
  period b = Some (js "today") \/ period b = Some (js "week").

(** The request passes the checks: an array of 1 to 200 todos and a
    period that is one of the two literals. *)
Definition requestOk (b : SummarizeTodosRequest) : Prop :=
  exists items, todos b = TodoArray items
    /\ periodOk b /\ (1 <= length items <= 200)%nat.

(** The nowStr the handler computes its statistics for. *)
Definition nowStrOf (clock : jsstring) (b : SummarizeTodosRequest) : jsstring :=
  if truthy (currentLocalDateTime b)
  then default [] (currentLocalDateTime b) else clock.

(** The todos filed under the key [cat]. *)
Definition inCategory (cat : jsstring) (t : TodoSummaryInput) : bool :=
  bool_decide (categoryKey t = cat).

(** The todos of priority [p]. *)
Definition hasPriority (p : Priority) (t : TodoSummaryInput) : bool :=
  bool_decide (Todo.priority t = p).

(** [e] with its three counts raised by [a], [b] and [c]. *)
Definition addStat (e : CategoryStat.t) (a b c : Z) : CategoryStat.t :=
  {| CategoryStat.total := CategoryStat.total e + a;
     CategoryStat.completed := CategoryStat.completed e + b;
     CategoryStat.overdue := CategoryStat.overdue e + c |}.

(** The entry a category starts with. *)
Definition zeroStat : CategoryStat.t :=
  {| CategoryStat.total := 0; CategoryStat.completed := 0;
     CategoryStat.overdue := 0 |}.




(** The four time-of-day slots added up. *)
Definition slotSum (d : TimeSlotDist.t) : Z :=
  TimeSlotDist.morning d + TimeSlotDist.afternoon d
  + TimeSlotDist.evening d + TimeSlotDist.night d.

(** The entries of a distribution added up. *)
Definition sumList (l : list Z) : Z := fold_right Z.add 0 l.

(** [t.due_at] is not null. *)
Definition hasDue (t : TodoSummaryInput) : bool :=
  match Todo.due_at t with Some _ => true | None => false end.

(** Days back from the weekday [w] to Monday. *)
Definition daysSinceMonday (w : Z) : Z := if w =? 0 then 6 else w - 1.

(** Seoul: 9 hours east of UTC. *)
Definition seoul : DateEnv := isoEnv (9 * msPerHour).

(** An open todo due at [s]. *)
Definition dueAt (s : string) : TodoSummaryInput :=
  {| Todo.title := js "task"; Todo.completed := false;
     Todo.due_at := Some (js s); Todo.priority := medium;
     Todo.category := None; Todo.created_at := js "2026-02-01T00:00:00.000Z" |}.

Section WithEnv.
Variable E : DateEnv.

(** The criterion in the words of the specification: not completed, a
    due time that is not null, and the instant of that due time strictly
    before the reference instant. *)
Definition overdueCriterion (now : Date) (t : TodoSummaryInput) : bool :=
  negb (Todo.completed t)
  && match Todo.due_at t with
     | None => false
     | Some s =>
         match newDate E s, now with
         | Some d, Some n => d <? n
         | _, _ => false
         end
     end.

(** The number of overdue todos of [todos] that satisfy [p]. *)
Definition overdueCount (now : Date) (p : TodoSummaryInput -> bool)
    (todos : list TodoSummaryInput) : Z :=
  countIf (fun t => overdueCriterion now t && p t) todos.

(** Every due time that is not null parses to a valid instant. *)
Definition dueTimesValid (todos : list TodoSummaryInput) : Prop :=
  forall t s, In t todos -> Todo.due_at t = Some s -> is_Some (newDate E s).

(** [isSameLocalDay] of the client ([AiTodoDialog.tsx]): the due time and
    the reference fall on the same local calendar date. *)
Definition isSameLocalDay (dueAt : jsstring) (ref : Date) : bool :=
  let d := newDate E dueAt in
  match getFullYear E d, getMonth E d, getDate E d,
        getFullYear E ref, getMonth E ref, getDate E ref with
  | Some y, Some m, Some dt, Some y', Some m', Some dt' =>
      (y =? y') && (m =? m') && (dt =? dt')
  | _, _, _, _, _, _ => false
  end.

End WithEnv.

End SummarizeSpec.

(** ** Scenario A of the specification *)

Module ScenarioA.
Import JsString JsDate Route Summarize.

(** A todo of the scenario. *)
Definition todo (done : bool) (due : option jsstring) (cat : option jsstring)
    (p : Priority) : TodoSummaryInput :=
  {| Todo.title := js "task"; Todo.completed := done; Todo.due_at := due;
     Todo.priority := p; Todo.category := cat;
     Todo.created_at := js "2026-02-01T00:00:00.000Z" |}.

(** Ten todos, four completed, two overdue at 2026-02-17T09:00. *)
Definition todos : list TodoSummaryInput :=
  [ todo true None (Some (js "work")) high;
    todo true (Some (js "2026-02-10T09:00:00.000Z")) (Some (js "work")) medium;
    todo true (Some (js "2026-02-20T18:00:00.000Z")) None low;
    todo true None None medium;
    todo false (Some (js "2026-02-16T09:00:00.000Z")) (Some (js "work")) high;
    todo false (Some (js "2026-02-17T08:59:00.000Z")) None medium;
    todo false (Some (js "2026-02-17T09:00:00.000Z")) (Some (js "work")) low;
    todo false (Some (js "2026-02-19T22:30:00.000Z")) (Some (js "toString")) low;
    todo false None (Some []) medium;
    todo false None None high ].

(** The reference instant of the scenario. *)
Definition nowStr : jsstring := js "2026-02-17T09:00".

End ScenarioA.

(** ** The parse-todo route *)

Module ParseSpec.
Import JsString JsDate Route ParseTodo StringSpec.

(** The word boundaries of the specification: a whole word ends just
    before position [k] of [t]. *)
Definition wordEndsAt (t : jsstring) (k : nat) : bool :=
  match k with
  | O => false
  | S j =>
      match t !! j with
      | Some c =>
          negb (isSpace c)
          && match t !! k with Some d => isSpace d | None => true end
      | None => false
      end
  end.

(** The specification's truncation: cut at the last position at or
    before [n] where a whole word ends, and append the ellipsis. *)
Fixpoint lastWordEnd (t : jsstring) (n : nat) : nat :=
  match n with
  | O => O
  | S j => if wordEndsAt t n then n else lastWordEnd t j
  end.

(** The title of the specification for a trimmed title [t] of more than
    100 code units. *)
Definition truncateAtWordBoundary (t : jsstring) : jsstring :=
  firstn (lastWordEnd t 100) t ++ ellipsis.

(** A title of 105 code units: one letter, a space, a word of 98
    letters that ends exactly at position 100, a space, four letters. *)
Definition longTitle : jsstring := js "x " ++ List.repeat 97 98 ++ js " tail".




(** [s] has its white space collapsed: every white-space code unit is a
    single U+0020 ([inRun]: the code unit before [s] was white space). *)
Fixpoint collapsedFrom (inRun : bool) (s : jsstring) : bool :=
  match s with
  | [] => true
  | c :: r =>
      if isSpace c then negb inRun && (c =? 32) && collapsedFrom true r
      else collapsedFrom false r
  end.


(** An ASCII digit. *)
Definition isDigit (c : Z) : bool := (48 <=? c) && (c <=? 57).

(** Exactly two digits. *)
Definition twoDigits (s : jsstring) : bool :=
  match s with
  | [a; b] => isDigit a && isDigit b
  | _ => false
  end.


(** The tail [-MM-DDTHH:mm] of the serialized form. *)
Definition isDateTimeTail (s : jsstring) : bool :=
  match s with
  | [45; m1; m2; 45; d1; d2; 84; h1; h2; 58; n1; n2] =>
      twoDigits [m1; m2] && twoDigits [d1; d2] && twoDigits [h1; h2]
      && twoDigits [n1; n2]
  | _ => false
  end.


Section WithEnv.
Variable E : DateEnv.

(** The instant one year after [n]: same local month, date and time of
    day in the next year. *)
Definition oneYearAfter (n : Z) : Date :=
  setFullYear E (Some n) ((fun y => y + 1) <$> getFullYear E (Some n)).

End WithEnv.

End ParseSpec.

(** ** The statistics of the summarize route, entry by entry *)

Module StatsSpec.
Import JsString JsNumber JsDate Route Summarize SummarizeSpec.

Section WithEnv.
Variable E : DateEnv.

(** [t.due_at] is a non-empty string whose local hour lies in
    [lo, hi). *)
Definition dueHourIn (lo hi : Z) (t : TodoSummaryInput) : bool :=
  match Todo.due_at t with
  | Some s =>
      truthy (Some s)
      && match getHours E (newDate E s) with
         | Some h => (lo <=? h) && (h <? hi)
         | None => false
         end
  | None => false
  end.

(** [t.due_at] is a non-empty string that is not a date. *)
Definition dueInvalid (t : TodoSummaryInput) : bool :=
  match Todo.due_at t with
  | Some s => truthy (Some s) && bool_decide (newDate E s = None)
  | None => false
  end.

(** [t.due_at] is a non-empty string that falls on the local weekday
    [w] (0 = Sunday). *)
Definition dueOnWeekday (w : Z) (t : TodoSummaryInput) : bool :=
  match Todo.due_at t with
  | Some s =>
      truthy (Some s)
      && match getDay E (newDate E s) with
         | Some i => i =? w
         | None => false
         end
  | None => false
  end.

End WithEnv.

(** The three priorities, in the order of the source. *)
Definition priorities : list Priority := [high; medium; low].

End StatsSpec.

(** ** Runs of a handler *)

Module RouteSpec.
Import Route.

(** The response of a run of a handler, given what the generative model
    replies if the run calls it. *)
Definition respond {P R T} (h : Handler P R T) (reply : ModelReply R)
    : Response T :=
  match h with
  | Answer r => r
  | GenerateObject _ k => k reply
  end.

End RouteSpec.

(** ** Validation and normalization of the parse-todo route *)

Module ValidationSpec.
Import JsString ParseTodo.

(** [DANGEROUS_CHARS_REGEX.lastIndex] after [n] calls of [validateInput]
    on the same text in a row. *)
Fixpoint resubmit (text : option jsstring) (n : nat) (lastIndex : nat) : nat :=
  match n with
  | O => lastIndex
  | S k => resubmit text k (validateInput text lastIndex).2
  end.

(** The number of dangerous code units of [s]. *)
Definition dangerousCount (s : jsstring) : nat :=
  length (List.filter isDangerous s).

(** A code unit of the fullwidth block U+FF01..U+FF5E. *)
Definition isFullwidth (c : Z) : bool := (65281 <=? c) && (c <=? 65374).

(** A code unit that is dangerous once [preprocessText] has turned it to
    its halfwidth form, though it is not before. *)
Definition fullwidthDangerous (c : Z) : bool :=
  isDangerous (toHalfwidth c) && negb (isDangerous c).

End ValidationSpec.

(** ** The result of [postprocess] *)

Module PostprocessSpec.
Import JsString StringSpec.

(** [y] is [x] made clean: null when [x] is null or blank, and the
    trimmed [x], which is not empty, otherwise. *)
Definition cleaned (x y : option jsstring) : Prop :=
  (y = None <-> x = None \/ exists s, x = Some s /\ allSpace s = true)
  /\ (forall c, y = Some c ->
        c <> [] /\ startsClean c = true /\ endsClean c = true
        /\ exists s, x = Some s /\ c = trim s).

(** The result of [postprocess] read as a raw object again. *)
Definition rawOf (r : ParseTodo.ParsedTodoResult) : ParseTodo.RawTodo :=
  {| ParseTodo.raw_title := Some (ParseTodo.title r);
     ParseTodo.raw_due_at := ParseTodo.due_at r;
     ParseTodo.raw_priority := Some (ParseTodo.priority r);
     ParseTodo.raw_category := ParseTodo.category r;
     ParseTodo.raw_description := ParseTodo.description r |}.

End PostprocessSpec.

(** ** The reference time on its way from the client to the server *)

Module ClockSpec.
Import JsString JsDate.

(** The digits of [String(y)] read back as a number give [y]. *)
Definition yearReadsBack (y : Z) : bool :=
  match numToString (Some y) with
  | [a; b; c; d] =>
      match digits4 a b c d with Some v => v =? y | None => false end
  | _ => false
  end.

(** The two digits [v] is padded to read back as [v]. *)
Definition padReadsBack (v : Z) : bool :=
  match padStart0 2 (numToString (Some v)) with
  | [a; b] => match digits2 a b with Some w => w =? v | None => false end
  | _ => false
  end.

(** An instant cut back to the start of its minute. *)
Definition startOfMinute (t : Z) : Z := t - t mod msPerMinute.

End ClockSpec.
(** ** What the summary section shows, in the words of its labels *)

Module ClientSpec.
Import JsString JsDate Todo.

(** What [toSummaryInput] makes of one todo. *)
Definition summaryOf (t : ClientTodo.Todo) : TodoSummaryInput :=
  {| Todo.title := ClientTodo.title t;
     Todo.completed := ClientTodo.completed t;
     Todo.due_at := ClientTodo.due_at t;
     Todo.priority := ClientTodo.priority t;
     Todo.category := ClientTodo.category t;
     Todo.created_at := ClientTodo.created_at t |}.

(** A todo of the client due at [due]. *)
Definition dueOn (due : string) (done : bool) : ClientTodo.Todo :=
  {| ClientTodo.id := js "1"; ClientTodo.user_id := js "u";
     ClientTodo.title := js "task"; ClientTodo.description := None;
     ClientTodo.created_at := js "2026-02-01T00:00:00.000Z";
     ClientTodo.due_at := Some (js due); ClientTodo.priority := medium;
     ClientTodo.category := None; ClientTodo.completed := done;
     ClientTodo.completed_at := None;
     ClientTodo.updated_at := js "2026-02-01T00:00:00.000Z" |}.

(* '월', '화', '수', '목', '금', '토', '일' *)
Definition mondayFirst : list jsstring :=
  [[50900]; [54868]; [49688]; [47785]; [44552]; [53664]; [51068]].

(** The totals of a distribution over the days added up. *)
Definition sumTotals (l : list DayStat.t) : Z :=
  fold_right (fun e acc => DayStat.total e + acc) 0 l.

(** The completed counts of a distribution over the days added up. *)
Definition sumCompleted (l : list DayStat.t) : Z :=
  fold_right (fun e acc => DayStat.completed e + acc) 0 l.

End ClientSpec.

(** ** Proof automation *)

Module Automation.

(** Linear arithmetic with quotients and remainders by constants. *)
Ltac div_lia := Z.div_mod_to_equations; lia.

End Automation.

(** ** Proof automation for the messages of the routes *)

Module MessageTactics.

(** Two messages of a route differ in their first code unit: an equation
    [H] between two different ones is absurd. *)
Ltac other_message H :=
  exfalso;
  apply (f_equal (fun o => match o with Some (c :: _) => c | _ => 0 end)) in H;
  vm_compute in H; discriminate H.

End MessageTactics.

(* ================================================================== *)
(** * Part III: properties                                            *)
(* ================================================================== *)

(** ** Counting *)

Module SummarizeTotals.
Import JsString JsNumber JsDate Route Summarize SummarizeSpec.

Lemma countIf_bounds {A} (p : A -> bool) (l : list A) :
  0 <= countIf p l <= Z.of_nat (length l).
Proof.
  unfold countIf. pose proof (List.filter_length_le p l). lia.
Qed.

Lemma countIf_cons {A} (p : A -> bool) (a : A) (l : list A) :
  countIf p (a :: l) = (if p a then 1 else 0) + countIf p l.
Proof.
  unfold countIf. simpl. destruct (p a); simpl length; lia.
Qed.

Lemma rate_table :
  forallb (fun t => forallb (fun c => nearestPercent c t) (seqZ 0 (t + 1)))
          (seqZ 1 200) = true.
Proof. vm_compute. reflexivity. Qed.

Lemma rate_nearest (c t : Z) :
  0 <= c <= t -> 1 <= t <= 200 ->
  2 * Z.abs (100 * c - rate c t * t) <= t /\ 0 <= rate c t <= 100.
Proof.
  intros Hc Ht.
  pose proof rate_table as H.
  rewrite forallb_forall in H.
  assert (Hin : In t (seqZ 1 200)).
  { apply list_elem_of_In, elem_of_seqZ. lia. }
  specialize (H t Hin). rewrite forallb_forall in H.
  assert (Hin' : In c (seqZ 0 (t + 1))).
  { apply list_elem_of_In, elem_of_seqZ. lia. }
  specialize (H c Hin'). unfold nearestPercent in H. cbv zeta in H.
  apply andb_prop in H as [H H3]. apply andb_prop in H as [H1 H2].
  lia.
Qed.


(** The rounding of [completionRate], for the lists the route admits: it
    is an integer within one half of the exact percentage, between 0 and
    100. *)
Lemma computeStats_completionRate_nearest (E : DateEnv)
    (todos : list TodoSummaryInput) (nowStr : jsstring) :
  (0 < length todos <= 200)%nat ->
  let st := computeStats E todos nowStr in
  2 * Z.abs (100 * completed st - completionRate st * total st) <= total st
  /\ 0 <= completionRate st <= 100.
Proof.
  intros Hlen st. subst st.
  cbn [computeStats completed total completionRate].
  apply rate_nearest.
  - apply countIf_bounds.
  - lia.
Qed.

(** Ties are decided on the double, not on the exact quotient: 23 of 40
    is 57.5 exactly, the double product is just below it. *)
Example rate_23_40 : rate 23 40 = 57 /\ rate 1 8 = 13 /\ rate 4 10 = 40.
Proof. vm_compute. auto. Qed.

End SummarizeTotals.

(** ** The request checks of the summarize route *)

Module SummarizeRequest.
Import JsString JsDate Route Summarize SummarizeSpec.

Lemma parsePeriod_Some (p : option jsstring) :
  is_Some (parsePeriod p) <-> p = Some (js "today") \/ p = Some (js "week").
Proof.
  unfold parsePeriod. destruct p as [s|].
  - destruct (bool_decide (s = js "today")) eqn:H1.
    { apply bool_decide_eq_true in H1. subst. split; intros _.
      - left; reflexivity.
      - eexists; reflexivity. }
    apply bool_decide_eq_false in H1.
    destruct (bool_decide (s = js "week")) eqn:H2.
    { apply bool_decide_eq_true in H2. subst. split; intros _.
      - right; reflexivity.
      - eexists; reflexivity. }
    apply bool_decide_eq_false in H2.
    split.
    + intros [x Hx]. discriminate.
    + intros [Heq|Heq]; inversion Heq; contradiction.
  - split.
    + intros [x Hx]. discriminate.
    + intros [Heq|Heq]; discriminate.
Qed.

Lemma parsePeriod_None (p : option jsstring) :
  parsePeriod p = None <-> ~ (p = Some (js "today") \/ p = Some (js "week")).
Proof.
  rewrite <- parsePeriod_Some. rewrite eq_None_not_Some. reflexivity.
Qed.

Lemma POST_not_array E clock b :
  todos b = NotAnArray ->
  POST E clock (Parsed b) = Answer (errorResponse msgTodosFormat 400).
Proof. intros H. unfold POST. rewrite H. reflexivity. Qed.

Lemma POST_bad_period E clock b items :
  todos b = TodoArray items -> ~ periodOk b ->
  POST E clock (Parsed b) = Answer (errorResponse msgPeriod 400).
Proof.
  intros H Hp. unfold POST. rewrite H.
  apply parsePeriod_None in Hp. rewrite Hp. reflexivity.
Qed.

Lemma POST_empty E clock b :
  todos b = TodoArray [] -> periodOk b ->
  POST E clock (Parsed b) = Answer (errorResponse msgNoTodos 400).
Proof.
  intros H Hp. unfold POST. rewrite H.
  apply parsePeriod_Some in Hp. destruct Hp as [per Hp]. rewrite Hp.
  reflexivity.
Qed.

Lemma POST_too_many E clock b items :
  todos b = TodoArray items -> periodOk b -> (200 < length items)%nat ->
  POST E clock (Parsed b) = Answer (errorResponse msgTooMany 400).
Proof.
  intros H Hp Hl. unfold POST. rewrite H.
  apply parsePeriod_Some in Hp. destruct Hp as [per Hp]. rewrite Hp.
  destruct (Z.of_nat (length items) =? 0) eqn:H0; [lia|].
  destruct (200 <? Z.of_nat (length items)) eqn:H200; [reflexivity|lia].
Qed.

Lemma onError_invalid_time {T} :
  @onError T (js "Invalid time value") = errorResponse msgFailed 500.
Proof. vm_compute. reflexivity. Qed.

(** A request that passes the checks reaches the model when its
    reference string parses. *)
Lemma POST_passes E clock b items :
  todos b = TodoArray items -> periodOk b -> (1 <= length items <= 200)%nat ->
  is_Some (newDate E (nowStrOf clock b)) ->
  exists per k,
    POST E clock (Parsed b)
    = GenerateObject
        {| promptPeriod := per;
           promptStats := computeStats E items (nowStrOf clock b) |} k.
Proof.
  intros H Hp Hl [n Hn]. unfold POST. rewrite H.
  apply parsePeriod_Some in Hp. destruct Hp as [per Hp]. rewrite Hp.
  destruct (Z.of_nat (length items) =? 0) eqn:H0; [lia|].
  destruct (200 <? Z.of_nat (length items)) eqn:H200; [lia|].
  fold (nowStrOf clock b). unfold buildStatsBlock.
  cbn [computeStats now]. rewrite Hn.
  eexists _, _. reflexivity.
Qed.

(** When the reference string does not parse, rendering the prompt
    throws and the [catch] block answers 500. *)
Lemma POST_passes_invalid_now E clock b items :
  todos b = TodoArray items -> periodOk b -> (1 <= length items <= 200)%nat ->
  newDate E (nowStrOf clock b) = None ->
  POST E clock (Parsed b) = Answer (errorResponse msgFailed 500).
Proof.
  intros H Hp Hl Hn. unfold POST. rewrite H.
  apply parsePeriod_Some in Hp. destruct Hp as [per Hp]. rewrite Hp.
  destruct (Z.of_nat (length items) =? 0) eqn:H0; [lia|].
  destruct (200 <? Z.of_nat (length items)) eqn:H200; [lia|].
  fold (nowStrOf clock b). unfold buildStatsBlock.
  cbn [computeStats now]. rewrite Hn.
  rewrite onError_invalid_time. reflexivity.
Qed.

Lemma periodOk_dec (b : SummarizeTodosRequest) : periodOk b \/ ~ periodOk b.
Proof.
  destruct (parsePeriod (period b)) as [per|] eqn:Hp.
  - left. apply parsePeriod_Some. rewrite Hp. eexists; reflexivity.
  - right. apply parsePeriod_None. exact Hp.
Qed.

(** C9. The summarize handler checks its request before any model call.
    It answers with status 400 exactly when [todos] is not an array, the
    period is not one of the two literals, or the list is empty or longer
    than 200, and then the generative model is not invoked; the first
    failing check names the error (an empty list with a good period gets
    the no-todos message, a list over 200 the message with the cap).
    Every other request passes the checks: it reaches the model with the
    statistics of its list, unless its reference string is not a date, in
    which case rendering the prompt throws and the answer is 500. *)
Theorem POST_validates_request (E : DateEnv) (clock : jsstring)
    (b : SummarizeTodosRequest) :
  let h := POST E clock (Parsed b) in
  (~ requestOk b <-> exists message, h = Answer (errorResponse message 400))
  /\ (~ requestOk b -> invokesModel h = false)
  /\ (todos b = NotAnArray -> h = Answer (errorResponse msgTodosFormat 400))
  /\ (forall items, todos b = TodoArray items -> ~ periodOk b ->
        h = Answer (errorResponse msgPeriod 400))
  /\ (todos b = TodoArray [] -> periodOk b ->
        h = Answer (errorResponse msgNoTodos 400))
  /\ (forall items, todos b = TodoArray items -> periodOk b ->
        (200 < length items)%nat ->
        h = Answer (errorResponse msgTooMany 400))
  /\ (forall items, todos b = TodoArray items -> periodOk b ->
        (1 <= length items <= 200)%nat ->
        (is_Some (newDate E (nowStrOf clock b)) ->
           invokesModel h = true
           /\ exists per,
                promptOf h
                = Some {| promptPeriod := per;
                          promptStats :=
                            computeStats E items (nowStrOf clock b) |})
        /\ (newDate E (nowStrOf clock b) = None ->
              h = Answer (errorResponse msgFailed 500)))
  /\ includes msgTooMany (js "200") = true.
Proof.
  intros h. subst h.
  assert (Hbad : ~ requestOk b ->
            exists message,
              POST E clock (Parsed b) = Answer (errorResponse message 400)).
  { intros Hn. destruct (todos b) as [|items] eqn:Ht.
    { eexists. apply POST_not_array. exact Ht. }
    destruct (periodOk_dec b) as [Hp|Hp].
    2:{ eexists. eapply POST_bad_period; eauto. }
    destruct items as [|t items].
    { eexists. apply POST_empty; auto. }
    destruct (le_lt_dec (length (t :: items)) 200) as [Hl|Hl].
    { exfalso. apply Hn. exists (t :: items). repeat split; auto.
      simpl. lia. }
    eexists. eapply POST_too_many; eauto. }
  split; [split|].
  - exact Hbad.
  - intros [message Hm] (items & Ht & Hp & Hl).
    destruct (newDate E (nowStrOf clock b)) as [n|] eqn:Hn.
    + destruct (POST_passes E clock b items Ht Hp Hl) as (per & k & Hk).
      { rewrite Hn. eexists; reflexivity. }
      rewrite Hk in Hm. discriminate.
    + rewrite (POST_passes_invalid_now E clock b items Ht Hp Hl Hn) in Hm.
      inversion Hm.
  - split.
    { intros Hn. destruct (Hbad Hn) as [message Hm]. rewrite Hm. reflexivity. }
    split; [apply POST_not_array|].
    split; [apply POST_bad_period|].
    split; [apply POST_empty|].
    split; [apply POST_too_many|].
    split; [|reflexivity].
    intros items Ht Hp Hl. split.
    + intros Hn.
      destruct (POST_passes E clock b items Ht Hp Hl Hn) as (per & k & Hk).
      rewrite Hk. split; [reflexivity|]. exists per. reflexivity.
    + intros Hn. apply (POST_passes_invalid_now E clock b items); assumption.
Qed.

(** A request of three todos for the week passes and reaches the model;
    the empty request and the request of 201 todos are answered 400 with
    their messages. *)
Lemma POST_validates_request_witness :
  let E := isoEnv 0 in
  let t := {| Todo.title := js "write report"; Todo.completed := false;
              Todo.due_at := None; Todo.priority := medium;
              Todo.category := None; Todo.created_at := js "2026-02-01" |} in
  let req items := {| todos := TodoArray items; period := Some (js "week");
                      currentLocalDateTime := Some (js "2026-02-17T09:00") |} in
  invokesModel (POST E [] (Parsed (req [t; t; t]))) = true
  /\ POST E [] (Parsed (req [])) = Answer (errorResponse msgNoTodos 400)
  /\ POST E [] (Parsed (req (List.repeat t 201)))
     = Answer (errorResponse msgTooMany 400).
Proof.
  intros E t req.
  pose proof (POST_validates_request E [] (req [t; t; t])) as H3.
  pose proof (POST_validates_request E [] (req [])) as H0.
  pose proof (POST_validates_request E [] (req (List.repeat t 201))) as H201.
  cbv zeta in H3, H0, H201.
  destruct H3 as (_ & _ & _ & _ & _ & _ & H3 & _).
  destruct H0 as (_ & _ & _ & _ & H0 & _).
  destruct H201 as (_ & _ & _ & _ & _ & H201 & _).
  split; [|split].
  - destruct (H3 [t; t; t]) as [H3a _];
      [reflexivity | right; reflexivity | simpl; lia |].
    apply H3a. vm_compute. eexists; reflexivity.
  - apply H0; [reflexivity | right; reflexivity].
  - apply (H201 (List.repeat t 201));
      [reflexivity | right; reflexivity | rewrite repeat_length; lia].
Defined.

End SummarizeRequest.

(** ** The dangerous-character check of the parse route *)

Module ParseValidation.
Import JsString JsDate Route ParseTodo.

Lemma findDangerous_exists (s : jsstring) (i : nat) :
  existsb isDangerous s = true -> exists j, findDangerous i s = Some j.
Proof.
  revert i. induction s as [|c r IH]; intros i H; simpl in *.
  - discriminate.
  - destruct (isDangerous c).
    + eexists; reflexivity.
    + apply IH. exact H.
Qed.

Lemma findDangerous_none (s : jsstring) (i : nat) :
  existsb isDangerous s = false -> findDangerous i s = None.
Proof.
  revert i. induction s as [|c r IH]; intros i H; simpl in *.
  - reflexivity.
  - destruct (isDangerous c); [discriminate|]. apply IH. exact H.
Qed.

(** With [lastIndex] at 0 the test answers whether the string contains a
    dangerous character. *)
Lemma testDangerous_fresh (s : jsstring) :
  (testDangerous s 0).1 = existsb isDangerous s.
Proof.
  unfold testDangerous.
  replace (length s <? 0)%nat with false by (symmetry; apply Nat.ltb_ge; lia).
  change (skipn 0 s) with s.
  destruct (existsb isDangerous s) eqn:H.
  - destruct (findDangerous_exists s 0 H) as [j Hj]. rewrite Hj. reflexivity.
  - rewrite (findDangerous_none s 0 H). reflexivity.
Qed.

(** A call that starts with [lastIndex] at 0 rejects every text whose
    trimmed form contains a dangerous character. *)
Lemma validateInput_fresh_rejects (text : jsstring) :
  existsb isDangerous (trim text) = true ->
  ok (validateInput (Some text) 0).1 = false.
Proof.
  intros H. unfold validateInput.
  destruct (len (trim text) =? 0); [reflexivity|].
  destruct (len (trim text) <? MIN_LENGTH); [reflexivity|].
  destruct (MAX_LENGTH <? len text); [reflexivity|].
  pose proof (testDangerous_fresh (trim text)) as Ht. rewrite H in Ht.
  destruct (testDangerous (trim text) 0) as [found li]. simpl in Ht. subst found.
  reflexivity.
Qed.

(** A rejection for a dangerous character leaves [lastIndex] after the
    match; accepted texts leave it at 0. *)
Lemma validateInput_accepts_resets (text : option jsstring) (li : nat) :
  ok (validateInput text li).1 = true -> (validateInput text li).2 = 0%nat.
Proof.
  unfold validateInput. destruct text as [text|]; [|discriminate].
  destruct (len (trim text) =? 0); [discriminate|].
  destruct (len (trim text) <? MIN_LENGTH); [discriminate|].
  destruct (MAX_LENGTH <? len text); [discriminate|].
  unfold testDangerous.
  destruct (length (trim text) <? li)%nat.
  - destruct (len (trim (removeEmoji (trim text))) =? 0); [discriminate|].
    reflexivity.
  - destruct (findDangerous li (skipn li (trim text))).
    + discriminate.
    + destruct (len (trim (removeEmoji (trim text))) =? 0); [discriminate|].
      reflexivity.
Qed.

(** C5.  [validateInput] is not a function of its argument alone: the
    shared pattern keeps its [lastIndex].  The text [<ab] is rejected by a
    first call, and accepted by the call that follows a rejection of
    [ab<]. *)
Theorem validateInput_depends_on_previous_call :
  let first := validateInput (Some (js "ab<")) 0 in
  let second := validateInput (Some (js "<ab")) first.2 in
  first.1 = invalid msgDangerous
  /\ first.2 = 3%nat
  /\ second.1 = valid
  /\ (validateInput (Some (js "<ab")) 0).1 = invalid msgDangerous.
Proof. vm_compute. repeat split; reflexivity. Qed.

(** C8.  Two requests in a row: the first, [ab<], is answered 400; the
    second, [<ab], contains a dangerous character as well but passes the
    check, and the handler calls the model with its cleaned text. *)
Theorem POST_accepts_dangerous_text_after_rejection :
  let E := isoEnv 0 in
  let request s := Parsed {| text := Some (js s);
                             currentLocalDateTime := Some (js "2026-02-17T09:00") |} in
  let first := POST E [] (request "ab<"%string) 0 in
  let second := POST E [] (request "<ab"%string) first.2 in
  existsb isDangerous (trim (js "<ab")) = true
  /\ answered first.1 = Some (errorResponse msgDangerous 400)
  /\ invokesModel second.1 = true
  /\ promptOf second.1
     = Some {| promptNow := js "2026-02-17T09:00"; promptText := js "ab" |}
  /\ answered (POST E [] (request "<ab"%string) 0).1
     = Some (errorResponse msgDangerous 400).
Proof.
  vm_compute. repeat split; reflexivity.
Qed.

End ParseValidation.


(** ** Overdue todos *)

Module SummarizeOverdue.
Import JsString JsDate Route Summarize SummarizeSpec SummarizeTotals.

Section WithEnv.
Variable E : DateEnv.


Lemma countIf_ext {A} (p q : A -> bool) (l : list A) :
  (forall a, p a = q a) -> countIf p l = countIf q l.
Proof.
  intros H. induction l as [|a l IH]; [reflexivity|].
  rewrite !countIf_cons, H, IH. reflexivity.
Qed.

Lemma countIf_filter {A} (p q : A -> bool) (l : list A) :
  countIf p (List.filter q l) = countIf (fun a => q a && p a) l.
Proof.
  induction l as [|a l IH]; [reflexivity|].
  simpl. rewrite countIf_cons. destruct (q a); simpl.
  - rewrite countIf_cons, IH. reflexivity.
  - rewrite IH. reflexivity.
Qed.

Lemma countIf_and_le {A} (p q : A -> bool) (l : list A) :
  0 <= countIf (fun a => p a && q a) l <= countIf p l.
Proof.
  rewrite <- countIf_filter.
  pose proof (countIf_bounds q (List.filter p l)) as H.
  unfold countIf at 3. lia.
Qed.

Lemma addStat_assoc e a b c a' b' c' :
  addStat (addStat e a b c) a' b' c' = addStat e (a + a') (b + b') (c + c').
Proof. unfold addStat. simpl. f_equal; lia. Qed.

Lemma categoryStep_same (now : Date) cc t :
  inheritedKey (categoryKey t) = false ->
  categoryStep E now cc t !! categoryKey t
  = Some (addStat (default zeroStat (cc !! categoryKey t)) 1
            (if Todo.completed t then 1 else 0)
            (if isOverdue E now t then 1 else 0)).
Proof.
  intros Hk. unfold categoryStep. rewrite Hk.
  destruct (cc !! categoryKey t) as [e|]; simpl;
    rewrite lookup_insert_eq; reflexivity.
Qed.

Lemma categoryStep_other (now : Date) cc t cat :
  categoryKey t <> cat ->
  categoryStep E now cc t !! cat = cc !! cat.
Proof.
  intros Hk. unfold categoryStep.
  destruct (cc !! categoryKey t) as [e|].
  - rewrite lookup_insert_ne by exact Hk. reflexivity.
  - destruct (inheritedKey (categoryKey t)).
    + reflexivity.
    + rewrite lookup_insert_ne by exact Hk. reflexivity.
Qed.

(** What the category loop leaves under a key that is not a member of
    [Object.prototype]. *)
Lemma categoryCompletion_lookup (now : Date) (todos : list TodoSummaryInput)
    (cc : gmap jsstring CategoryStat.t) (cat : jsstring) :
  inheritedKey cat = false ->
  fold_left (categoryStep E now) todos cc !! cat
  = if countIf (inCategory cat) todos =? 0 then cc !! cat
    else Some (addStat (default zeroStat (cc !! cat))
                 (countIf (inCategory cat) todos)
                 (countIf (fun t => inCategory cat t && Todo.completed t) todos)
                 (countIf (fun t => inCategory cat t && isOverdue E now t) todos)).
Proof.
  intros Hk. revert cc. induction todos as [|t todos IH]; intros cc.
  - reflexivity.
  - simpl fold_left. rewrite IH. rewrite !countIf_cons.
    pose proof (countIf_bounds (inCategory cat) todos) as Ha.
    pose proof (countIf_and_le (inCategory cat) Todo.completed todos) as Hb.
    pose proof (countIf_and_le (inCategory cat) (isOverdue E now) todos) as Hc.
    set (a := countIf (inCategory cat) todos) in *.
    set (b := countIf (fun t => inCategory cat t && Todo.completed t) todos) in *.
    set (c := countIf (fun t => inCategory cat t && isOverdue E now t) todos) in *.
    destruct (inCategory cat t) eqn:Hin; unfold inCategory in Hin.
    + apply bool_decide_eq_true in Hin. subst cat.
      rewrite categoryStep_same by exact Hk. simpl default.
      rewrite !andb_true_l.
      replace (1 + a =? 0) with false by (symmetry; apply Z.eqb_neq; lia).
      destruct (a =? 0) eqn:H0.
      * apply Z.eqb_eq in H0. f_equal. unfold addStat. f_equal; lia.
      * f_equal. rewrite addStat_assoc. reflexivity.
    + apply bool_decide_eq_false in Hin.
      rewrite categoryStep_other by exact Hin. rewrite !andb_false_l.
      rewrite !Z.add_0_l. reflexivity.
Qed.

(** A category named like a member of [Object.prototype] gets no entry. *)
Lemma categoryCompletion_inherited (now : Date) (todos : list TodoSummaryInput)
    (cc : gmap jsstring CategoryStat.t) (cat : jsstring) :
  inheritedKey cat = true -> cc !! cat = None ->
  fold_left (categoryStep E now) todos cc !! cat = None.
Proof.
  intros Hk. revert cc. induction todos as [|t todos IH]; intros cc Hc.
  - exact Hc.
  - simpl fold_left. apply IH.
    destruct (decide (categoryKey t = cat)) as [Heq|Hne].
    + unfold categoryStep. rewrite Heq, Hc, Hk. exact Hc.
    + rewrite categoryStep_other by exact Hne. exact Hc.
Qed.










End WithEnv.

End SummarizeOverdue.

(** ** Scenario A of the specification, run on the model *)

Module ScenarioAChecks.
Import JsString JsDate Route Summarize SummarizeSpec ScenarioA.

Example scenarioA_totals :
  let st := computeStats (isoEnv 0) todos nowStr in
  total st = 10 /\ completed st = 4 /\ inProgress st = 6 /\ overdue st = 2
  /\ completionRate st = 40.
Proof. vm_compute. repeat split; reflexivity. Qed.

(** The overdue counts of scenario A.  The category [toString] of the
    eighth todo is a member of [Object.prototype]: it gets no entry. *)
Example scenarioA_overdue :
  let st := computeStats (isoEnv 0) todos nowStr in
  overdue st = 2
  /\ (CategoryStat.overdue <$> categoryCompletion st !! js "work") = Some 1
  /\ overdueByCategory st !! js "work" = Some (Count 1)
  /\ overdueByCategory st !! uncategorized = Some (Count 1)
  /\ overdueByPriority st !! js "low" = None
  /\ categoryCompletion st !! js "toString" = None.
Proof. vm_compute. repeat split; reflexivity. Qed.

End ScenarioAChecks.

(** ** The distributions over the time of day and the day of the week *)

Module SummarizeDistributions.
Import JsString JsDate Route Summarize SummarizeSpec SummarizeTotals.

Lemma sumList_alter (l : list Z) (i : nat) :
  (i < length l)%nat ->
  sumList (alter (fun n => n + 1) i l) = sumList l + 1.
Proof.
  unfold sumList. revert i. induction l as [|x l IH]; intros i Hi.
  - simpl in Hi. lia.
  - destruct i as [|i].
    + simpl. lia.
    + simpl in Hi. specialize (IH i ltac:(lia)).
      change (alter (fun n => n + 1) (S i) (x :: l))
        with (x :: alter (fun n => n + 1) i l).
      simpl fold_right. rewrite IH. lia.
Qed.

Lemma WeekDay_range (t : Z) : 0 <= WeekDay t < 7.
Proof. unfold WeekDay. apply Z.mod_pos_bound. lia. Qed.

Lemma HourFromTime_range (t : Z) : 0 <= HourFromTime t < 24.
Proof. unfold HourFromTime. apply Z.mod_pos_bound. lia. Qed.

Section WithEnv.
Variable E : DateEnv.

Lemma newDate_valid_truthy (s : jsstring) :
  is_Some (newDate E s) -> truthy (Some s) = true.
Proof. destruct s; [intros [x Hx]; discriminate|reflexivity]. Qed.

Lemma timeSlotStep_sum (d : TimeSlotDist.t) (t : TodoSummaryInput) :
  slotSum (timeSlotStep E d t)
  = slotSum d + (if truthy (Todo.due_at t) then 1 else 0).
Proof.
  unfold timeSlotStep.
  destruct (Todo.due_at t) as [s|]; [|simpl; lia].
  destruct (truthy (Some s)); [|lia].
  destruct (getHours E (newDate E s)) as [h|].
  - destruct (h <? 12); [unfold slotSum; simpl; lia|].
    destruct (h <? 17); [unfold slotSum; simpl; lia|].
    destruct (h <? 21); unfold slotSum; simpl; lia.
  - unfold slotSum; simpl; lia.
Qed.

Lemma timeSlot_fold (todos : list TodoSummaryInput) (d : TimeSlotDist.t) :
  slotSum (fold_left (timeSlotStep E) todos d)
  = slotSum d + countIf (fun t => truthy (Todo.due_at t)) todos.
Proof.
  revert d. induction todos as [|t todos IH]; intros d.
  - unfold countIf. simpl. lia.
  - simpl fold_left. rewrite IH, timeSlotStep_sum, countIf_cons. lia.
Qed.

Lemma dayOfWeekStep_length (dist : list Z) (t : TodoSummaryInput) :
  length (dayOfWeekStep E dist t) = length dist.
Proof.
  unfold dayOfWeekStep.
  destruct (Todo.due_at t) as [s|]; [|reflexivity].
  destruct (truthy (Some s)); [|reflexivity].
  destruct (getDay E (newDate E s)); [|reflexivity].
  apply length_alter.
Qed.

Lemma dayOfWeekStep_sum (dist : list Z) (t : TodoSummaryInput) :
  length dist = 7%nat ->
  (forall s, Todo.due_at t = Some s -> is_Some (newDate E s)) ->
  sumList (dayOfWeekStep E dist t) = sumList dist + (if hasDue t then 1 else 0).
Proof.
  intros Hlen Hv. unfold dayOfWeekStep, hasDue.
  destruct (Todo.due_at t) as [s|]; [|lia].
  specialize (Hv s eq_refl).
  rewrite (newDate_valid_truthy s Hv).
  destruct Hv as [x Hx]. rewrite Hx. simpl.
  apply sumList_alter. pose proof (WeekDay_range (LocalTime E x)). lia.
Qed.

Lemma dayOfWeek_fold (todos : list TodoSummaryInput) (dist : list Z) :
  length dist = 7%nat -> dueTimesValid E todos ->
  sumList (fold_left (dayOfWeekStep E) todos dist)
  = sumList dist + countIf hasDue todos
  /\ length (fold_left (dayOfWeekStep E) todos dist) = 7%nat.
Proof.
  revert dist. induction todos as [|t todos IH]; intros dist Hlen Hv.
  - unfold countIf. simpl. split; [lia|exact Hlen].
  - simpl fold_left.
    destruct (IH (dayOfWeekStep E dist t)) as [IH1 IH2].
    + rewrite dayOfWeekStep_length. exact Hlen.
    + intros t' s Hin. apply Hv. right. exact Hin.
    + split; [|exact IH2].
      rewrite IH1, dayOfWeekStep_sum, countIf_cons.
      * lia.
      * exact Hlen.
      * intros s. apply Hv. left. reflexivity.
Qed.

(** Todos without a due time leave both loops as they found them. *)
Lemma timeSlot_ignores_null (todos : list TodoSummaryInput) (d : TimeSlotDist.t) :
  fold_left (timeSlotStep E) (List.filter hasDue todos) d
  = fold_left (timeSlotStep E) todos d.
Proof.
  revert d. induction todos as [|t todos IH]; intros d; [reflexivity|].
  simpl. unfold hasDue at 1. destruct (Todo.due_at t) as [s|] eqn:Hd.
  - simpl. apply IH.
  - rewrite IH. f_equal. unfold timeSlotStep. rewrite Hd. reflexivity.
Qed.

Lemma dayOfWeek_ignores_null (todos : list TodoSummaryInput) (dist : list Z) :
  fold_left (dayOfWeekStep E) (List.filter hasDue todos) dist
  = fold_left (dayOfWeekStep E) todos dist.
Proof.
  revert dist. induction todos as [|t todos IH]; intros dist; [reflexivity|].
  simpl. unfold hasDue at 1. destruct (Todo.due_at t) as [s|] eqn:Hd.
  - simpl. apply IH.
  - rewrite IH. f_equal. unfold dayOfWeekStep. rewrite Hd. reflexivity.
Qed.

(** C10. When every due time that is not null parses to a valid
    instant, the four time-of-day slots add up to the number of todos
    with a due time, and so do the seven entries of the day-of-week
    distribution; todos whose due time is null take part in neither (the
    distributions are those of the list without them). *)
Theorem computeStats_distributions (todos : list TodoSummaryInput)
    (nowStr : jsstring) :
  dueTimesValid E todos ->
  let st := computeStats E todos nowStr in
  let st' := computeStats E (List.filter hasDue todos) nowStr in
  TimeSlotDist.morning (timeSlotDist st) + TimeSlotDist.afternoon (timeSlotDist st)
  + TimeSlotDist.evening (timeSlotDist st) + TimeSlotDist.night (timeSlotDist st)
  = countIf hasDue todos
  /\ length (dayOfWeekDist st) = 7%nat
  /\ sumList (dayOfWeekDist st) = countIf hasDue todos
  /\ timeSlotDist st' = timeSlotDist st
  /\ dayOfWeekDist st' = dayOfWeekDist st.
Proof.
  intros Hv st st'. subst st st'.
  cbn [computeStats timeSlotDist dayOfWeekDist].
  split; [|split; [|split; [|split]]].
  - pose proof (timeSlot_fold todos
                  {| TimeSlotDist.morning := 0; TimeSlotDist.afternoon := 0;
                     TimeSlotDist.evening := 0; TimeSlotDist.night := 0 |}) as H.
    unfold slotSum in H at 1. rewrite H. unfold slotSum.
    cbn [TimeSlotDist.morning TimeSlotDist.afternoon TimeSlotDist.evening
         TimeSlotDist.night].
    replace (countIf hasDue todos)
      with (countIf (fun t => truthy (Todo.due_at t)) todos); [lia|].
    unfold countIf. f_equal. f_equal. apply filter_ext_in. intros t Hin.
    unfold hasDue. destruct (Todo.due_at t) as [s|] eqn:Hd; [|reflexivity].
    apply newDate_valid_truthy. eapply Hv; eauto.
  - apply dayOfWeek_fold; [reflexivity|exact Hv].
  - destruct (dayOfWeek_fold todos (List.repeat 0 7) eq_refl Hv) as [H _].
    rewrite H. simpl. lia.
  - apply timeSlot_ignores_null.
  - apply dayOfWeek_ignores_null.
Qed.

End WithEnv.

(** Scenario A has six todos with a due time; all six parse. *)
Lemma computeStats_distributions_witness :
  let st := computeStats (isoEnv 0) ScenarioA.todos ScenarioA.nowStr in
  dueTimesValid (isoEnv 0) ScenarioA.todos
  /\ TimeSlotDist.morning (timeSlotDist st) + TimeSlotDist.afternoon (timeSlotDist st)
     + TimeSlotDist.evening (timeSlotDist st) + TimeSlotDist.night (timeSlotDist st)
     = 6
  /\ sumList (dayOfWeekDist st) = 6.
Proof.
  intros st.
  assert (Hv : dueTimesValid (isoEnv 0) ScenarioA.todos).
  { intros t s Hin Hs. simpl in Hin.
    repeat (destruct Hin as [<-|Hin]; [simpl in Hs; inversion Hs; subst;
                                      vm_compute; eexists; reflexivity|]);
    try (destruct Hin as [<-|Hin]; [simpl in Hs; discriminate|]).
    all: try contradiction. }
  split; [exact Hv|].
  destruct (computeStats_distributions (isoEnv 0) ScenarioA.todos
              ScenarioA.nowStr Hv) as (H1 & _ & H3 & _).
  fold st in H1, H3.
  split.
  - rewrite H1. vm_compute. reflexivity.
  - rewrite H3. vm_compute. reflexivity.
Defined.

End SummarizeDistributions.

(** ** White space, [trim] and the last-word pattern *)

Module StringFacts.
Import JsString StringSpec.

Lemma leadingSpaces_trimStart (s : jsstring) :
  s = leadingSpaces s ++ trimStart s.
Proof.
  induction s as [|c r IH]; [reflexivity|]. simpl.
  destruct (isSpace c); [simpl; f_equal; exact IH|reflexivity].
Qed.

Lemma leadingSpaces_allSpace (s : jsstring) : allSpace (leadingSpaces s) = true.
Proof.
  induction s as [|c r IH]; [reflexivity|]. simpl.
  destruct (isSpace c) eqn:Hc; [simpl; rewrite Hc; exact IH|reflexivity].
Qed.

Lemma trimStart_startsClean (s : jsstring) : startsClean (trimStart s) = true.
Proof.
  induction s as [|c r IH]; [reflexivity|]. simpl.
  destruct (isSpace c) eqn:Hc; [exact IH|simpl; rewrite Hc; reflexivity].
Qed.

Lemma trimStart_id (s : jsstring) : startsClean s = true -> trimStart s = s.
Proof.
  destruct s as [|c r]; [reflexivity|]. simpl.
  destruct (isSpace c); [discriminate|reflexivity].
Qed.

Lemma endsClean_cons (c : Z) (r : jsstring) :
  endsClean (c :: r) = match r with [] => negb (isSpace c) | _ => endsClean r end.
Proof.
  unfold endsClean. simpl. destruct r as [|d r']; [reflexivity|].
  destruct (rev (d :: r')) as [|x l] eqn:Hr.
  - apply (f_equal (@length Z)) in Hr. rewrite length_rev in Hr. discriminate.
  - reflexivity.
Qed.

Lemma trimEnd_nil_iff (s : jsstring) : trimEnd s = [] <-> allSpace s = true.
Proof.
  induction s as [|c r IH]; [split; reflexivity|]. simpl.
  destruct (trimEnd r) as [|d r'] eqn:Hr.
  - destruct (isSpace c); simpl.
    + split; intros _; [apply IH; reflexivity|reflexivity].
    + split; discriminate.
  - split; [discriminate|]. intros H. apply andb_prop in H as [_ H].
    apply IH in H. discriminate.
Qed.

Lemma trimEnd_endsClean (s : jsstring) : endsClean (trimEnd s) = true.
Proof.
  induction s as [|c r IH]; [reflexivity|]. simpl.
  destruct (trimEnd r) as [|d r'] eqn:Hr.
  - destruct (isSpace c) eqn:Hc; [reflexivity|].
    unfold endsClean. simpl. rewrite Hc. reflexivity.
  - rewrite endsClean_cons. exact IH.
Qed.

Lemma trimEnd_id (s : jsstring) : endsClean s = true -> trimEnd s = s.
Proof.
  induction s as [|c r IH]; [reflexivity|]. rewrite endsClean_cons. simpl.
  destruct r as [|d r'].
  - simpl. intros H. destruct (isSpace c); [discriminate|reflexivity].
  - intros H. rewrite (IH H). reflexivity.
Qed.

Lemma trimEnd_startsClean (s : jsstring) :
  startsClean s = true -> startsClean (trimEnd s) = true.
Proof.
  destruct s as [|c r]; [reflexivity|]. simpl. intros Hc.
  destruct (isSpace c) eqn:Hs; [discriminate|].
  destruct (trimEnd r); simpl; rewrite Hs; reflexivity.
Qed.

Lemma trim_clean (s : jsstring) :
  startsClean (trim s) = true /\ endsClean (trim s) = true.
Proof.
  unfold trim. split.
  - apply trimEnd_startsClean, trimStart_startsClean.
  - apply trimEnd_endsClean.
Qed.

Lemma trim_id (s : jsstring) :
  startsClean s = true -> endsClean s = true -> trim s = s.
Proof.
  intros H1 H2. unfold trim. rewrite (trimStart_id s H1). apply trimEnd_id, H2.
Qed.

Lemma trim_idempotent (s : jsstring) : trim (trim s) = trim s.
Proof. apply trim_id; apply trim_clean. Qed.

Lemma trimStart_length (s : jsstring) : (length (trimStart s) <= length s)%nat.
Proof.
  induction s as [|c r IH]; [reflexivity|]. simpl.
  destruct (isSpace c); simpl; lia.
Qed.

Lemma trimEnd_length (s : jsstring) : (length (trimEnd s) <= length s)%nat.
Proof.
  induction s as [|c r IH]; [reflexivity|]. simpl.
  destruct (trimEnd r); [destruct (isSpace c)|]; simpl in *; lia.
Qed.

Lemma trim_length (s : jsstring) : (length (trim s) <= length s)%nat.
Proof.
  unfold trim. pose proof (trimEnd_length (trimStart s)).
  pose proof (trimStart_length s). lia.
Qed.

Lemma endsClean_app (a b : jsstring) :
  b <> [] -> endsClean (a ++ b) = endsClean b.
Proof.
  intros Hb. unfold endsClean. rewrite rev_app_distr.
  destruct (rev b) as [|x l] eqn:Hr; [|reflexivity].
  apply (f_equal (@length Z)) in Hr. rewrite length_rev in Hr.
  destruct b; [contradiction|discriminate].
Qed.

Lemma Forall_trimStart (P : Z -> Prop) (s : jsstring) :
  Forall P s -> Forall P (trimStart s).
Proof.
  induction 1 as [|c r Hc Hr IH]; [constructor|]. simpl.
  destruct (isSpace c); [exact IH|constructor; assumption].
Qed.

Lemma Forall_trimEnd (P : Z -> Prop) (s : jsstring) :
  Forall P s -> Forall P (trimEnd s).
Proof.
  induction 1 as [|c r Hc Hr IH]; [constructor|]. simpl.
  destruct (trimEnd r) as [|d r'].
  - destruct (isSpace c); constructor; [assumption|constructor].
  - constructor; assumption.
Qed.

Lemma Forall_trim (P : Z -> Prop) (s : jsstring) :
  Forall P s -> Forall P (trim s).
Proof. intros H. apply Forall_trimEnd, Forall_trimStart, H. Qed.

End StringFacts.

(** ** The title repair of [postprocess] *)

Module TitleRepair.
Import JsString Route ParseTodo StringSpec ParseSpec StringFacts.

Lemma noSpace_startsClean (s : jsstring) : noSpace s = true -> startsClean s = true.
Proof.
  destruct s as [|c r]; [reflexivity|]. simpl. intros H.
  apply andb_prop in H as [H _]. exact H.
Qed.

Lemma noSpace_endsClean (s : jsstring) : noSpace s = true -> endsClean s = true.
Proof.
  induction s as [|c r IH]; [reflexivity|]. rewrite endsClean_cons. simpl.
  intros H. apply andb_prop in H as [Hc Hr].
  destruct r; [exact Hc|apply IH, Hr].
Qed.

Lemma trimStart_spaces_word (sp wd : jsstring) :
  allSpace sp = true -> noSpace wd = true -> trimStart (sp ++ wd) = wd.
Proof.
  intros Hsp Hwd. induction sp as [|c r IH]; simpl.
  - apply trimStart_id, noSpace_startsClean, Hwd.
  - simpl in Hsp. apply andb_prop in Hsp as [Hc Hr]. rewrite Hc. apply IH, Hr.
Qed.

Lemma noSpace_cons (c : Z) (r : jsstring) :
  noSpace (c :: r) = negb (isSpace c) && noSpace r.
Proof. reflexivity. Qed.

Lemma matchesLastWord_cons (c : Z) (r : jsstring) :
  matchesLastWord (c :: r) = isSpace c && noSpace (trimStart r).
Proof. reflexivity. Qed.

Lemma dropLastWord_cons (c : Z) (r : jsstring) :
  dropLastWord (c :: r)
  = if matchesLastWord (c :: r) then [] else c :: dropLastWord r.
Proof. reflexivity. Qed.

Lemma dropLastWord_noSpace (w : jsstring) :
  noSpace w = true -> dropLastWord w = w.
Proof.
  induction w as [|c r IH]; [reflexivity|]. intros H.
  rewrite noSpace_cons in H. apply andb_prop in H as [Hc Hr].
  rewrite dropLastWord_cons, matchesLastWord_cons.
  apply negb_true_iff in Hc. rewrite Hc. simpl. rewrite (IH Hr).
  reflexivity.
Qed.

(** Where the pattern matches: [w] is cut at the start of its last run of
    white space. *)
Lemma dropLastWord_split (w : jsstring) :
  noSpace w = false ->
  exists pre sp wd,
    w = pre ++ sp ++ wd /\ sp <> [] /\ allSpace sp = true
    /\ noSpace wd = true /\ endsClean pre = true /\ dropLastWord w = pre.
Proof.
  induction w as [|c r IH]; [discriminate|]. intros Hw.
  rewrite dropLastWord_cons.
  destruct (matchesLastWord (c :: r)) eqn:Hm.
  - rewrite matchesLastWord_cons in Hm. apply andb_prop in Hm as [Hc Hr].
    exists [], (c :: leadingSpaces r), (trimStart r).
    split; [simpl; f_equal; apply leadingSpaces_trimStart|].
    split; [discriminate|].
    split; [simpl; rewrite Hc; apply leadingSpaces_allSpace|].
    split; [exact Hr|]. split; reflexivity.
  - rewrite matchesLastWord_cons in Hm. rewrite noSpace_cons in Hw.
    assert (Hr : noSpace r = false).
    { destruct (noSpace r) eqn:Hn; [|reflexivity]. exfalso.
      rewrite andb_true_r in Hw. apply negb_false_iff in Hw.
      rewrite Hw in Hm.
      rewrite (trimStart_id r (noSpace_startsClean r Hn)), Hn in Hm.
      discriminate. }
    destruct (IH Hr) as (pre & sp & wd & Heq & Hsp & Hall & Hwd & Hpre & Hd).
    exists (c :: pre), sp, wd.
    split; [simpl; f_equal; exact Heq|].
    split; [exact Hsp|]. split; [exact Hall|]. split; [exact Hwd|].
    split; [|rewrite Hd; reflexivity].
    rewrite endsClean_cons. destruct pre as [|d pre']; [|exact Hpre].
    destruct (isSpace c) eqn:Hc; [|reflexivity]. exfalso.
    simpl in Heq. subst r.
    rewrite (trimStart_spaces_word sp wd Hall Hwd), Hwd in Hm.
    discriminate.
Qed.

Lemma startsClean_firstn (n : nat) (s : jsstring) :
  startsClean s = true -> startsClean (firstn n s) = true.
Proof. destruct s, n; simpl; auto. Qed.

Lemma repairTitle_null : repairTitle None = defaultTitle.
Proof. reflexivity. Qed.

Lemma repairTitle_unfold (raw : jsstring) :
  repairTitle (Some raw)
  = let title := match trim raw with [] => defaultTitle | _ => trim raw end in
    if len title <? 2 then defaultTitle
    else if 100 <? len title
         then trim (dropLastWord (firstn 100 title)) ++ ellipsis
         else title.
Proof.
  unfold repairTitle, trimOrNull.
  change (trim <$> Some raw) with (Some (trim raw)).
  destruct (trim raw); reflexivity.
Qed.

Lemma repairTitle_short (raw : jsstring) :
  len (trim raw) < 2 -> repairTitle (Some raw) = defaultTitle.
Proof.
  rewrite repairTitle_unfold. cbv zeta.
  destruct (trim raw) as [|c r] eqn:Ht; intros H.
  - reflexivity.
  - destruct (Z.ltb_spec (len (c :: r)) 2); [reflexivity|lia].
Qed.

Lemma repairTitle_keeps (raw : jsstring) :
  2 <= len (trim raw) <= 100 -> repairTitle (Some raw) = trim raw.
Proof.
  rewrite repairTitle_unfold. cbv zeta.
  destruct (trim raw) as [|c r] eqn:Ht; intros H.
  - unfold len in H. simpl in H. lia.
  - destruct (Z.ltb_spec (len (c :: r)) 2); [lia|].
    destruct (Z.ltb_spec 100 (len (c :: r))); [lia|reflexivity].
Qed.

Lemma repairTitle_long (raw : jsstring) :
  100 < len (trim raw) ->
  repairTitle (Some raw)
  = trim (dropLastWord (firstn 100 (trim raw))) ++ ellipsis.
Proof.
  rewrite repairTitle_unfold. cbv zeta.
  destruct (trim raw) as [|c r] eqn:Ht; intros H.
  - unfold len in H. simpl in H. lia.
  - destruct (Z.ltb_spec (len (c :: r)) 2); [lia|].
    destruct (Z.ltb_spec 100 (len (c :: r))); [reflexivity|lia].
Qed.

(** C7 (as the code has it).  The title is trimmed.  A trimmed title
    shorter than 2 gives the placeholder; one of 2 to 100 code units is
    returned unchanged; a longer one is cut to its first 100 code units,
    those are cut back to the start of their last run of white space (or
    kept whole when they contain none), and the ellipsis is appended: the
    result has at most 101 code units and ends in the ellipsis. *)
Theorem repairTitle_spec (raw : jsstring) :
  let t := trim raw in
  let w := firstn 100 t in
  (len t < 2 -> repairTitle (Some raw) = defaultTitle)
  /\ (2 <= len t <= 100 -> repairTitle (Some raw) = t)
  /\ (100 < len t ->
        (noSpace w = true -> repairTitle (Some raw) = w ++ ellipsis)
        /\ (noSpace w = false ->
              exists pre sp wd,
                w = pre ++ sp ++ wd /\ pre <> [] /\ sp <> []
                /\ allSpace sp = true /\ noSpace wd = true
                /\ endsClean pre = true
                /\ repairTitle (Some raw) = pre ++ ellipsis)
        /\ len (repairTitle (Some raw)) <= 101
        /\ exists body, repairTitle (Some raw) = body ++ ellipsis).
Proof.
  intros t w. subst t w.
  split; [apply repairTitle_short|]. split; [apply repairTitle_keeps|].
  intros Hlen. rewrite (repairTitle_long raw Hlen).
  destruct (trim_clean raw) as [Hs _].
  set (t := trim raw) in *. set (w := firstn 100 t).
  assert (Hw : startsClean w = true) by (apply startsClean_firstn, Hs).
  assert (Hwl : length w = 100%nat).
  { subst w. rewrite length_firstn. unfold len in Hlen. lia. }
  assert (Hcases :
    (noSpace w = true /\ trim (dropLastWord w) = w)
    \/ (noSpace w = false /\
        exists pre sp wd,
          w = pre ++ sp ++ wd /\ pre <> [] /\ sp <> []
          /\ allSpace sp = true /\ noSpace wd = true /\ endsClean pre = true
          /\ trim (dropLastWord w) = pre)).
  { destruct (noSpace w) eqn:Hn.
    - left. split; [reflexivity|]. rewrite (dropLastWord_noSpace w Hn).
      apply trim_id; [exact Hw|apply noSpace_endsClean, Hn].
    - right. split; [reflexivity|].
      destruct (dropLastWord_split w Hn)
        as (pre & sp & wd & Heq & Hsp & Hall & Hwd & Hpre & Hd).
      assert (Hne : pre <> []).
      { intros ->. simpl in Heq. rewrite Heq in Hw.
        destruct sp as [|c sp']; [contradiction|].
        simpl in Hall, Hw. apply andb_prop in Hall as [Hc _].
        rewrite Hc in Hw. discriminate. }
      exists pre, sp, wd. repeat split; try assumption.
      rewrite Hd. apply trim_id; [|exact Hpre].
      rewrite Heq in Hw. destruct pre; [contradiction|exact Hw]. }
  destruct Hcases as [[Hn Ht]|[Hn (pre & sp & wd & Heq & Hne & Hsp & Hall & Hwd & Hpre & Ht)]].
  - rewrite Ht. split; [reflexivity|]. split; [rewrite Hn; discriminate|].
    split; [|exists w; reflexivity].
    unfold len. rewrite length_app, Hwl. simpl. lia.
  - rewrite Ht. split; [rewrite Hn; discriminate|].
    split; [intros _; exists pre, sp, wd; repeat split; assumption|].
    split; [|exists pre; reflexivity].
    unfold len. rewrite length_app. simpl.
    assert (length pre <= length w)%nat.
    { rewrite Heq, length_app. lia. }
    lia.
Qed.

(** C7 as the specification states it fails on [longTitle]: a whole word ends at
    position 100, so the specification keeps all 100 code units, but the
    pattern takes the word that ends there for a partial one and cuts
    back to the first space. *)
Lemma repairTitle_not_last_boundary :
  len (trim longTitle) = 105
  /\ wordEndsAt (trim longTitle) 100 = true
  /\ truncateAtWordBoundary (trim longTitle)
     = js "x " ++ List.repeat 97 98 ++ ellipsis
  /\ repairTitle (Some longTitle) = js "x" ++ ellipsis
  /\ repairTitle (Some longTitle) <> truncateAtWordBoundary (trim longTitle).
Proof.
  vm_compute. repeat split; try reflexivity. discriminate.
Qed.

(** A raw title of one letter, one of 150 letters without a space, and
    [longTitle]. *)
Lemma repairTitle_spec_witness :
  repairTitle (Some (js " a ")) = defaultTitle
  /\ repairTitle (Some (js "buy milk")) = js "buy milk"
  /\ repairTitle (Some (List.repeat 97 150)) = List.repeat 97 100 ++ ellipsis
  /\ len (repairTitle (Some longTitle)) <= 101.
Proof.
  destruct (repairTitle_spec (js " a ")) as (H1 & _).
  destruct (repairTitle_spec (js "buy milk")) as (_ & H2 & _).
  destruct (repairTitle_spec (List.repeat 97 150)) as (_ & _ & H3).
  destruct (repairTitle_spec longTitle) as (_ & _ & H4).
  split; [apply H1; vm_compute; reflexivity|].
  split; [apply H2; vm_compute; split; discriminate|].
  split.
  - destruct H3 as (H3 & _); [vm_compute; reflexivity|].
    apply H3. vm_compute. reflexivity.
  - destruct H4 as (_ & _ & H4 & _); [vm_compute; reflexivity|]. exact H4.
Defined.

End TitleRepair.

(** ** Normalization: [preprocessText] *)

Module Normalization.
Import JsString Route ParseTodo StringSpec ParseSpec StringFacts.



Lemma collapsed_weaken (b : bool) (s : jsstring) :
  collapsedFrom b s = true -> collapsedFrom false s = true.
Proof.
  destruct s as [|c r]; [reflexivity|]. simpl.
  destruct (isSpace c); [|auto]. intros H.
  apply andb_prop in H as [H Hr]. apply andb_prop in H as [_ Hc].
  rewrite Hc, Hr. reflexivity.
Qed.

Lemma collapsed_trimStart (b : bool) (s : jsstring) :
  collapsedFrom b s = true -> collapsedFrom false (trimStart s) = true.
Proof.
  revert b. induction s as [|c r IH]; intros b H; [reflexivity|].
  simpl trimStart. destruct (isSpace c) eqn:Hc.
  - simpl in H. rewrite Hc in H. apply andb_prop in H as [_ Hr].
    apply (IH true Hr).
  - apply (collapsed_weaken b). exact H.
Qed.

Lemma collapsed_trimEnd (b : bool) (s : jsstring) :
  collapsedFrom b s = true -> collapsedFrom b (trimEnd s) = true.
Proof.
  revert b. induction s as [|c r IH]; intros b H; [reflexivity|].
  simpl in H. simpl trimEnd.
  destruct (isSpace c) eqn:Hc.
  - apply andb_prop in H as [H Hr]. specialize (IH true Hr).
    destruct (trimEnd r) as [|d r']; [reflexivity|].
    simpl. rewrite Hc, H. exact IH.
  - specialize (IH false H).
    destruct (trimEnd r) as [|d r']; simpl; rewrite Hc; [reflexivity|exact IH].
Qed.

Lemma collapsed_trim (s : jsstring) :
  collapsedFrom false s = true -> collapsedFrom false (trim s) = true.
Proof.
  intros H. unfold trim. apply collapsed_trimEnd.
  apply (collapsed_trimStart false). exact H.
Qed.

Lemma toHalfwidth_space (c : Z) : isSpace (toHalfwidth c) = isSpace c.
Proof.
  unfold toHalfwidth.
  destruct ((65281 <=? c) && (c <=? 65374)) eqn:H; [|reflexivity].
  assert (H1 : isSpace c = false) by (unfold isSpace; lia).
  assert (H2 : isSpace (c - 65248) = false) by (unfold isSpace; lia).
  rewrite H1, H2. reflexivity.
Qed.

Lemma toHalfwidth_32 : toHalfwidth 32 = 32.
Proof. reflexivity. Qed.




(** *** The steps that remove nothing *)



Lemma lowSurrogate_plain (lo : Z) :
  isLowSurrogate lo = true -> isEmoji lo = false /\ isHighSurrogate lo = false.
Proof. unfold isLowSurrogate, isEmoji, isHighSurrogate. lia. Qed.

Lemma removeEmoji_unfold (c : Z) (r : jsstring) :
  removeEmoji (c :: r)
  = match r with
    | lo :: r' =>
        if isHighSurrogate c && isLowSurrogate lo then
          if isEmoji (codePoint c lo) then removeEmoji r'
          else c :: lo :: removeEmoji r'
        else if isEmoji c then removeEmoji r
        else c :: removeEmoji r
    | [] => if isEmoji c then [] else [c]
    end.
Proof. destruct r; reflexivity. Qed.



(** *** What the steps do to a predicate on code units *)













(** So does an emoji between two spaces: removing it leaves two spaces,
    which only the next pass collapses. *)
Example preprocessText_emoji_between_spaces :
  let x := js "a " ++ [55356; 57225] ++ js " b" in
  (validateInput (Some x) 0).1 = valid
  /\ preprocessText x = js "a  b"
  /\ preprocessText (preprocessText x) = js "a b".
Proof. vm_compute. repeat split; reflexivity. Qed.

End Normalization.

(** ** The calendar *)

Module DateFacts.
Import JsString JsDate Automation.

Lemma step4 (y : Z) : (y - 1968) / 4 - (y - 1969) / 4 = if y mod 4 =? 0 then 1 else 0.
Proof. destruct (Z.eqb_spec (y mod 4) 0); div_lia. Qed.

Lemma step100 (y : Z) :
  (y - 1900) / 100 - (y - 1901) / 100 = if y mod 100 =? 0 then 1 else 0.
Proof. destruct (Z.eqb_spec (y mod 100) 0); div_lia. Qed.

Lemma step400 (y : Z) :
  (y - 1600) / 400 - (y - 1601) / 400 = if y mod 400 =? 0 then 1 else 0.
Proof. destruct (Z.eqb_spec (y mod 400) 0); div_lia. Qed.

Lemma mod_100_4 (y : Z) : y mod 100 = 0 -> y mod 4 = 0.
Proof. div_lia. Qed.

Lemma mod_400_100 (y : Z) : y mod 400 = 0 -> y mod 100 = 0.
Proof. div_lia. Qed.

Lemma DayFromYear_succ (y : Z) : DayFromYear (y + 1) = DayFromYear y + DaysInYear y.
Proof.
  unfold DayFromYear, DaysInYear, isLeap.
  replace (y + 1 - 1970) with (y - 1970 + 1) by lia.
  replace (y + 1 - 1969) with (y - 1968) by lia.
  replace (y + 1 - 1901) with (y - 1900) by lia.
  replace (y + 1 - 1601) with (y - 1600) by lia.
  pose proof (step4 y) as H4. pose proof (step100 y) as H100.
  pose proof (step400 y) as H400.
  pose proof (mod_100_4 y). pose proof (mod_400_100 y).
  destruct (Z.eqb_spec (y mod 4) 0); destruct (Z.eqb_spec (y mod 100) 0);
    destruct (Z.eqb_spec (y mod 400) 0); cbn [andb orb negb]; lia.
Qed.

Lemma DayFromYear_period (y q : Z) :
  DayFromYear (y + 400 * q) = DayFromYear y + 146097 * q.
Proof. unfold DayFromYear. div_lia. Qed.

Lemma DaysInYear_range (y : Z) : 365 <= DaysInYear y <= 366.
Proof. unfold DaysInYear. destruct (isLeap y); lia. Qed.

Lemma DayFromYear_lt (y : Z) : DayFromYear y < DayFromYear (y + 1).
Proof. rewrite DayFromYear_succ. pose proof (DaysInYear_range y). lia. Qed.

Lemma DayFromYear_mono (y1 y2 : Z) : y1 <= y2 -> DayFromYear y1 <= DayFromYear y2.
Proof.
  intros H. replace y2 with (y1 + Z.of_nat (Z.to_nat (y2 - y1))) by lia.
  induction (Z.to_nat (y2 - y1)) as [|n IH].
  - rewrite Z.add_0_r. lia.
  - replace (y1 + Z.of_nat (S n)) with (y1 + Z.of_nat n + 1) by lia.
    pose proof (DayFromYear_lt (y1 + Z.of_nat n)). lia.
Qed.


(** Day number of the first day of the year [j] years after 1970. *)
Lemma DayFromYear_bounds (j : nat) :
  365 * Z.of_nat j <= DayFromYear (1970 + Z.of_nat j) <= 366 * Z.of_nat j.
Proof.
  induction j as [|j IH].
  - vm_compute. split; discriminate.
  - replace (1970 + Z.of_nat (S j)) with (1970 + Z.of_nat j + 1) by lia.
    rewrite DayFromYear_succ.
    pose proof (DaysInYear_range (1970 + Z.of_nat j)). lia.
Qed.

(** Some year of the period contains the day [r]. *)
Lemma year_exists (r : Z) (n : nat) :
  0 <= r < DayFromYear (1970 + Z.of_nat n) ->
  exists k : nat, (k < n)%nat
    /\ DayFromYear (1970 + Z.of_nat k) <= r < DayFromYear (1970 + Z.of_nat k + 1).
Proof.
  induction n as [|n IH]; intros H.
  - change (DayFromYear (1970 + Z.of_nat 0)) with 0 in H. lia.
  - destruct (Z_lt_le_dec r (DayFromYear (1970 + Z.of_nat n))) as [Hlt|Hge].
    + destruct IH as (k & Hk & Hr); [lia|]. exists k. split; [lia|exact Hr].
    + exists n. split; [lia|]. split; [exact Hge|].
      replace (1970 + Z.of_nat n + 1) with (1970 + Z.of_nat (S n)) by lia.
      apply H.
Qed.

Lemma YearFromDay_in_period (r : Z) :
  0 <= r < 146097 ->
  DayFromYear (YearFromDay r) <= r < DayFromYear (YearFromDay r + 1).
Proof.
  intros Hr.
  destruct (year_exists r 400) as (k & Hk & Hlo & Hhi).
  { change (DayFromYear (1970 + Z.of_nat 400)) with 146097. exact Hr. }
  pose proof (DayFromYear_bounds k) as Bk.
  pose proof (DayFromYear_bounds (S k)) as Bk1.
  replace (1970 + Z.of_nat (S k)) with (1970 + Z.of_nat k + 1) in Bk1 by lia.
  assert (Hq : r / 146097 = 0) by div_lia.
  assert (Hm : r mod 146097 = r) by div_lia.
  assert (Hk0 : r / 366 <= Z.of_nat k <= r / 366 + 2) by div_lia.
  unfold YearFromDay. rewrite Hq, Hm. cbv zeta.
  set (k0 := r / 366) in *.
  assert (Hyear :
    (if DayFromYear (1970 + k0 + 2) <=? r then k0 + 2
     else if DayFromYear (1970 + k0 + 1) <=? r then k0 + 1 else k0)
    = Z.of_nat k).
  { destruct (Z.leb_spec (DayFromYear (1970 + k0 + 2)) r) as [H2|H2].
    - destruct (Z.eq_dec (Z.of_nat k) (k0 + 2)) as [E|E]; [lia|]. exfalso.
      pose proof (DayFromYear_mono (1970 + Z.of_nat k + 1) (1970 + k0 + 2) ltac:(lia)).
      lia.
    - destruct (Z.leb_spec (DayFromYear (1970 + k0 + 1)) r) as [H1|H1].
      + destruct (Z.eq_dec (Z.of_nat k) (k0 + 1)) as [E|E]; [lia|]. exfalso.
        destruct (Z.eq_dec (Z.of_nat k) k0) as [E0|E0].
        * rewrite E0 in Hhi. lia.
        * assert (Z.of_nat k = k0 + 2) by lia.
          replace (1970 + Z.of_nat k) with (1970 + k0 + 2) in Hlo by lia. lia.
      + destruct (Z.eq_dec (Z.of_nat k) k0) as [E0|E0]; [lia|]. exfalso.
        pose proof (DayFromYear_mono (1970 + k0 + 1) (1970 + Z.of_nat k) ltac:(lia)).
        lia. }
  rewrite Hyear.
  replace (1970 + 400 * 0 + Z.of_nat k) with (1970 + Z.of_nat k) by lia.
  split; assumption.
Qed.

Lemma YearFromDay_shift (d : Z) :
  YearFromDay d = YearFromDay (d mod 146097) + 400 * (d / 146097).
Proof.
  unfold YearFromDay.
  assert (H1 : (d mod 146097) / 146097 = 0) by div_lia.
  assert (H2 : (d mod 146097) mod 146097 = d mod 146097) by div_lia.
  rewrite H1, H2. cbv zeta. lia.
Qed.

(** [YearFromDay d] is the year whose days include [d]. *)
Lemma YearFromDay_spec (d : Z) :
  DayFromYear (YearFromDay d) <= d < DayFromYear (YearFromDay d + 1).
Proof.
  assert (Hr : 0 <= d mod 146097 < 146097) by div_lia.
  pose proof (YearFromDay_in_period _ Hr) as [Ha Hb].
  rewrite (YearFromDay_shift d).
  replace (YearFromDay (d mod 146097) + 400 * (d / 146097) + 1)
    with (YearFromDay (d mod 146097) + 1 + 400 * (d / 146097)) by lia.
  rewrite !DayFromYear_period.
  assert (d = 146097 * (d / 146097) + d mod 146097) by div_lia.
  lia.
Qed.

Lemma YearFromDay_unique (d y : Z) :
  DayFromYear y <= d < DayFromYear (y + 1) -> YearFromDay d = y.
Proof.
  intros H. pose proof (YearFromDay_spec d) as Hs.
  destruct (Z.lt_trichotomy (YearFromDay d) y) as [Hlt|[Heq|Hgt]].
  - pose proof (DayFromYear_mono (YearFromDay d + 1) y ltac:(lia)). lia.
  - exact Heq.
  - pose proof (DayFromYear_mono (y + 1) (YearFromDay d) ltac:(lia)). lia.
Qed.


Lemma TimeWithinDay_range (t : Z) : 0 <= TimeWithinDay t < msPerDay.
Proof. unfold TimeWithinDay, msPerDay. div_lia. Qed.

Lemma Day_TimeWithinDay (t : Z) : t = MakeDate (Day t) (TimeWithinDay t).
Proof. unfold MakeDate, Day, TimeWithinDay, msPerDay. div_lia. Qed.

Lemma Day_MakeDate (day time : Z) :
  0 <= time < msPerDay -> Day (MakeDate day time) = day.
Proof. unfold Day, MakeDate, msPerDay. intros H. div_lia. Qed.

Lemma TimeWithinDay_MakeDate (day time : Z) :
  0 <= time < msPerDay -> TimeWithinDay (MakeDate day time) = time.
Proof. unfold TimeWithinDay, MakeDate, msPerDay. intros H. div_lia. Qed.



Lemma MinFromTime_range (t : Z) : 0 <= MinFromTime t < 60.
Proof. unfold MinFromTime. apply Z.mod_pos_bound. lia. Qed.

Lemma HourFromTime_bounds (t : Z) : 0 <= HourFromTime t < 24.
Proof. unfold HourFromTime. apply Z.mod_pos_bound. lia. Qed.

Lemma leapDays_DaysInYear (t : Z) : DaysInYear (YearFromTime t) = 365 + leapDays t.
Proof. unfold DaysInYear, leapDays. destruct (isLeap (YearFromTime t)); lia. Qed.

Lemma DayWithinYear_range (t : Z) : 0 <= DayWithinYear t < 365 + leapDays t.
Proof.
  unfold DayWithinYear. rewrite <- leapDays_DaysInYear.
  pose proof (YearFromDay_spec (Day t)) as H. fold (YearFromTime t) in H.
  rewrite DayFromYear_succ in H. lia.
Qed.

Lemma leapDays_range (t : Z) : 0 <= leapDays t <= 1.
Proof. unfold leapDays. destruct (isLeap (YearFromTime t)); lia. Qed.

(** Month and date of a time value, and how they give back the day in
    its year. *)
Lemma month_date_spec (t : Z) :
  0 <= MonthFromTime t <= 11
  /\ 1 <= DateFromTime t <= 31
  /\ DayWithinYear t
     = monthStart (MonthFromTime t) (leapDays t) + DateFromTime t - 1.
Proof.
  pose proof (DayWithinYear_range t) as Hd. pose proof (leapDays_range t) as Hl.
  unfold DateFromTime, MonthFromTime.
  set (d := DayWithinYear t) in *. set (l := leapDays t) in *. cbv zeta.
  repeat match goal with
         | |- context [?a <? ?b] => destruct (Z.ltb_spec a b)
         end; unfold monthStart; simpl; lia.
Qed.

Lemma MakeDay_month (y m dt : Z) :
  0 <= m <= 11 ->
  MakeDay y m dt
  = DayFromYear y + monthStart m (if isLeap y then 1 else 0) + dt - 1.
Proof.
  intros Hm. unfold MakeDay.
  assert (H1 : m / 12 = 0) by div_lia. assert (H2 : m mod 12 = m) by div_lia.
  rewrite H1, H2, Z.add_0_r. reflexivity.
Qed.

Lemma monthStart_range (m l : Z) :
  0 <= m <= 11 -> 0 <= l <= 1 -> 0 <= monthStart m l <= 334 + l.
Proof.
  intros Hm Hl. unfold monthStart.
  repeat match goal with
         | |- context [?a <=? ?b] => destruct (Z.leb_spec a b)
         | |- context [?a =? ?b] => destruct (Z.eqb_spec a b)
         end; lia.
Qed.


(** The time value is rebuilt from its year, month, date and time of day. *)
Lemma MakeDate_roundtrip (t : Z) :
  MakeDate (MakeDay (YearFromTime t) (MonthFromTime t) (DateFromTime t))
           (TimeWithinDay t) = t.
Proof.
  destruct (month_date_spec t) as (Hm & Hd & Heq).
  rewrite (MakeDay_month _ _ _ Hm). fold (leapDays t). rewrite <- Z.add_sub_assoc.
  rewrite <- Z.add_assoc. rewrite Z.add_sub_assoc. rewrite <- Heq.
  unfold DayWithinYear.
  replace (DayFromYear (YearFromTime t) + (Day t - DayFromYear (YearFromTime t)))
    with (Day t) by lia.
  symmetry. apply Day_TimeWithinDay.
Qed.

(** Setting the year: the result lies in that year. *)
Lemma YearFromTime_MakeDay (y m dt time : Z) :
  0 <= m <= 11 -> 1 <= dt <= 31 -> 0 <= time < msPerDay ->
  YearFromTime (MakeDate (MakeDay y m dt) time) = y.
Proof.
  intros Hm Hd Ht. unfold YearFromTime. rewrite (Day_MakeDate _ _ Ht).
  apply YearFromDay_unique. rewrite (MakeDay_month _ _ _ Hm).
  rewrite DayFromYear_succ. unfold DaysInYear.
  destruct (isLeap y).
  - pose proof (monthStart_range m 1 Hm ltac:(lia)). lia.
  - pose proof (monthStart_range m 0 Hm ltac:(lia)). lia.
Qed.



Lemma LocalTime_UTC (E : DateEnv) (t : Z) : LocalTime E (UTC E t) = t.
Proof. unfold LocalTime, UTC. lia. Qed.

End DateFacts.

(** ** The due-date repair of [postprocess] *)

Module DueDate.
Import JsString JsDate Route ParseTodo StringSpec ParseSpec Automation DateFacts.

Lemma holdsFrom_spec (p : Z -> bool) (lo : Z) (n : nat) :
  holdsFrom p lo n = true ->
  forall x, lo <= x < lo + Z.of_nat n -> p x = true.
Proof.
  revert lo. induction n as [|k IH]; intros lo H x Hx; [lia|].
  simpl in H. apply andb_prop in H as [H0 Hk].
  destruct (Z.eq_dec x lo) as [->|Hne]; [exact H0|].
  apply (IH (lo + 1) Hk). lia.
Qed.

Lemma pad_table : holdsFrom (fun v => twoDigits (pad (Some v))) 0 (Z.to_nat 100) = true.
Proof. vm_compute. reflexivity. Qed.

Lemma pad_twoDigits (v : Z) : 0 <= v <= 99 -> twoDigits (pad (Some v)) = true.
Proof.
  intros H. apply (holdsFrom_spec _ _ _ pad_table). lia.
Qed.





Section WithEnv.
Variable E : DateEnv.

(** The serialized form: the local year unpadded, then [-MM-DDTHH:mm]. *)
Lemma serialize_shape (d : Z) :
  exists tail,
    serialize E (Some d)
    = numToString (Some (YearFromTime (LocalTime E d))) ++ tail
    /\ isDateTimeTail tail = true.
Proof.
  unfold serialize, getFullYear, getMonth, getDate, getHours, getMinutes.
  cbn [fmap option_fmap option_map].
  set (t := LocalTime E d).
  destruct (month_date_spec t) as (Hm & Hd & _).
  pose proof (HourFromTime_bounds t) as Hh. pose proof (MinFromTime_range t) as Hn.
  pose proof (pad_twoDigits (MonthFromTime t + 1) ltac:(lia)) as Pm.
  pose proof (pad_twoDigits (DateFromTime t) ltac:(lia)) as Pd.
  pose proof (pad_twoDigits (HourFromTime t) ltac:(lia)) as Ph.
  pose proof (pad_twoDigits (MinFromTime t) ltac:(lia)) as Pn.
  destruct (pad (Some (MonthFromTime t + 1))) as [|m1 [|m2 [|? ?]]]; try discriminate.
  destruct (pad (Some (DateFromTime t))) as [|d1 [|d2 [|? ?]]]; try discriminate.
  destruct (pad (Some (HourFromTime t))) as [|h1 [|h2 [|? ?]]]; try discriminate.
  destruct (pad (Some (MinFromTime t))) as [|n1 [|n2 [|? ?]]]; try discriminate.
  eexists. split; [reflexivity|].
  cbn [js list_ascii_of_string List.map app isDateTimeTail].
  change (Z.of_N (N_of_ascii "-")) with 45.
  change (Z.of_N (N_of_ascii "T")) with 84.
  change (Z.of_N (N_of_ascii ":")) with 58.
  cbn [isDateTimeTail]. rewrite Pm, Pd, Ph, Pn. reflexivity.
Qed.



Lemma repairDueAt_unfold (raw : jsstring) (p n : Z) :
  newDate E raw = Some p ->
  repairDueAt E (Some raw) (Some n)
  = Some (serialize E
            (if dateGt (Some p) (oneYearAfter E n)
             then setFullYear E (Some p) (getFullYear E (Some n))
             else Some p)).
Proof.
  intros Hp. unfold repairDueAt.
  assert (Ht : truthy (Some raw) = true).
  { destruct raw; [discriminate|reflexivity]. }
  rewrite Ht, Hp. reflexivity.
Qed.


End WithEnv.



End DueDate.

(** ** The period lists: today and this week *)

Module SummarizePeriods.
Import JsString JsDate Route Summarize SummarizeSpec Automation DateFacts.

Section WithEnv.
Variable E : DateEnv.

Lemma Day_of_local (t : Z) :
  MakeDay (YearFromTime t) (MonthFromTime t) (DateFromTime t) = Day t.
Proof.
  pose proof (MakeDate_roundtrip t) as Hr.
  pose proof (TimeWithinDay_range t) as Ht.
  apply (f_equal Day) in Hr. rewrite (Day_MakeDate _ _ Ht) in Hr. exact Hr.
Qed.

Lemma MakeDay_shift (y m dt k : Z) :
  0 <= m <= 11 -> MakeDay y m (dt + k) = MakeDay y m dt + k.
Proof. intros Hm. rewrite !(MakeDay_month _ _ _ Hm). lia. Qed.

(** The week window of [computeStats]: it starts on the local Monday,
    00:00:00.000, of the week of [n] and ends 7 days less one millisecond
    later (Sunday 23:59:59.999). *)
Lemma weekWindow_spec (n : Z) :
  exists mon sun,
    weekMondayOf E (Some n) = Some mon
    /\ weekSundayOf E (Some mon) = Some sun
    /\ LocalTime E mon
       = (Day (LocalTime E n) - daysSinceMonday (WeekDay (LocalTime E n)))
         * msPerDay
    /\ WeekDay (LocalTime E mon) = 1
    /\ TimeWithinDay (LocalTime E mon) = 0
    /\ mon <= n < mon + 7 * msPerDay
    /\ sun = mon + 7 * msPerDay - 1.
Proof.
  set (t := LocalTime E n).
  destruct (month_date_spec t) as (Hm & Hd & _).
  pose proof (TimeWithinDay_range t) as Htw.
  set (k := daysSinceMonday (WeekDay t)).
  assert (Hk : 0 <= k <= 6 /\ (Day t - k + 4) mod 7 = 1).
  { subst k. unfold daysSinceMonday, WeekDay.
    destruct (Z.eqb_spec ((Day t + 4) mod 7) 0); div_lia. }
  (* Monday *)
  assert (Hmon : weekMondayOf E (Some n) = Some (UTC E ((Day t - k) * msPerDay))).
  { unfold weekMondayOf, setDate, setHours, getDate, getDay.
    cbn [fmap option_fmap option_map mbind option_bind].
    fold t. fold (daysSinceMonday (WeekDay t)). fold k.
    f_equal. f_equal. rewrite LocalTime_UTC.
    rewrite (Day_MakeDate _ _ Htw).
    replace (DateFromTime t - k) with (DateFromTime t + - k) by lia.
    rewrite (MakeDay_shift _ _ _ _ Hm), Day_of_local.
    unfold MakeDate, MakeTime. lia. }
  set (mon := UTC E ((Day t - k) * msPerDay)) in *.
  set (t' := LocalTime E mon).
  assert (Ht' : t' = (Day t - k) * msPerDay).
  { subst t' mon. apply LocalTime_UTC. }
  assert (Hday' : Day t' = Day t - k).
  { rewrite Ht'. unfold Day, msPerDay. div_lia. }
  assert (Htw' : TimeWithinDay t' = 0).
  { rewrite Ht'. unfold TimeWithinDay, msPerDay. div_lia. }
  destruct (month_date_spec t') as (Hm' & Hd' & _).
  assert (Hsun : weekSundayOf E (Some mon)
                 = Some (UTC E ((Day t' + 6) * msPerDay + 86399999))).
  { unfold weekSundayOf, setDate, setHours, getDate.
    cbn [fmap option_fmap option_map]. fold t'.
    f_equal. f_equal. rewrite LocalTime_UTC, Htw'.
    rewrite (Day_MakeDate _ 0 ltac:(unfold msPerDay; lia)).
    rewrite (MakeDay_shift _ _ _ _ Hm'), Day_of_local.
    unfold MakeDate, MakeTime, msPerDay, msPerHour, msPerMinute, msPerSecond.
    lia. }
  exists mon, (UTC E ((Day t' + 6) * msPerDay + 86399999)).
  fold t'.
  split; [exact Hmon|]. split; [exact Hsun|].
  split; [exact Ht'|].
  split; [unfold WeekDay; rewrite Hday'; apply Hk|].
  split; [exact Htw'|].
  pose proof (Day_TimeWithinDay t) as Hsplit.
  assert (Hn : n = UTC E t) by (subst t; unfold UTC, LocalTime; lia).
  split.
  - subst mon. rewrite Hn. unfold UTC, MakeDate, msPerDay in *. lia.
  - subst mon. rewrite Hday'. unfold UTC, msPerDay. lia.
Qed.

(** The week list holds the todos whose due time parses to an instant
    inside the window. *)
Lemma weekTasks_spec (todos : list TodoSummaryInput) (nowStr : jsstring) :
  let st := computeStats E todos nowStr in
  weekTasks st
  = List.filter
      (fun t =>
         match Todo.due_at t with
         | Some s =>
             match newDate E s, weekMonday st, weekSunday st with
             | Some d, Some mon, Some sun => (mon <=? d) && (d <=? sun)
             | _, _, _ => false
             end
         | None => false
         end) todos.
Proof.
  cbn [computeStats weekTasks weekMonday weekSunday].
  apply filter_ext. intros t. unfold dueInWeek, dateGe, dateLe.
  destruct (Todo.due_at t) as [s|]; [|reflexivity].
  destruct s as [|c r]; [reflexivity|]. simpl truthy. rewrite andb_true_l.
  destruct (newDate E (c :: r)), (weekMondayOf E (newDate E nowStr)),
    (weekSundayOf E (weekMondayOf E (newDate E nowStr))); reflexivity.
Qed.

(** The today list holds the todos whose due string starts with the
    local date of the reference instant. *)
Lemma todayTasks_spec (todos : list TodoSummaryInput) (nowStr : jsstring) :
  let st := computeStats E todos nowStr in
  todayTasks st
  = List.filter
      (fun t =>
         match Todo.due_at t with
         | Some s => startsWith s (todayStr st)
         | None => false
         end) todos.
Proof. reflexivity. Qed.

End WithEnv.

(** C4.  The today list is not the list of todos due on the reference
    date.  Due times are stored as UTC strings ([toISOString]); the
    handler compares their first ten characters with the local date of
    the reference instant.  In Seoul at 2026-02-18T09:00, a todo due at
    00:30 local time that day (15:30Z the day before) is left out, and a
    todo due at 05:00 local time the next day (20:00Z) is taken in.  The
    week list is computed from the instants and holds both. *)
Theorem todayTasks_compares_utc_prefix :
  let early := dueAt "2026-02-17T15:30:00.000Z" in
  let late := dueAt "2026-02-18T20:00:00.000Z" in
  let nowStr := js "2026-02-18T09:00" in
  let st := computeStats seoul [early; late] nowStr in
  todayStr st = js "2026-02-18"
  /\ isSameLocalDay seoul (js "2026-02-17T15:30:00.000Z") (now st) = true
  /\ isSameLocalDay seoul (js "2026-02-18T20:00:00.000Z") (now st) = false
  /\ todayTasks st = [late]
  /\ weekTasks st = [early; late].
Proof. vm_compute. repeat split; reflexivity. Qed.

End SummarizePeriods.

(** ** The remaining scenarios of the specification, run on the model *)

Module SpecScenarios.
Import JsString JsDate Route ParseTodo.

(** Length boundaries: a trimmed length of 1 fails, 2 passes; a raw
    length of 501 fails, 500 passes. *)
Example validateInput_length_boundaries :
  (validateInput (Some (js " a ")) 0).1 = invalid msgTooShort
  /\ (validateInput (Some (js "ab")) 0).1 = valid
  /\ (validateInput (Some (List.repeat 97 501)) 0).1 = invalid msgTooLong
  /\ (validateInput (Some (List.repeat 97 500)) 0).1 = valid.
Proof. vm_compute. repeat split; reflexivity. Qed.

(** Two emoji and nothing else. *)
Example validateInput_emoji_only :
  (validateInput (Some [55356; 57225; 55356; 57226]) 0).1 = invalid msgEmojiOnly.
Proof. vm_compute. reflexivity. Qed.

(** Scenario D: the mocked model reply for the text of the scenario, at
    2026-02-17T09:00; and a raw priority outside the three values. *)
Example postprocess_scenario_D :
  let raw := {| raw_title := Some (js " meeting prep ");
                raw_due_at := Some (js "2026-02-18T15:00");
                raw_priority := Some (js "urgent");
                raw_category := Some (js "  ");
                raw_description := None |} in
  postprocess (isoEnv 0) raw (js "2026-02-17T09:00")
  = {| title := js "meeting prep";
       due_at := Some (js "2026-02-18T15:00");
       priority := js "medium";
       category := None;
       description := None |}.
Proof. vm_compute. reflexivity. Qed.

End SpecScenarios.

(** ** The week window and the week list *)

Module SummarizeWeek.
Import JsString JsNumber JsDate Route Summarize SummarizeSpec StatsSpec.
Import Automation DateFacts SummarizeTotals SummarizeOverdue SummarizePeriods.

Section WithEnv.
Variable E : DateEnv.



Lemma dueInWeek_invalid (sun : Date) (t : TodoSummaryInput) :
  dueInWeek E None sun t = false.
Proof.
  unfold dueInWeek, dateGe, dateLe.
  destruct (Todo.due_at t) as [s|]; [|reflexivity].
  destruct (newDate E s); rewrite ?andb_false_r; reflexivity.
Qed.

Lemma isOverdue_invalid (t : TodoSummaryInput) : isOverdue E None t = false.
Proof.
  unfold isOverdue, dateLt.
  destruct (Todo.due_at t) as [s|]; [|apply andb_false_r].
  destruct (newDate E s); rewrite ?andb_false_r; reflexivity.
Qed.

Lemma filter_none {A} (p : A -> bool) (l : list A) :
  (forall a, p a = false) -> List.filter p l = [].
Proof.
  intros H. induction l as [|a l IH]; [reflexivity|].
  simpl. rewrite H. exact IH.
Qed.

Lemma countIf_none {A} (p : A -> bool) (l : list A) :
  (forall a, p a = false) -> countIf p l = 0.
Proof. intros H. unfold countIf. rewrite filter_none by exact H. reflexivity. Qed.

(** X2. The week list and the count of todos completed this week:
    [completedThisWeek] is the number of completed todos of the week
    list, so it exceeds neither the length of that list nor the number of
    completed todos; every todo of the week list is one of the request
    and has a due time that parses to an instant inside the window. *)
Theorem computeStats_week_tasks (todos : list TodoSummaryInput)
    (nowStr : jsstring) :
  let st := computeStats E todos nowStr in
  completedThisWeek st = countIf Todo.completed (weekTasks st)
  /\ 0 <= completedThisWeek st <= Z.of_nat (length (weekTasks st))
  /\ completedThisWeek st <= completed st
  /\ (forall t, In t (weekTasks st) ->
        In t todos
        /\ exists s d mon sun,
             Todo.due_at t = Some s /\ newDate E s = Some d
             /\ weekMonday st = Some mon /\ weekSunday st = Some sun
             /\ mon <= d <= sun).
Proof.
  intros st.
  assert (H1 : completedThisWeek st = countIf Todo.completed (weekTasks st)).
  { subst st. cbn [computeStats completedThisWeek weekTasks].
    rewrite countIf_filter. apply countIf_ext. intros t. apply andb_comm. }
  split; [exact H1|]. split; [rewrite H1; apply countIf_bounds|].
  split.
  - subst st. cbn [computeStats completedThisWeek completed].
    apply countIf_and_le.
  - intros t Ht. pose proof (weekTasks_spec E todos nowStr) as Hw.
    cbv zeta in Hw. fold st in Hw. rewrite Hw in Ht.
    apply List.filter_In in Ht. destruct Ht as [Hin Hp]. split; [exact Hin|].
    destruct (Todo.due_at t) as [s|] eqn:Hs; [|discriminate].
    destruct (newDate E s) as [d|] eqn:Hd; [|discriminate].
    destruct (weekMonday st) as [mon|] eqn:Hmon; [|discriminate].
    destruct (weekSunday st) as [sun|] eqn:Hsun; [|discriminate].
    apply andb_true_iff in Hp. destruct Hp as [H2%Z.leb_le H3%Z.leb_le].
    exists s, d, mon, sun. repeat split; try reflexivity; assumption.
Qed.

(** X3. When the reference string is not a date, [computeStats] still
    counts the todos, but nothing is overdue and nothing is in the week:
    the local date renders as NaN-NaN-NaN, both ends of the week window
    are invalid, the week list is empty, and no overdue count is kept. *)
Theorem computeStats_invalid_reference (todos : list TodoSummaryInput)
    (nowStr : jsstring) :
  newDate E nowStr = None ->
  let st := computeStats E todos nowStr in
  now st = None
  /\ todayStr st = js "NaN-NaN-NaN"
  /\ weekMonday st = None /\ weekSunday st = None
  /\ weekTasks st = [] /\ completedThisWeek st = 0
  /\ overdue st = 0
  /\ overdueByCategory st = ∅ /\ overdueByPriority st = ∅
  /\ (forall cat e, categoryCompletion st !! cat = Some e ->
        CategoryStat.overdue e = 0)
  /\ total st = Z.of_nat (length todos)
  /\ completed st = countIf Todo.completed todos.
Proof.
  intros Hn st. subst st.
  cbn [computeStats now todayStr weekMonday weekSunday weekTasks
       completedThisWeek overdue overdueByCategory overdueByPriority
       categoryCompletion total completed].
  rewrite Hn.
  assert (Hmon : weekMondayOf E None = None) by reflexivity.
  rewrite Hmon.
  assert (Hsun : weekSundayOf E None = None) by reflexivity.
  rewrite Hsun.
  rewrite (filter_none (isOverdue E None)) by apply isOverdue_invalid.
  repeat split; try reflexivity.
  - apply filter_none, dueInWeek_invalid.
  - apply countIf_none. intros t. rewrite dueInWeek_invalid. apply andb_false_r.
  - apply countIf_none, isOverdue_invalid.
  - intros cat e He. destruct (inheritedKey cat) eqn:Hk.
    + rewrite categoryCompletion_inherited in He;
        [discriminate|exact Hk|apply lookup_empty].
    + rewrite categoryCompletion_lookup in He by exact Hk.
      rewrite lookup_empty in He.
      destruct (countIf (inCategory cat) todos =? 0); [discriminate|].
      injection He as <-. cbn [addStat CategoryStat.overdue default zeroStat].
      rewrite countIf_none; [reflexivity|].
      intros t. rewrite isOverdue_invalid. apply andb_false_r.
Qed.

End WithEnv.


Lemma computeStats_invalid_reference_witness :
  let E := isoEnv 0 in
  let st := computeStats E ScenarioA.todos (js "tomorrow") in
  newDate E (js "tomorrow") = None
  /\ todayStr st = js "NaN-NaN-NaN" /\ weekTasks st = [] /\ overdue st = 0
  /\ total st = 10.
Proof.
  split; [vm_compute; reflexivity|].
  pose proof (computeStats_invalid_reference (isoEnv 0) ScenarioA.todos
                (js "tomorrow") ltac:(vm_compute; reflexivity)) as H.
  cbv zeta in H.
  destruct H as (_ & H2 & _ & _ & H5 & _ & H7 & _ & _ & _ & H11 & _).
  repeat split; assumption.
Defined.

End SummarizeWeek.
(** ** The breakdowns by priority and by category, and the rates *)

Module SummarizeBreakdowns.
Import JsString JsNumber JsDate Route Summarize SummarizeSpec StatsSpec.
Import Automation SummarizeTotals SummarizeOverdue SummarizeDistributions.

Lemma priorityStep_fold (todos : list TodoSummaryInput)
    (pc : Priority -> PriorityCompletionStat.t) (p : Priority) :
  let r := fold_left priorityStep todos pc p in
  PriorityCompletionStat.total r
  = PriorityCompletionStat.total (pc p) + countIf (hasPriority p) todos
  /\ PriorityCompletionStat.completed r
     = PriorityCompletionStat.completed (pc p)
       + countIf (fun t => hasPriority p t && Todo.completed t) todos
  /\ PriorityCompletionStat.rate r = PriorityCompletionStat.rate (pc p).
Proof.
  revert pc. induction todos as [|t todos IH]; intros pc.
  - cbn. unfold countIf. cbn. repeat split; lia.
  - cbn [fold_left]. specialize (IH (priorityStep pc t)). cbv zeta in IH |- *.
    destruct IH as (IH1 & IH2 & IH3). rewrite IH1, IH2, IH3.
    rewrite !countIf_cons. unfold priorityStep, hasPriority.
    destruct (decide (p = Todo.priority t)) as [->|Hne].
    + rewrite !bool_decide_eq_true_2 by reflexivity.
      cbn [PriorityCompletionStat.total PriorityCompletionStat.completed
           PriorityCompletionStat.rate andb].
      repeat split; lia.
    + rewrite !bool_decide_eq_false_2 by congruence.
      cbn [andb]. repeat split; lia.
Qed.


Lemma priorityCompletion_counts (E : DateEnv) (todos : list TodoSummaryInput)
    (nowStr : jsstring) (p : Priority) :
  let e := priorityCompletion (computeStats E todos nowStr) p in
  PriorityCompletionStat.total e = countIf (hasPriority p) todos
  /\ PriorityCompletionStat.completed e
     = countIf (fun t => hasPriority p t && Todo.completed t) todos
  /\ PriorityCompletionStat.rate e
     = rate (PriorityCompletionStat.completed e)
            (PriorityCompletionStat.total e).
Proof.
  cbn [computeStats priorityCompletion].
  unfold priorityRates.
  cbn [PriorityCompletionStat.total PriorityCompletionStat.completed
       PriorityCompletionStat.rate].
  pose proof (priorityStep_fold todos
    (fun _ => {| PriorityCompletionStat.total := 0;
                 PriorityCompletionStat.completed := 0;
                 PriorityCompletionStat.rate := 0 |}) p) as Hf.
  cbv zeta in Hf. destruct Hf as (H1 & H2 & _).
  rewrite H1, H2.
  cbn [PriorityCompletionStat.total PriorityCompletionStat.completed].
  repeat split; lia.
Qed.


(** X5. The breakdown by category of [computeStats]: a category key has
    an entry exactly when some todo is filed under it and the key is not
    a member of [Object.prototype]; the entry's [total] is the number of
    todos filed under the key, its [completed] the number of those that
    are completed, and completed and overdue todos together never exceed
    the total. *)
Theorem computeStats_categoryCompletion (E : DateEnv)
    (todos : list TodoSummaryInput) (nowStr : jsstring) :
  let st := computeStats E todos nowStr in
  forall cat,
    (categoryCompletion st !! cat = None
     <-> inheritedKey cat = true \/ countIf (inCategory cat) todos = 0)
    /\ (forall e, categoryCompletion st !! cat = Some e ->
          CategoryStat.total e = countIf (inCategory cat) todos
          /\ CategoryStat.completed e
             = countIf (fun t => inCategory cat t && Todo.completed t) todos
          /\ 1 <= CategoryStat.total e
          /\ 0 <= CategoryStat.completed e
          /\ 0 <= CategoryStat.overdue e
          /\ CategoryStat.completed e + CategoryStat.overdue e
             <= CategoryStat.total e).
Proof.
  intros st cat. subst st. cbn [computeStats categoryCompletion].
  set (now := newDate E nowStr).
  destruct (inheritedKey cat) eqn:Hk.
  - rewrite categoryCompletion_inherited; [|exact Hk|apply lookup_empty].
    split; [split; [left|]; reflexivity|]. intros e He. discriminate.
  - rewrite categoryCompletion_lookup by exact Hk. rewrite lookup_empty.
    pose proof (countIf_bounds (inCategory cat) todos) as Hb.
    destruct (Z.eqb_spec (countIf (inCategory cat) todos) 0) as [H0|H0].
    + split; [split; [right; exact H0|reflexivity]|]. intros e He. discriminate.
    + split.
      * split; [discriminate|]. intros [?|?]; [discriminate|contradiction].
      * intros e He. injection He as <-.
        cbn [addStat CategoryStat.total CategoryStat.completed
             CategoryStat.overdue default zeroStat].
        pose proof (countIf_and_le (inCategory cat) Todo.completed todos).
        pose proof (countIf_and_le (inCategory cat) (isOverdue E now) todos).
        assert (Hsum :
          countIf (fun t => inCategory cat t && Todo.completed t) todos
          + countIf (fun t => inCategory cat t && isOverdue E now t) todos
          <= countIf (inCategory cat) todos).
        { clear. induction todos as [|t todos IH]; [reflexivity|].
          rewrite !countIf_cons. unfold isOverdue at 1.
          destruct (inCategory cat t), (Todo.completed t); cbn [andb negb];
            try lia.
          destruct (match Todo.due_at t with
                    | Some s => truthy (Some s) && dateLt (newDate E s) now
                    | None => false end); lia. }
        repeat split; lia.
Qed.

Lemma countIf_filter_comm {A} (p q : A -> bool) (l : list A) :
  countIf p (List.filter q l) = countIf (fun a => p a && q a) l.
Proof.
  rewrite countIf_filter. apply countIf_ext. intros a. apply andb_comm.
Qed.

Lemma nearest_or_zero (c t : Z) :
  0 <= c <= t -> t <= 200 ->
  2 * Z.abs (100 * c - rate c t * t) <= t /\ 0 <= rate c t <= 100.
Proof.
  intros Hc Ht. destruct (Z.eq_dec t 0) as [->|Hne].
  - assert (c = 0) as -> by lia. cbn. lia.
  - apply rate_nearest; lia.
Qed.

(** X6. Every rate of the statistics is a whole percentage: for a
    request of at most 200 todos (the limit of the route), the completion
    rate, the deadline adherence rate and the rate of each priority lie
    between 0 and 100 and differ from the exact percentage by at most one
    half.  The deadline adherence rate is the share of completed todos
    among the todos that have a due time, and 0 when none has one. *)
Theorem computeStats_rates (E : DateEnv) (todos : list TodoSummaryInput)
    (nowStr : jsstring) :
  (length todos <= 200)%nat ->
  let st := computeStats E todos nowStr in
  let withDue := countIf (fun t => truthy (Todo.due_at t)) todos in
  let completedWithDue :=
    countIf (fun t => Todo.completed t && truthy (Todo.due_at t)) todos in
  deadlineAdherenceRate st = rate completedWithDue withDue
  /\ (withDue = 0 -> deadlineAdherenceRate st = 0)
  /\ 2 * Z.abs (100 * completedWithDue - deadlineAdherenceRate st * withDue)
     <= withDue
  /\ 0 <= deadlineAdherenceRate st <= 100
  /\ 2 * Z.abs (100 * completed st - completionRate st * total st) <= total st
  /\ 0 <= completionRate st <= 100
  /\ forall p,
       let e := priorityCompletion st p in
       2 * Z.abs (100 * PriorityCompletionStat.completed e
                  - PriorityCompletionStat.rate e * PriorityCompletionStat.total e)
       <= PriorityCompletionStat.total e
       /\ 0 <= PriorityCompletionStat.rate e <= 100.
Proof.
  intros Hlen st withDue completedWithDue.
  assert (Hd : deadlineAdherenceRate st = rate completedWithDue withDue).
  { subst st withDue completedWithDue.
    cbn [computeStats deadlineAdherenceRate].
    rewrite countIf_filter_comm. reflexivity. }
  pose proof (countIf_bounds (fun t => truthy (Todo.due_at t)) todos) as Hw.
  pose proof (countIf_and_le (fun t => truthy (Todo.due_at t)) Todo.completed
                todos) as Hcw.
  assert (Hcw' : 0 <= completedWithDue <= withDue).
  { subst completedWithDue withDue.
    rewrite (countIf_ext _ (fun t => truthy (Todo.due_at t) && Todo.completed t))
      by (intros; apply andb_comm).
    exact Hcw. }
  fold withDue in Hw.
  destruct (nearest_or_zero completedWithDue withDue Hcw' ltac:(lia)) as [Hn Hr].
  split; [exact Hd|]. rewrite Hd.
  split; [intros ->; reflexivity|].
  split; [exact Hn|]. split; [exact Hr|].
  assert (Ht : total st = Z.of_nat (length todos)) by reflexivity.
  assert (Hc : completed st = countIf Todo.completed todos) by reflexivity.
  assert (Hcr : completionRate st = rate (completed st) (total st)) by reflexivity.
  pose proof (countIf_bounds Todo.completed todos) as Hcb.
  destruct (nearest_or_zero (completed st) (total st)) as [Hn' Hr']; [lia|lia|].
  rewrite Hcr. split; [exact Hn'|]. split; [exact Hr'|].
  intros p e.
  destruct (priorityCompletion_counts E todos nowStr p) as (H1 & H2 & H3).
  fold st in H1, H2, H3. fold e in H1, H2, H3.
  pose proof (countIf_bounds (hasPriority p) todos) as Hpb.
  pose proof (countIf_and_le (hasPriority p) Todo.completed todos) as Hpc.
  rewrite H3. apply nearest_or_zero; lia.
Qed.

Lemma computeStats_rates_witness :
  let st := computeStats (isoEnv 0) ScenarioA.todos ScenarioA.nowStr in
  (length ScenarioA.todos <= 200)%nat
  /\ deadlineAdherenceRate st = 33
  /\ 0 <= deadlineAdherenceRate st <= 100
  /\ 0 <= completionRate st <= 100.
Proof.
  assert (Hlen : (length ScenarioA.todos <= 200)%nat) by (vm_compute; lia).
  split; [exact Hlen|].
  pose proof (computeStats_rates (isoEnv 0) ScenarioA.todos ScenarioA.nowStr
                Hlen) as H.
  cbv zeta in H. destruct H as (H1 & _ & _ & H4 & _ & H6 & _).
  split; [rewrite H1; vm_compute; reflexivity|].
  split; assumption.
Defined.

Lemma countIf_negb {A} (p : A -> bool) (l : list A) :
  countIf p l + countIf (fun a => negb (p a)) l = Z.of_nat (length l).
Proof.
  induction l as [|a l IH]; [reflexivity|].
  rewrite !countIf_cons. cbn [length]. rewrite Nat2Z.inj_succ.
  destruct (p a); cbn [negb]; lia.
Qed.

Lemma countIf_mono {A} (p q : A -> bool) (l : list A) :
  (forall a, p a = true -> q a = true) -> countIf p l <= countIf q l.
Proof.
  intros H. induction l as [|a l IH]; [reflexivity|].
  rewrite !countIf_cons. specialize (H a).
  destruct (p a), (q a); lia.
Qed.

(** X7. Overdue todos are open todos with a due time: the overdue count
    of [computeStats] exceeds neither the number of todos in progress nor
    the number of todos that have a due time, and completed and overdue
    todos together never exceed the total. *)
Theorem computeStats_overdue_bounds (E : DateEnv)
    (todos : list TodoSummaryInput) (nowStr : jsstring) :
  let st := computeStats E todos nowStr in
  0 <= overdue st <= inProgress st
  /\ completed st + overdue st <= total st
  /\ overdue st <= countIf (fun t => truthy (Todo.due_at t)) todos.
Proof.
  intros st. subst st. cbn [computeStats overdue inProgress completed total].
  set (now := newDate E nowStr).
  pose proof (countIf_bounds (isOverdue E now) todos) as Hb.
  pose proof (countIf_negb Todo.completed todos) as Hn.
  assert (H1 : countIf (isOverdue E now) todos
               <= countIf (fun t => negb (Todo.completed t)) todos).
  { apply countIf_mono. intros t. unfold isOverdue.
    intros H%andb_true_iff. apply H. }
  assert (H2 : countIf (isOverdue E now) todos
               <= countIf (fun t => truthy (Todo.due_at t)) todos).
  { apply countIf_mono. intros t. unfold isOverdue.
    intros [_ H]%andb_true_iff.
    destruct (Todo.due_at t) as [s|]; [|discriminate].
    apply andb_true_iff in H. apply H. }
  lia.
Qed.

(** X8. The distribution over the time of day, slot by slot: a todo with
    a due time is counted as morning when its local hour is below 12, as
    afternoon from 12 to 16, as evening from 17 to 20, and as night from
    21 on; a due time that is not a date is counted as night. *)
Theorem computeStats_timeSlots (E : DateEnv) (todos : list TodoSummaryInput)
    (nowStr : jsstring) :
  let d := timeSlotDist (computeStats E todos nowStr) in
  TimeSlotDist.morning d = countIf (dueHourIn E 0 12) todos
  /\ TimeSlotDist.afternoon d = countIf (dueHourIn E 12 17) todos
  /\ TimeSlotDist.evening d = countIf (dueHourIn E 17 21) todos
  /\ TimeSlotDist.night d
     = countIf (dueHourIn E 21 24) todos + countIf (dueInvalid E) todos.
Proof.
  cbn [computeStats timeSlotDist].
  set (z := {| TimeSlotDist.morning := 0; TimeSlotDist.afternoon := 0;
               TimeSlotDist.evening := 0; TimeSlotDist.night := 0 |}).
  assert (H : forall d0,
    let d := fold_left (timeSlotStep E) todos d0 in
    TimeSlotDist.morning d
    = TimeSlotDist.morning d0 + countIf (dueHourIn E 0 12) todos
    /\ TimeSlotDist.afternoon d
       = TimeSlotDist.afternoon d0 + countIf (dueHourIn E 12 17) todos
    /\ TimeSlotDist.evening d
       = TimeSlotDist.evening d0 + countIf (dueHourIn E 17 21) todos
    /\ TimeSlotDist.night d
       = TimeSlotDist.night d0 + countIf (dueHourIn E 21 24) todos
         + countIf (dueInvalid E) todos).
  { induction todos as [|t todos IH]; intros d0.
    - unfold countIf. cbn. lia.
    - cbn [fold_left]. specialize (IH (timeSlotStep E d0 t)).
      cbv zeta in IH |- *. destruct IH as (-> & -> & -> & ->).
      rewrite !countIf_cons.
      unfold timeSlotStep, dueHourIn, dueInvalid.
      destruct (Todo.due_at t) as [[|c r]|]; cbn [truthy andb]; try lia.
      destruct (newDate E (c :: r)) as [x|] eqn:Hx.
      + cbn [getHours fmap option_fmap option_map].
        pose proof (HourFromTime_range (LocalTime E x)) as Hh.
        rewrite bool_decide_eq_false_2 by discriminate.
        set (h := HourFromTime (LocalTime E x)) in *.
        destruct (Z.ltb_spec h 12), (Z.ltb_spec h 17), (Z.ltb_spec h 21),
          (Z.ltb_spec h 24), (Z.leb_spec 0 h), (Z.leb_spec 12 h),
          (Z.leb_spec 17 h), (Z.leb_spec 21 h);
          cbn [TimeSlotDist.morning TimeSlotDist.afternoon
               TimeSlotDist.evening TimeSlotDist.night andb]; lia.
      + cbn [getHours fmap option_fmap option_map].
        rewrite bool_decide_eq_true_2 by reflexivity.
        cbn [TimeSlotDist.morning TimeSlotDist.afternoon
             TimeSlotDist.evening TimeSlotDist.night]. lia. }
  specialize (H z). cbv zeta in H. destruct H as (-> & -> & -> & ->).
  subst z. cbn [TimeSlotDist.morning TimeSlotDist.afternoon
                TimeSlotDist.evening TimeSlotDist.night]. lia.
Qed.

Lemma dayOfWeek_lookup (E : DateEnv) (todos : list TodoSummaryInput)
    (dist : list Z) (i : nat) :
  (i < 7)%nat ->
  fold_left (dayOfWeekStep E) todos dist !! i
  = (fun n => n + countIf (dueOnWeekday E (Z.of_nat i)) todos) <$> dist !! i.
Proof.
  intros Hi. revert dist. induction todos as [|t todos IH]; intros dist.
  - cbn [fold_left]. unfold countIf. cbn.
    destruct (dist !! i); cbn; [f_equal; lia|reflexivity].
  - cbn [fold_left]. rewrite IH, countIf_cons.
    unfold dayOfWeekStep, dueOnWeekday.
    destruct (Todo.due_at t) as [[|c r]|]; cbn [truthy andb];
      try (destruct (dist !! i); cbn; [f_equal; lia|reflexivity]).
    destruct (newDate E (c :: r)) as [x|];
      cbn [getDay fmap option_fmap option_map];
      try (destruct (dist !! i); cbn; [f_equal; lia|reflexivity]).
    pose proof (WeekDay_range (LocalTime E x)) as Hw.
    set (w := WeekDay (LocalTime E x)) in *.
    destruct (Z.eqb_spec w (Z.of_nat i)) as [Heq|Hne].
    + replace (Z.to_nat w) with i by lia.
      rewrite list_lookup_alter, decide_True by reflexivity.
      destruct (dist !! i); cbn; [f_equal; lia|reflexivity].
    + rewrite list_lookup_alter_ne by lia.
      destruct (dist !! i); cbn; [f_equal; lia|reflexivity].
Qed.

(** X9. The distribution over the days of the week, entry by entry: the
    array has one entry per weekday from Sunday (0) to Saturday (6), and
    entry [w] is the number of todos whose due time is a date that falls
    on local weekday [w]; a due time that is not a date is counted
    nowhere. *)
Theorem computeStats_dayOfWeek (E : DateEnv) (todos : list TodoSummaryInput)
    (nowStr : jsstring) :
  dayOfWeekDist (computeStats E todos nowStr)
  = List.map (fun w => countIf (dueOnWeekday E w) todos) [0; 1; 2; 3; 4; 5; 6].
Proof.
  cbn [computeStats dayOfWeekDist].
  apply list_eq. intros i.
  destruct (Nat.lt_ge_cases i 7) as [Hi|Hi].
  - rewrite dayOfWeek_lookup by exact Hi.
    do 7 (destruct i as [|i]; [reflexivity|]). lia.
  - rewrite !lookup_ge_None_2; [reflexivity| |].
    + cbn. lia.
    + assert (Hlen : forall l d, length (fold_left (dayOfWeekStep E) l d)
                                 = length d).
      { clear. induction l as [|t l IH]; intros d; [reflexivity|].
        cbn [fold_left]. rewrite IH. apply dayOfWeekStep_length. }
      rewrite Hlen. cbn. lia.
Qed.

End SummarizeBreakdowns.

(** ** The checks of [validateInput], one by one *)

Module ValidationChecks.
Import JsString JsDate Route ParseTodo StringSpec ParseSpec ValidationSpec.
Import MessageTactics StringFacts ParseValidation.

Lemma testDangerous_from (s : jsstring) (li : nat) :
  (testDangerous s li).1 = existsb isDangerous (skipn li s).
Proof.
  unfold testDangerous. destruct (Nat.ltb_spec (length s) li) as [Hlt|Hge].
  - rewrite skipn_all2 by lia. reflexivity.
  - destruct (existsb isDangerous (skipn li s)) eqn:Hx.
    + destruct (findDangerous_exists _ li Hx) as [j ->]. reflexivity.
    + rewrite (findDangerous_none _ li Hx). reflexivity.
Qed.

Lemma validateInput_unfold (t : jsstring) (li : nat) :
  validateInput (Some t) li
  = if len (trim t) =? 0 then (invalid msgEmpty, li)
    else if len (trim t) <? 2 then (invalid msgTooShort, li)
    else if 500 <? len t then (invalid msgTooLong, li)
    else if (testDangerous (trim t) li).1
         then (invalid msgDangerous, (testDangerous (trim t) li).2)
    else if len (trim (removeEmoji (trim t))) =? 0
         then (invalid msgEmojiOnly, (testDangerous (trim t) li).2)
    else (valid, (testDangerous (trim t) li).2).
Proof.
  unfold validateInput, MIN_LENGTH, MAX_LENGTH.
  destruct (testDangerous (trim t) li) as [found li']. reflexivity.
Qed.

Lemma len_nil_iff (s : jsstring) : len s = 0 <-> s = [].
Proof.
  unfold len. destruct s; cbn [length]; split; intros H;
    try reflexivity; try discriminate; lia.
Qed.

Lemma len_nonneg (s : jsstring) : 0 <= len s.
Proof. unfold len. lia. Qed.

(** X10. What [validateInput] accepts, for any [lastIndex] the shared
    pattern is left with: the text is a string, its trimmed form has at
    least 2 code units, the text itself at most 500, something is left
    once emoji and white space are removed, and the trimmed form holds no
    dangerous character from position [lastIndex] on.  Dangerous
    characters before [lastIndex] are not seen. *)
Theorem validateInput_accepts_iff (text : option jsstring) (li : nat) :
  ok (validateInput text li).1 = true
  <-> exists t, text = Some t
        /\ 2 <= len (trim t) /\ len t <= 500
        /\ existsb isDangerous (skipn li (trim t)) = false
        /\ trim (removeEmoji (trim t)) <> [].
Proof.
  destruct text as [t|]; [|split; [discriminate|intros (t & Ht & _); discriminate]].
  rewrite validateInput_unfold, testDangerous_from.
  pose proof (len_nonneg (trim t)) as H0.
  pose proof (len_nil_iff (trim (removeEmoji (trim t)))) as Hnil.
  destruct (Z.eqb_spec (len (trim t)) 0) as [He|He];
    [split; [discriminate|intros (t' & [= <-] & ? & _); lia]|].
  destruct (Z.ltb_spec (len (trim t)) 2) as [Hs|Hs];
    [split; [discriminate|intros (t' & [= <-] & ? & _); lia]|].
  destruct (Z.ltb_spec 500 (len t)) as [Hl|Hl];
    [split; [discriminate|intros (t' & [= <-] & ? & ? & _); lia]|].
  destruct (existsb isDangerous (skipn li (trim t))) eqn:Hd;
    [split; [discriminate|intros (t' & [= <-] & ? & ? & ? & _); congruence]|].
  destruct (Z.eqb_spec (len (trim (removeEmoji (trim t)))) 0) as [Hm|Hm].
  - split; [discriminate|]. intros (t' & [= <-] & ? & ? & ? & Hne).
    apply Hnil in Hm. contradiction.
  - split; [|reflexivity]. intros _. exists t.
    repeat split; try assumption. intros Hx. apply Hnil in Hx. contradiction.
Qed.

Lemma messages_distinct :
  NoDup [msgNotString; msgEmpty; msgTooShort; msgTooLong; msgDangerous;
         msgEmojiOnly; msgMeaningless].
Proof. apply (bool_decide_unpack _). vm_compute. exact I. Qed.

(** X11. Each message of [validateInput] has one cause.  The result is
    accepted exactly when it carries no message; a value that is not a
    string is answered as such; for a string, the empty, too-short and
    too-long messages follow the trimmed and the raw length; the
    dangerous-character message means that the trimmed text holds a
    dangerous character at or after [lastIndex]; the emoji-only message
    means that nothing but emoji and white space is there. *)
Theorem validateInput_rejections (text : option jsstring) (li : nat) :
  let v := (validateInput text li).1 in
  (ok v = true <-> error v = None)
  /\ (error v = Some msgNotString <-> text = None)
  /\ (forall t, text = Some t ->
        (error v = Some msgEmpty <-> trim t = [])
        /\ (error v = Some msgTooShort <-> len (trim t) = 1)
        /\ (error v = Some msgTooLong <-> 2 <= len (trim t) /\ 500 < len t)
        /\ (error v = Some msgDangerous
            <-> 2 <= len (trim t) /\ len t <= 500
                /\ existsb isDangerous (skipn li (trim t)) = true)
        /\ (error v = Some msgEmojiOnly
            <-> 2 <= len (trim t) /\ len t <= 500
                /\ existsb isDangerous (skipn li (trim t)) = false
                /\ trim (removeEmoji (trim t)) = [])).
Proof.
  intros v. subst v. destruct text as [t|].
  2:{ cbn. split; [split; discriminate|]. split; [split; reflexivity|].
      intros t [=]. }
  rewrite validateInput_unfold, testDangerous_from.
  pose proof (len_nonneg (trim t)) as H0.
  pose proof (len_nil_iff (trim t)) as Hnil0.
  pose proof (len_nil_iff (trim (removeEmoji (trim t)))) as Hnil.
  destruct (Z.eqb_spec (len (trim t)) 0) as [He|He].
  { cbn [fst ok error invalid].
    split; [split; discriminate|]. split; [split; [intros H; other_message H|discriminate]|].
    intros t' [= <-].
    split; [split; [intros _; apply Hnil0, He|reflexivity]|].
    split; [split; [intros H; other_message H|lia]|].
    split; [split; [intros H; other_message H|lia]|].
    split; [split; [intros H; other_message H|lia]|].
    split; [intros H; other_message H|lia]. }
  assert (Hne : trim t <> []) by (intros Hx; apply Hnil0 in Hx; contradiction).
  destruct (Z.ltb_spec (len (trim t)) 2) as [Hs|Hs].
  { cbn [fst ok error invalid].
    split; [split; discriminate|]. split; [split; [intros H; other_message H|discriminate]|].
    intros t' [= <-].
    split; [split; [intros H; other_message H|contradiction]|].
    split; [split; [lia|reflexivity]|].
    split; [split; [intros H; other_message H|lia]|].
    split; [split; [intros H; other_message H|lia]|].
    split; [intros H; other_message H|lia]. }
  destruct (Z.ltb_spec 500 (len t)) as [Hl|Hl].
  { cbn [fst ok error invalid].
    split; [split; discriminate|]. split; [split; [intros H; other_message H|discriminate]|].
    intros t' [= <-].
    split; [split; [intros H; other_message H|contradiction]|].
    split; [split; [intros H; other_message H|lia]|].
    split; [split; [lia|reflexivity]|].
    split; [split; [intros H; other_message H|lia]|].
    split; [intros H; other_message H|lia]. }
  destruct (existsb isDangerous (skipn li (trim t))) eqn:Hd.
  { cbn [fst ok error invalid].
    split; [split; discriminate|]. split; [split; [intros H; other_message H|discriminate]|].
    intros t' [= <-].
    split; [split; [intros H; other_message H|contradiction]|].
    split; [split; [intros H; other_message H|lia]|].
    split; [split; [intros H; other_message H|lia]|].
    split; [split; [intros _; split; [lia|split; [lia|exact Hd]]|reflexivity]|].
    split; [intros H; other_message H|intros (_ & _ & ? & _); congruence]. }
  destruct (Z.eqb_spec (len (trim (removeEmoji (trim t)))) 0) as [Hm|Hm].
  { cbn [fst ok error invalid].
    split; [split; discriminate|]. split; [split; [intros H; other_message H|discriminate]|].
    intros t' [= <-].
    split; [split; [intros H; other_message H|contradiction]|].
    split; [split; [intros H; other_message H|lia]|].
    split; [split; [intros H; other_message H|lia]|].
    split; [split; [intros H; other_message H|intros (_ & _ & ?); congruence]|].
    split; [intros _; split; [lia|split; [lia|split; [exact Hd|apply Hnil, Hm]]]|reflexivity]. }
  cbn [fst ok error valid].
  split; [split; reflexivity|]. split; [split; discriminate|].
  intros t' [= <-].
  split; [split; [discriminate|contradiction]|].
  split; [split; [discriminate|lia]|].
  split; [split; [discriminate|lia]|].
  split; [split; [discriminate|intros (_ & _ & ?); congruence]|].
  split; [discriminate|]. intros (_ & _ & _ & Hx). apply Hnil in Hx. contradiction.
Qed.

Lemma findDangerous_split (l : jsstring) (i p : nat) :
  findDangerous i l = Some p ->
  exists pre c post,
    l = pre ++ c :: post /\ existsb isDangerous pre = false
    /\ isDangerous c = true /\ p = (i + length pre)%nat.
Proof.
  revert i. induction l as [|c l IH]; intros i; [discriminate|].
  cbn [findDangerous]. destruct (isDangerous c) eqn:Hc.
  - intros [= <-]. exists [], c, l. cbn. repeat split; [exact Hc|lia].
  - intros H. destruct (IH _ H) as (pre & c' & post & -> & Hp & Hc' & ->).
    exists (c :: pre), c', post. cbn [existsb app length]. rewrite Hc, Hp.
    repeat split; [exact Hc'|lia].
Qed.

Lemma testDangerous_found (s : jsstring) (li : nat) :
  (testDangerous s li).1 = true ->
  exists pre c post,
    skipn li s = pre ++ c :: post /\ existsb isDangerous pre = false
    /\ isDangerous c = true
    /\ (testDangerous s li).2 = (li + length pre + 1)%nat
    /\ skipn (testDangerous s li).2 s = post.
Proof.
  unfold testDangerous. destruct (Nat.ltb_spec (length s) li) as [Hlt|Hge];
    [discriminate|].
  destruct (findDangerous li (skipn li s)) as [p|] eqn:Hf; [|discriminate].
  intros _. destruct (findDangerous_split _ _ _ Hf) as (pre & c & post & Hs & Hp & Hc & ->).
  exists pre, c, post. cbn [snd]. repeat split; try assumption; [lia|].
  replace (S (li + length pre)) with (S (length pre) + li)%nat by lia.
  rewrite <- skipn_skipn, Hs.
  rewrite skipn_app, skipn_all2 by lia.
  replace (S (length pre) - length pre)%nat with 1%nat by lia. reflexivity.
Qed.

Lemma testDangerous_not_found (s : jsstring) (li : nat) :
  (testDangerous s li).1 = false -> (testDangerous s li).2 = 0%nat.
Proof.
  unfold testDangerous. destruct (length s <? li)%nat; [reflexivity|].
  destruct (findDangerous li (skipn li s)); [discriminate|reflexivity].
Qed.

(** X12. How [validateInput] moves the [lastIndex] of the shared pattern.
    A call rejected before the pattern is tried (not a string, empty, too
    short, too long) leaves it as it was; an accepted call and a call
    rejected as emoji-only reset it to 0; a call rejected for a dangerous
    character leaves it just after the first dangerous character at or
    after the old [lastIndex].  If it is at most 500 before a call, it
    is at most 500 after it. *)
Theorem validateInput_lastIndex (text : option jsstring) (li : nat) :
  let r := validateInput text li in
  (ok r.1 = true -> r.2 = 0%nat)
  /\ (error r.1 = Some msgEmojiOnly -> r.2 = 0%nat)
  /\ (error r.1 = Some msgDangerous ->
        exists t pre c post,
          text = Some t /\ skipn li (trim t) = pre ++ c :: post
          /\ existsb isDangerous pre = false /\ isDangerous c = true
          /\ r.2 = (li + length pre + 1)%nat
          /\ (r.2 <= length (trim t))%nat)
  /\ (error r.1 = Some msgNotString \/ error r.1 = Some msgEmpty
      \/ error r.1 = Some msgTooShort \/ error r.1 = Some msgTooLong ->
        r.2 = li)
  /\ ((li <= 500)%nat -> (r.2 <= 500)%nat).
Proof.
  intros r. subst r. destruct text as [t|].
  2:{ cbn. split; [discriminate|]. split; [intros H; other_message H|].
      split; [intros H; other_message H|]. split; [reflexivity|]. intros H; exact H. }
  rewrite validateInput_unfold.
  destruct (Z.eqb_spec (len (trim t)) 0) as [He|He].
  { cbn [fst snd ok error invalid]. split; [discriminate|].
    split; [intros H; other_message H|]. split; [intros H; other_message H|].
    split; [reflexivity|]. intros H; exact H. }
  destruct (Z.ltb_spec (len (trim t)) 2) as [Hs|Hs].
  { cbn [fst snd ok error invalid]. split; [discriminate|].
    split; [intros H; other_message H|]. split; [intros H; other_message H|].
    split; [reflexivity|]. intros H; exact H. }
  destruct (Z.ltb_spec 500 (len t)) as [Hl|Hl].
  { cbn [fst snd ok error invalid]. split; [discriminate|].
    split; [intros H; other_message H|]. split; [intros H; other_message H|].
    split; [reflexivity|]. intros H; exact H. }
  pose proof (trim_length t) as Htl. unfold len in Hl.
  destruct ((testDangerous (trim t) li).1) eqn:Hd.
  { destruct (testDangerous_found _ _ Hd) as (pre & c & post & Hsk & Hp & Hc & H2 & Hpost).
    assert (Hle : (li + length pre + 1 <= length (trim t))%nat).
    { pose proof (f_equal length Hsk) as Hlen.
      rewrite length_skipn, length_app in Hlen. cbn [length] in Hlen. lia. }
    cbn [fst snd ok error invalid]. split; [discriminate|].
    split; [intros H; other_message H|].
    split; [intros _; exists t, pre, c, post; rewrite H2; repeat split; assumption|].
    split; [intros [H|[H|[H|H]]]; other_message H|]. intros _. rewrite H2. lia. }
  pose proof (testDangerous_not_found _ _ Hd) as H2.
  destruct (len (trim (removeEmoji (trim t))) =? 0).
  { cbn [fst snd ok error invalid]. split; [intros _; exact H2|].
    split; [intros _; exact H2|]. split; [intros H; other_message H|].
    split; [intros [H|[H|[H|H]]]; other_message H|]. intros _. rewrite H2. lia. }
  cbn [fst snd ok error valid]. split; [intros _; exact H2|].
  split; [discriminate|]. split; [discriminate|].
  split; [intros [H|[H|[H|H]]]; discriminate|]. intros _. rewrite H2. lia.
Qed.

Lemma resubmit_S (text : option jsstring) (n li : nat) :
  resubmit text (S n) li = (validateInput text (resubmit text n li)).2.
Proof.
  revert li. induction n as [|n IH]; intros li; [reflexivity|].
  cbn [resubmit] in *. rewrite <- IH. reflexivity.
Qed.

Lemma dangerousCount_app (a b : jsstring) :
  dangerousCount (a ++ b) = (dangerousCount a + dangerousCount b)%nat.
Proof. unfold dangerousCount. rewrite List.filter_app, length_app. reflexivity. Qed.

Lemma dangerousCount_existsb (l : jsstring) :
  existsb isDangerous l = negb (dangerousCount l =? 0)%nat.
Proof.
  unfold dangerousCount. induction l as [|c l IH]; [reflexivity|].
  cbn [existsb List.filter]. destruct (isDangerous c); [reflexivity|exact IH].
Qed.

Section Resubmitted.
Variable t : jsstring.
Hypothesis Hshort : 2 <= len (trim t).
Hypothesis Hlong : len t <= 500.
Hypothesis Hemoji : trim (removeEmoji (trim t)) <> [].

Lemma validateInput_checked (li : nat) :
  validateInput (Some t) li
  = if (testDangerous (trim t) li).1
    then (invalid msgDangerous, (testDangerous (trim t) li).2)
    else (valid, (testDangerous (trim t) li).2).
Proof.
  rewrite validateInput_unfold.
  destruct (Z.eqb_spec (len (trim t)) 0); [lia|].
  destruct (Z.ltb_spec (len (trim t)) 2); [lia|].
  destruct (Z.ltb_spec 500 (len t)); [lia|].
  destruct (Z.eqb_spec (len (trim (removeEmoji (trim t)))) 0) as [Hx|Hx];
    [|reflexivity].
  apply len_nil_iff in Hx. contradiction.
Qed.

Lemma resubmit_rejected (li m : nat) :
  dangerousCount (skipn li (trim t)) = S m ->
  (validateInput (Some t) li).1 = invalid msgDangerous
  /\ dangerousCount (skipn (validateInput (Some t) li).2 (trim t)) = m.
Proof.
  intros Hc. rewrite validateInput_checked.
  assert (Hd : (testDangerous (trim t) li).1 = true).
  { rewrite testDangerous_from, dangerousCount_existsb, Hc. reflexivity. }
  rewrite Hd. cbn [fst snd].
  destruct (testDangerous_found _ _ Hd)
    as (pre & c & post & Hsk & Hp & Hdc & _ & Hpost).
  split; [reflexivity|]. rewrite Hpost.
  rewrite Hsk, dangerousCount_app in Hc.
  rewrite dangerousCount_existsb in Hp.
  change (c :: post) with ([c] ++ post) in Hc.
  rewrite dangerousCount_app in Hc. unfold dangerousCount at 2 in Hc.
  cbn [List.filter] in Hc. rewrite Hdc in Hc. cbn [length] in Hc.
  destruct (dangerousCount pre); [lia|discriminate].
Qed.

Lemma resubmit_accepted (li : nat) :
  dangerousCount (skipn li (trim t)) = 0%nat ->
  validateInput (Some t) li = (valid, 0%nat).
Proof.
  intros Hc. rewrite validateInput_checked.
  assert (Hd : (testDangerous (trim t) li).1 = false).
  { rewrite testDangerous_from, dangerousCount_existsb, Hc. reflexivity. }
  rewrite Hd, (testDangerous_not_found _ _ Hd). reflexivity.
Qed.

Lemma resubmit_count (j : nat) :
  (j <= dangerousCount (trim t))%nat ->
  dangerousCount (skipn (resubmit (Some t) j 0) (trim t))
  = (dangerousCount (trim t) - j)%nat.
Proof.
  induction j as [|j IH]; intros Hj.
  - cbn [resubmit]. rewrite skipn_O, Nat.sub_0_r. reflexivity.
  - rewrite resubmit_S.
    destruct (resubmit_rejected (resubmit (Some t) j 0)
                (dangerousCount (trim t) - S j)) as [_ H].
    + rewrite IH by lia. lia.
    + exact H.
Qed.

End Resubmitted.

(** X13. The same text sent again and again.  Take a text that passes
    the length and emoji checks and whose trimmed form holds [k] dangerous
    characters.  Starting from a fresh pattern, the first [k] calls of
    [validateInput] on it are rejected for a dangerous character, the next
    call accepts it, and the pattern is fresh again. *)
Theorem validateInput_resubmitted (t : jsstring) :
  2 <= len (trim t) -> len t <= 500 -> trim (removeEmoji (trim t)) <> [] ->
  let k := dangerousCount (trim t) in
  (forall j, (j < k)%nat ->
     (validateInput (Some t) (resubmit (Some t) j 0)).1 = invalid msgDangerous)
  /\ validateInput (Some t) (resubmit (Some t) k 0) = (valid, 0%nat)
  /\ resubmit (Some t) (S k) 0 = 0%nat.
Proof.
  intros Hs Hl He k.
  assert (Hk : validateInput (Some t) (resubmit (Some t) k 0) = (valid, 0%nat)).
  { apply (resubmit_accepted t Hs Hl He).
    rewrite (resubmit_count t Hs Hl He) by (subst k; lia). subst k. lia. }
  split; [|split; [exact Hk|rewrite resubmit_S, Hk; reflexivity]].
  intros j Hj.
  apply (resubmit_rejected t Hs Hl He _ (k - S j)).
  rewrite (resubmit_count t Hs Hl He) by (subst k; lia). subst k. lia.
Qed.

Lemma validateInput_resubmitted_witness :
  let t := js "a<b>c" in
  dangerousCount (trim t) = 2%nat
  /\ (validateInput (Some t) 0).1 = invalid msgDangerous
  /\ (validateInput (Some t) (resubmit (Some t) 1 0)).1 = invalid msgDangerous
  /\ validateInput (Some t) (resubmit (Some t) 2 0) = (valid, 0%nat).
Proof.
  pose proof (validateInput_resubmitted (js "a<b>c")
                ltac:(vm_compute; discriminate) ltac:(vm_compute; discriminate)
                ltac:(vm_compute; discriminate)) as H.
  cbv zeta in H. destruct H as (H1 & H2 & _).
  split; [vm_compute; reflexivity|].
  split; [apply (H1 0%nat); vm_compute; lia|].
  split; [apply (H1 1%nat); vm_compute; lia|].
  exact H2.
Defined.

End ValidationChecks.

(** ** What [preprocessText] returns *)

Module NormalizationOutput.
Import JsString JsDate Route ParseTodo StringSpec ParseSpec ValidationSpec.
Import StringFacts Normalization.

(** Induction along the code points [removeEmoji] reads. *)
Lemma removeEmoji_cases (P : jsstring -> jsstring -> Prop) :
  P [] [] ->
  (forall c, isEmoji c = true -> P [c] []) ->
  (forall c, isEmoji c = false -> P [c] [c]) ->
  (forall c lo r,
     isHighSurrogate c = true -> isLowSurrogate lo = true ->
     isEmoji (codePoint c lo) = true ->
     P r (removeEmoji r) -> P (c :: lo :: r) (removeEmoji r)) ->
  (forall c lo r,
     isHighSurrogate c = true -> isLowSurrogate lo = true ->
     isEmoji (codePoint c lo) = false ->
     P r (removeEmoji r) -> P (c :: lo :: r) (c :: lo :: removeEmoji r)) ->
  (forall c r,
     r <> [] -> isEmoji c = true ->
     P r (removeEmoji r) -> P (c :: r) (removeEmoji r)) ->
  (forall c r,
     r <> [] -> isEmoji c = false ->
     P r (removeEmoji r) -> P (c :: r) (c :: removeEmoji r)) ->
  forall s, P s (removeEmoji s).
Proof.
  intros Hnil H1e H1k Hpe Hpk Hue Huk s.
  assert (H : forall n s, (length s <= n)%nat -> P s (removeEmoji s)).
  { clear s. induction n as [|n IH]; intros s Hlen.
    - destruct s; [exact Hnil|cbn in Hlen; lia].
    - destruct s as [|c r]; [exact Hnil|].
      rewrite removeEmoji_unfold. destruct r as [|lo r'].
      + destruct (isEmoji c) eqn:He; [apply H1e|apply H1k]; exact He.
      + cbn [length] in Hlen.
        destruct (isHighSurrogate c && isLowSurrogate lo) eqn:Hpair.
        * apply andb_true_iff in Hpair. destruct Hpair as [Hh Hl].
          destruct (isEmoji (codePoint c lo)) eqn:He.
          -- apply Hpe; try assumption. apply IH. lia.
          -- apply Hpk; try assumption. apply IH. lia.
        * destruct (isEmoji c) eqn:He.
          -- apply Hue; [discriminate|exact He|]. apply IH. cbn [length]. lia.
          -- apply Huk; [discriminate|exact He|]. apply IH. cbn [length]. lia. }
  apply (H (length s)). lia.
Qed.

Lemma highSurrogate_plain (c : Z) :
  isHighSurrogate c = true -> isEmoji c = false.
Proof. unfold isHighSurrogate, isEmoji. lia. Qed.

Lemma removeEmoji_length (s : jsstring) :
  (length (removeEmoji s) <= length s)%nat.
Proof.
  apply (removeEmoji_cases (fun s r => (length r <= length s)%nat));
    intros; cbn [length] in *; lia.
Qed.

Lemma Forall_removeEmoji (Q : Z -> Prop) (s : jsstring) :
  Forall Q s -> Forall Q (removeEmoji s).
Proof.
  apply (removeEmoji_cases (fun s r => Forall Q s -> Forall Q r)).
  - intros H; exact H.
  - intros c _ _. constructor.
  - intros c _ H; exact H.
  - intros c lo r _ _ _ IH H. inversion H as [|? ? _ H']; subst.
    inversion H' as [|? ? _ H'']; subst. apply IH, H''.
  - intros c lo r _ _ _ IH H. inversion H as [|? ? Hc H']; subst.
    inversion H' as [|? ? Hlo H'']; subst.
    constructor; [exact Hc|]. constructor; [exact Hlo|]. apply IH, H''.
  - intros c r _ _ IH H. inversion H as [|? ? _ H']; subst. apply IH, H'.
  - intros c r _ _ IH H. inversion H as [|? ? Hc H']; subst.
    constructor; [exact Hc|]. apply IH, H'.
Qed.

Lemma removeEmoji_units (s : jsstring) :
  Forall (fun c => isEmoji c = false) (removeEmoji s).
Proof.
  apply (removeEmoji_cases (fun _ r => Forall (fun c => isEmoji c = false) r)).
  - constructor.
  - intros. constructor.
  - intros c H. constructor; [exact H|constructor].
  - intros c lo r _ _ _ IH. exact IH.
  - intros c lo r Hh Hl _ IH.
    constructor; [apply highSurrogate_plain, Hh|].
    constructor; [apply (lowSurrogate_plain lo Hl)|]. exact IH.
  - intros c r _ _ IH. exact IH.
  - intros c r _ H IH. constructor; [exact H|exact IH].
Qed.

Lemma collapseFrom_length (b : bool) (s : jsstring) :
  (length (collapseFrom b s) <= length s)%nat.
Proof.
  revert b. induction s as [|c s IH]; intros b; [reflexivity|].
  cbn [collapseFrom]. destruct (isSpace c), b; cbn [length];
    try (specialize (IH true); lia); specialize (IH false); lia.
Qed.

Lemma Forall_collapseFrom (Q : Z -> Prop) (b : bool) (s : jsstring) :
  Q 32 -> Forall Q s -> Forall Q (collapseFrom b s).
Proof.
  intros H32 H. revert b. induction H as [|c s Hc Hs IH]; intros b;
    [constructor|].
  cbn [collapseFrom]. destruct (isSpace c), b; try apply IH;
    constructor; try assumption; apply IH.
Qed.

Lemma collapseFrom_spaces (b : bool) (s : jsstring) :
  Forall (fun c => isSpace c = true -> c = 32) (collapseFrom b s).
Proof.
  revert b. induction s as [|c s IH]; intros b; [constructor|].
  cbn [collapseFrom]. destruct (isSpace c) eqn:Hc.
  - destruct b; [apply IH|]. constructor; [reflexivity|apply IH].
  - constructor; [congruence|apply IH].
Qed.

Lemma Forall_removeDangerous (Q : Z -> Prop) (s : jsstring) :
  Forall Q s -> Forall Q (removeDangerous s).
Proof.
  intros H. unfold removeDangerous. induction H as [|c s Hc Hs IH];
    [constructor|].
  cbn [List.filter]. destruct (negb (isDangerous c)); [constructor|]; assumption.
Qed.

Lemma removeDangerous_clean (s : jsstring) :
  Forall (fun c => isDangerous c = false) (removeDangerous s).
Proof.
  unfold removeDangerous. induction s as [|c s IH]; [constructor|].
  cbn [List.filter]. destruct (isDangerous c) eqn:Hc; cbn [negb];
    [exact IH|]. constructor; assumption.
Qed.

Lemma removeDangerous_length (s : jsstring) :
  (length (removeDangerous s) <= length s)%nat.
Proof. apply List.filter_length_le. Qed.

Lemma toHalfwidth_not_fullwidth (c : Z) : isFullwidth (toHalfwidth c) = false.
Proof.
  unfold isFullwidth, toHalfwidth.
  destruct ((65281 <=? c) && (c <=? 65374)) eqn:H; lia.
Qed.

Lemma toHalfwidth_not_emoji (c : Z) :
  isEmoji c = false -> isEmoji (toHalfwidth c) = false.
Proof.
  unfold isEmoji, toHalfwidth.
  destruct ((65281 <=? c) && (c <=? 65374)) eqn:H; lia.
Qed.

Lemma toHalfwidth_keeps_space (c : Z) :
  (isSpace c = true -> c = 32) ->
  isSpace (toHalfwidth c) = true -> toHalfwidth c = 32.
Proof.
  rewrite toHalfwidth_space. intros H Hs. rewrite (H Hs). reflexivity.
Qed.

Lemma preprocessText_length (x : jsstring) :
  (length (preprocessText x) <= length x)%nat.
Proof.
  unfold preprocessText, collapseSpaces.
  pose proof (trim_length x).
  pose proof (collapseFrom_length false (trim x)).
  pose proof (removeEmoji_length (collapseFrom false (trim x))).
  pose proof (trim_length (removeEmoji (collapseFrom false (trim x)))).
  pose proof (removeDangerous_length
                (trim (removeEmoji (collapseFrom false (trim x))))).
  pose proof (trim_length
                (List.map toHalfwidth
                   (removeDangerous
                      (trim (removeEmoji (collapseFrom false (trim x))))))) as H5.
  rewrite length_map in H5. lia.
Qed.

(** X14. What [preprocessText] returns, for any text: a string no longer
    than the text, with no white space at either end, in which every
    white-space code unit is a plain space (U+0020), no code unit belongs
    to the fullwidth block U+FF01..U+FF5E, and no code unit lies in the
    ranges of the emoji pattern.  (Code units are judged one by one: two
    surrogates can still spell an emoji, see
    [preprocessText_joins_surrogates].) *)
Theorem preprocessText_output (x : jsstring) :
  let y := preprocessText x in
  (length y <= length x)%nat
  /\ startsClean y = true /\ endsClean y = true
  /\ Forall (fun c => isSpace c = true -> c = 32) y
  /\ Forall (fun c => isFullwidth c = false) y
  /\ Forall (fun c => isEmoji c = false) y.
Proof.
  intros y. split; [apply preprocessText_length|].
  destruct (trim_clean
              (List.map toHalfwidth
                 (removeDangerous
                    (trim (removeEmoji (collapseSpaces (trim x)))))))
    as [Hs He].
  split; [exact Hs|]. split; [exact He|].
  subst y. unfold preprocessText.
  split; [|split].
  - apply Forall_trim, List.Forall_map.
    eapply List.Forall_impl; [intros c; apply toHalfwidth_keeps_space|].
    apply Forall_removeDangerous, Forall_trim, Forall_removeEmoji.
    apply collapseFrom_spaces.
  - apply Forall_trim, List.Forall_map.
    apply List.Forall_forall. intros c _. apply toHalfwidth_not_fullwidth.
  - apply Forall_trim, List.Forall_map.
    eapply List.Forall_impl; [intros c; apply toHalfwidth_not_emoji|].
    apply Forall_removeDangerous, Forall_trim, removeEmoji_units.
Qed.

(** Removing a dangerous character can join two surrogates into an
    emoji, which no later step removes. *)
Example preprocessText_joins_surrogates :
  preprocessText [55356; 60; 57225] = [55356; 57225]
  /\ removeEmoji [55356; 57225] = [].
Proof. vm_compute. split; reflexivity. Qed.

(** X15. When [preprocessText] leaves no dangerous character.  If no
    code unit of the text is the fullwidth form of a dangerous character,
    the result holds no dangerous character at all: the only dangerous
    characters [preprocessText] can return are those it makes itself out
    of fullwidth forms, after its removal step. *)
Theorem preprocessText_removes_dangerous (x : jsstring) :
  existsb fullwidthDangerous x = false ->
  existsb isDangerous (preprocessText x) = false.
Proof.
  intros Hx.
  assert (Hq : Forall (fun c => fullwidthDangerous c = false) x).
  { apply List.Forall_forall. intros c Hin.
    destruct (fullwidthDangerous c) eqn:Hc; [|reflexivity].
    rewrite <- Hx. symmetry. apply existsb_exists. exists c. split; assumption. }
  assert (Hy : Forall (fun c => isDangerous c = false) (preprocessText x)).
  { unfold preprocessText. apply Forall_trim, List.Forall_map.
    eapply List.Forall_impl with
      (P := fun c => isDangerous c = false /\ fullwidthDangerous c = false).
    - intros c [H1 H2]. unfold fullwidthDangerous in H2. rewrite H1 in H2.
      cbn [negb] in H2. rewrite andb_true_r in H2. exact H2.
    - apply Forall_and. split; [apply removeDangerous_clean|].
      apply Forall_removeDangerous, Forall_trim, Forall_removeEmoji.
      apply Forall_collapseFrom; [reflexivity|]. apply Forall_trim, Hq. }
  destruct (existsb isDangerous (preprocessText x)) eqn:He; [|reflexivity].
  apply existsb_exists in He. destruct He as (c & Hin & Hc).
  rewrite List.Forall_forall in Hy. rewrite (Hy c Hin) in Hc. discriminate.
Qed.

Lemma preprocessText_removes_dangerous_witness :
  let x := js " call <Bob>; then 'mail' " in
  existsb fullwidthDangerous x = false
  /\ preprocessText x = js "call Bob then mail"
  /\ existsb isDangerous (preprocessText x) = false.
Proof.
  split; [vm_compute; reflexivity|]. split; [vm_compute; reflexivity|].
  apply (preprocessText_removes_dangerous (js " call <Bob>; then 'mail' ")).
  vm_compute. reflexivity.
Defined.

End NormalizationOutput.

(** ** What [postprocess] returns *)

Module PostprocessOutput.
Import JsString JsDate Route ParseTodo StringSpec ParseSpec PostprocessSpec.
Import Automation StringFacts TitleRepair DateFacts DueDate.

Lemma defaultTitle_clean :
  len defaultTitle = 5 /\ startsClean defaultTitle = true
  /\ endsClean defaultTitle = true.
Proof. vm_compute. repeat split; reflexivity. Qed.

Lemma startsClean_app (a b : jsstring) :
  a <> [] -> startsClean (a ++ b) = startsClean a.
Proof. destruct a; [contradiction|reflexivity]. Qed.

(** The cut of a title of 100 code units that starts with no white
    space: either the whole of it (no white space inside), or a shorter,
    non-empty part of it. *)
Lemma truncated_body (w : jsstring) :
  startsClean w = true -> w <> [] ->
  let b := trim (dropLastWord w) in
  b <> [] /\ startsClean b = true /\ endsClean b = true
  /\ ((noSpace w = true /\ b = w)
      \/ (noSpace w = false /\ (length b < length w)%nat)).
Proof.
  intros Hw Hne b. subst b. destruct (noSpace w) eqn:Hn.
  - rewrite (dropLastWord_noSpace w Hn).
    rewrite (trim_id w Hw (noSpace_endsClean w Hn)).
    split; [exact Hne|]. split; [exact Hw|].
    split; [apply noSpace_endsClean, Hn|]. left. split; reflexivity.
  - destruct (dropLastWord_split w Hn)
      as (pre & sp & wd & Heq & Hsp & Hall & Hwd & Hpre & Hd).
    assert (Hpne : pre <> []).
    { intros ->. cbn [app] in Heq. rewrite Heq in Hw.
      destruct sp as [|c sp']; [contradiction|].
      cbn in Hall, Hw. apply andb_prop in Hall as [Hc _].
      rewrite Hc in Hw. discriminate. }
    assert (Hps : startsClean pre = true).
    { rewrite Heq in Hw. rewrite startsClean_app in Hw by exact Hpne. exact Hw. }
    rewrite Hd, (trim_id pre Hps Hpre).
    split; [exact Hpne|]. split; [exact Hps|]. split; [exact Hpre|].
    right. split; [reflexivity|]. rewrite Heq, !length_app.
    destruct sp; [contradiction|]. cbn [length]. lia.
Qed.

Lemma len_app (a b : jsstring) : len (a ++ b) = len a + len b.
Proof. unfold len. rewrite length_app. lia. Qed.

Lemma len_pos (s : jsstring) : s <> [] -> 1 <= len s.
Proof. unfold len. destruct s; [contradiction|]. cbn [length]. lia. Qed.

Lemma ellipsis_ends (b : jsstring) : endsClean (b ++ ellipsis) = true.
Proof. rewrite endsClean_app by discriminate. reflexivity. Qed.

(** The shapes of a repaired title. *)
Lemma repairTitle_shapes (raw : option jsstring) :
  repairTitle raw = defaultTitle
  \/ (exists r, raw = Some r /\ 2 <= len (trim r) <= 100
                /\ repairTitle raw = trim r)
  \/ (exists r w, raw = Some r /\ 100 < len (trim r)
                  /\ w = firstn 100 (trim r) /\ length w = 100%nat
                  /\ startsClean w = true
                  /\ repairTitle raw = trim (dropLastWord w) ++ ellipsis).
Proof.
  destruct raw as [r|]; [|left; reflexivity].
  destruct (Z.lt_ge_cases (len (trim r)) 2) as [Hs|Hs];
    [left; apply repairTitle_short, Hs|].
  destruct (Z.le_gt_cases (len (trim r)) 100) as [Hl|Hl].
  - right. left. exists r. split; [reflexivity|]. split; [lia|].
    apply repairTitle_keeps. lia.
  - right. right. exists r, (firstn 100 (trim r)).
    split; [reflexivity|]. split; [lia|]. split; [reflexivity|].
    split; [rewrite length_firstn; unfold len in Hl; lia|].
    split; [apply startsClean_firstn, trim_clean|].
    apply repairTitle_long. lia.
Qed.

(** X16. The title [postprocess] returns, whatever the model sent: it
    has between 2 and 101 code units and neither starts nor ends with
    white space; a title of 101 code units ends in the ellipsis. *)
Theorem postprocess_title (E : DateEnv) (raw : RawTodo) (nowStr : jsstring) :
  let t := title (postprocess E raw nowStr) in
  2 <= len t <= 101
  /\ startsClean t = true /\ endsClean t = true
  /\ (100 < len t -> exists body, t = body ++ ellipsis /\ len body = 100).
Proof.
  intros t. subst t. cbn [postprocess title].
  destruct (repairTitle_shapes (raw_title raw))
    as [->|[(r & _ & Hlen & ->)|(r & w & _ & Hlen & _ & Hwl & Hws & ->)]].
  - destruct defaultTitle_clean as (Hl & Hs & He). rewrite Hl.
    repeat split; try assumption; lia.
  - destruct (trim_clean r) as [Hs He].
    repeat split; try assumption; lia.
  - assert (Hne : w <> []) by (intros ->; discriminate).
    destruct (truncated_body w Hws Hne) as (Hb & Hbs & Hbe & Hcase).
    set (b := trim (dropLastWord w)) in *.
    pose proof (len_pos b Hb) as Hb1.
    rewrite len_app. change (len ellipsis) with 1.
    rewrite (startsClean_app b ellipsis Hb), ellipsis_ends.
    assert (Hbl : len b <= 100).
    { unfold len. destruct Hcase as [[_ ->]|[_ Hlt]]; lia. }
    repeat split; try assumption; try lia.
    intros H100. exists b. split; [reflexivity|lia].
Qed.

(** Repairing a repaired title changes nothing more. *)
Lemma repairTitle_fixed (raw : option jsstring) :
  repairTitle (Some (repairTitle raw)) = repairTitle raw.
Proof.
  destruct (repairTitle_shapes raw)
    as [->|[(r & _ & Hlen & ->)|(r & w & _ & Hlen & _ & Hwl & Hws & ->)]].
  - vm_compute. reflexivity.
  - rewrite repairTitle_keeps; rewrite trim_idempotent; [reflexivity|exact Hlen].
  - assert (Hne : w <> []) by (intros ->; discriminate).
    destruct (truncated_body w Hws Hne) as (Hb & Hbs & Hbe & Hcase).
    set (b := trim (dropLastWord w)) in *.
    assert (Htrim : trim (b ++ ellipsis) = b ++ ellipsis).
    { apply trim_id; [rewrite startsClean_app by exact Hb; exact Hbs|].
      apply ellipsis_ends. }
    pose proof (len_pos b Hb) as Hb1.
    destruct Hcase as [[Hn Hbw]|[Hn Hlt]].
    + rewrite repairTitle_long;
        rewrite Htrim; [|rewrite len_app; unfold len; rewrite Hbw, Hwl;
                         change (Z.of_nat (length ellipsis)) with 1; lia].
      rewrite Hbw.
      rewrite firstn_app, firstn_all2 by lia.
      replace (100 - length w)%nat with 0%nat by lia.
      cbn [firstn]. rewrite app_nil_r.
      fold b. rewrite Hbw. reflexivity.
    + rewrite repairTitle_keeps; rewrite Htrim; [reflexivity|].
      rewrite len_app. change (len ellipsis) with 1. unfold len in *. lia.
Qed.

(** X17. The priority [postprocess] returns is always one of high,
    medium and low: the model's value when it is one of the three, and
    medium for anything else, a missing value included. *)
Theorem postprocess_priority (E : DateEnv) (raw : RawTodo) (nowStr : jsstring) :
  let p := priority (postprocess E raw nowStr) in
  (p = js "high" \/ p = js "medium" \/ p = js "low")
  /\ (raw_priority raw = Some (js "high") -> p = js "high")
  /\ (raw_priority raw = Some (js "low") -> p = js "low")
  /\ (p <> js "medium" -> raw_priority raw = Some p).
Proof.
  intros p. subst p. cbn [postprocess priority].
  destruct (raw_priority raw) as [q|].
  2:{ split; [right; left; reflexivity|]. split; [discriminate|].
      split; [discriminate|]. intros H. contradiction H. reflexivity. }
  destruct (truthy (Some q)
            && bool_decide (q ∈ [js "high"; js "medium"; js "low"])) eqn:Hq.
  - apply andb_true_iff in Hq. destruct Hq as [_ Hq].
    apply bool_decide_eq_true in Hq.
    rewrite !elem_of_cons in Hq. rewrite elem_of_nil in Hq.
    split; [tauto|]. split; [intros [= ->]; reflexivity|].
    split; [intros [= ->]; reflexivity|]. intros _. reflexivity.
  - split; [right; left; reflexivity|].
    split; [intros [= ->]; vm_compute in Hq; discriminate|].
    split; [intros [= ->]; vm_compute in Hq; discriminate|].
    intros H. contradiction H. reflexivity.
Qed.

Lemma trim_nil_iff (s : jsstring) : trim s = [] <-> allSpace s = true.
Proof.
  unfold trim. rewrite trimEnd_nil_iff.
  rewrite (leadingSpaces_trimStart s) at 2. unfold allSpace.
  rewrite forallb_app. fold (allSpace (leadingSpaces s)).
  rewrite leadingSpaces_allSpace. reflexivity.
Qed.

Lemma trimOrNull_Some (x : option jsstring) (c : jsstring) :
  trimOrNull x = Some c
  <-> exists s, x = Some s /\ c = trim s /\ allSpace s = false.
Proof.
  unfold trimOrNull. destruct x as [s|]; cbn [fmap option_fmap option_map].
  - pose proof (trim_nil_iff s) as Hn.
    destruct (trim s) as [|a r] eqn:Ht.
    + split; [discriminate|]. intros (s' & [= <-] & _ & Hs).
      rewrite (proj1 Hn eq_refl) in Hs. discriminate.
    + split.
      * intros [= <-]. exists s. split; [reflexivity|].
        split; [symmetry; exact Ht|].
        destruct (allSpace s); [|reflexivity].
        discriminate (proj2 Hn eq_refl).
      * intros (s' & [= <-] & -> & _). rewrite Ht. reflexivity.
  - split; [discriminate|]. intros (s & [=] & _).
Qed.

Lemma trimOrNull_idempotent (x : option jsstring) :
  trimOrNull (trimOrNull x) = trimOrNull x.
Proof.
  destruct (trimOrNull x) as [c|] eqn:Hx; [|reflexivity].
  apply trimOrNull_Some in Hx. destruct Hx as (s & -> & -> & Hs).
  apply trimOrNull_Some. exists (trim s). split; [reflexivity|].
  split; [symmetry; apply trim_idempotent|].
  destruct (allSpace (trim s)) eqn:Ha; [|reflexivity].
  apply trim_nil_iff in Ha. rewrite trim_idempotent in Ha.
  apply trim_nil_iff in Ha. congruence.
Qed.

(** X18. The category and the description [postprocess] returns are
    never empty or blank strings: each is null when the model's value is
    null or consists of white space only, and the trimmed value
    otherwise, which starts and ends with no white space.  Cleaning a
    cleaned value changes nothing. *)
Theorem postprocess_optional_fields (E : DateEnv) (raw : RawTodo)
    (nowStr : jsstring) :
  let r := postprocess E raw nowStr in
  cleaned (raw_category raw) (category r)
  /\ cleaned (raw_description raw) (description r)
  /\ trimOrNull (category r) = category r
  /\ trimOrNull (description r) = description r.
Proof.
  intros r. subst r. cbn [postprocess category description].
  assert (H : forall x, cleaned x (trimOrNull x)).
  { intros x. split.
    - destruct (trimOrNull x) as [c|] eqn:Hx.
      + apply trimOrNull_Some in Hx. destruct Hx as (s & -> & _ & Hs).
        split; [discriminate|]. intros [[=]|(s' & [= <-] & Hs')]. congruence.
      + split; [|reflexivity]. intros _. destruct x as [s|]; [|left; reflexivity].
        right. exists s. split; [reflexivity|].
        destruct (allSpace s) eqn:Hs; [reflexivity|].
        assert (Hc : trimOrNull (Some s) = Some (trim s))
          by (apply trimOrNull_Some; exists s; repeat split; assumption).
        congruence.
    - intros c Hc. apply trimOrNull_Some in Hc.
      destruct Hc as (s & -> & -> & Hs).
      destruct (trim_clean s) as [H1 H2].
      split; [intros Hn; apply trim_nil_iff in Hn; congruence|].
      split; [exact H1|]. split; [exact H2|]. exists s. split; reflexivity. }
  split; [apply H|]. split; [apply H|].
  split; apply trimOrNull_idempotent.
Qed.

Lemma year_lt_time (a b : Z) : YearFromTime a < YearFromTime b -> a < b.
Proof.
  unfold YearFromTime. intros H.
  pose proof (YearFromDay_spec (Day a)) as [_ Ha].
  pose proof (YearFromDay_spec (Day b)) as [Hb _].
  pose proof (DayFromYear_mono (YearFromDay (Day a) + 1) (YearFromDay (Day b))
                ltac:(lia)) as Hm.
  assert (Hd : Day a < Day b) by lia.
  unfold Day, msPerDay in Hd. div_lia.
Qed.

Section WithEnv.
Variable E : DateEnv.

Lemma setFullYear_year (p y : Z) :
  exists p', setFullYear E (Some p) (Some y) = Some p'
    /\ YearFromTime (LocalTime E p') = y.
Proof.
  unfold setFullYear. eexists. split; [reflexivity|].
  rewrite LocalTime_UTC.
  destruct (month_date_spec (LocalTime E p)) as (Hm & Hd & _).
  apply YearFromTime_MakeDay; try assumption. apply TimeWithinDay_range.
Qed.

Lemma oneYearAfter_year (n : Z) :
  exists o, oneYearAfter E n = Some o
    /\ YearFromTime (LocalTime E o) = YearFromTime (LocalTime E n) + 1.
Proof.
  unfold oneYearAfter, getFullYear. cbn [fmap option_fmap option_map].
  apply setFullYear_year.
Qed.

Lemma repairDueAt_renders (s : jsstring) (p : Z) (now : Date) :
  newDate E s = Some p ->
  exists d, repairDueAt E (Some s) now = Some (serialize E (Some d))
    /\ (now = None -> d = p).
Proof.
  intros Hp. destruct now as [n|].
  - rewrite (repairDueAt_unfold E s p n Hp).
    destruct (dateGt (Some p) (oneYearAfter E n)).
    + unfold getFullYear. cbn [fmap option_fmap option_map].
      destruct (setFullYear_year p (YearFromTime (LocalTime E n)))
        as (d & -> & _).
      exists d. split; [reflexivity|discriminate].
    + exists p. split; [reflexivity|discriminate].
  - exists p. split; [|reflexivity]. unfold repairDueAt.
    assert (Hs : truthy (Some s) = true)
      by (destruct s; [discriminate|reflexivity]).
    rewrite Hs, Hp. reflexivity.
Qed.

Lemma repairDueAt_cases (raw : jsstring) (p n : Z) :
  newDate E raw = Some p ->
  exists d,
    repairDueAt E (Some raw) (Some n) = Some (serialize E (Some d))
    /\ (d = p
        \/ YearFromTime (LocalTime E d) = YearFromTime (LocalTime E n)
           /\ setFullYear E (Some p) (getFullYear E (Some n)) = Some d)
    /\ d <= p
    /\ dateGt (Some d) (oneYearAfter E n) = false.
Proof.
  intros Hp. rewrite (repairDueAt_unfold E raw p n Hp).
  destruct (oneYearAfter_year n) as (o & Ho & Hyear).
  rewrite Ho. unfold dateGt, dateLt.
  destruct (Z.ltb_spec o p) as [Hlt|Hge].
  - unfold getFullYear at 1. cbn [fmap option_fmap option_map].
    destruct (setFullYear_year p (YearFromTime (LocalTime E n)))
      as (d & Hd & Hy).
    rewrite Hd. exists d. split; [reflexivity|].
    split; [right; split; [exact Hy|exact Hd]|].
    assert (Hdo : LocalTime E d < LocalTime E o)
      by (apply year_lt_time; lia).
    unfold LocalTime in Hdo.
    split; [lia|apply Z.ltb_ge; lia].
  - exists p. split; [reflexivity|]. split; [left; reflexivity|].
    split; [lia|apply Z.ltb_ge; lia].
Qed.


(** X20. When [postprocess] returns a due date.  It returns one exactly
    when the model's due date is a string that parses to a date, and what
    it returns is the rendering of an instant in local time; when the
    reference string itself is not a date, the model's due date is
    rendered as it is, with no repair. *)
Theorem postprocess_due_at (raw : RawTodo) (nowStr : jsstring) :
  let r := postprocess E raw nowStr in
  (is_Some (due_at r)
   <-> exists s, raw_due_at raw = Some s /\ is_Some (newDate E s))
  /\ (forall s, due_at r = Some s ->
        exists d tail,
          s = numToString (Some (YearFromTime (LocalTime E d))) ++ tail
          /\ isDateTimeTail tail = true)
  /\ (newDate E nowStr = None ->
        forall s p, raw_due_at raw = Some s -> newDate E s = Some p ->
        due_at r = Some (serialize E (Some p))).
Proof.
  intros r. subst r. cbn [postprocess due_at].
  destruct (raw_due_at raw) as [s|].
  2:{ cbn [repairDueAt]. split.
      - split; [intros [? [=]]|intros (s & [=] & _)].
      - split; [discriminate|]. intros _ s p [=]. }
  destruct (newDate E s) as [p|] eqn:Hp.
  - destruct (repairDueAt_renders s p (newDate E nowStr) Hp)
      as (d & Hd & Hnone).
    rewrite Hd.
    split; [split; [intros _; exists s; rewrite Hp; split; [reflexivity|eexists; reflexivity]
                   |intros _; eexists; reflexivity]|].
    split.
    + intros s' [= <-]. destruct (serialize_shape E d) as (tail & Heq & Ht).
      exists d, tail. split; assumption.
    + intros Hn s' p' [= <-] Hp'. assert (Heq : p' = p) by congruence.
      rewrite Heq, (Hnone Hn). reflexivity.
  - assert (Hr : repairDueAt E (Some s) (newDate E nowStr) = None).
    { unfold repairDueAt. rewrite Hp. destruct (truthy (Some s)); reflexivity. }
    rewrite Hr. split.
    + split; [intros [? [=]]|]. intros (s' & [= <-] & [? Hx]). congruence.
    + split; [discriminate|]. intros _ s' p' [= <-]. congruence.
Qed.

End WithEnv.


End PostprocessOutput.

(** ** Runs of the parse-todo handler *)

Module ParseRuns.
Import JsString JsDate Route RouteSpec ParseTodo StringSpec ParseSpec.
Import ValidationSpec StringFacts ParseValidation ValidationChecks.
Import NormalizationOutput.

Lemma onError_cases {T} (message : jsstring) :
  @onError T message = errorResponse msgAuth 500
  \/ @onError T message = errorResponse msgQuota 429
  \/ @onError T message = errorResponse msgModel 500
  \/ @onError T message = errorResponse msgJson 500
  \/ @onError T message = errorResponse msgFailed 500.
Proof.
  unfold onError.
  destruct (includes message (js "API_KEY") || includes message (js "authentication")
            || includes message (js "API key")); [tauto|].
  destruct (includes message (js "quota")
            || includes message (js "RESOURCE_EXHAUSTED")
            || includes message (js "429")); [tauto|].
  destruct (includes message (js "model") || includes message (js "not found"));
    [tauto|].
  destruct (includes message (js "JSON") || includes message (js "parse")); tauto.
Qed.

Lemma validateInput_error_cases (text : option jsstring) (li : nat) :
  ok (validateInput text li).1 = false ->
  exists m, error (validateInput text li).1 = Some m
    /\ In m [msgNotString; msgEmpty; msgTooShort; msgTooLong; msgDangerous;
             msgEmojiOnly].
Proof.
  destruct text as [t|]; [|intros _; eexists; split; [reflexivity|cbn; tauto]].
  rewrite validateInput_unfold.
  destruct (len (trim t) =? 0);
    [intros _; eexists; split; [reflexivity|cbn; tauto]|].
  destruct (len (trim t) <? 2);
    [intros _; eexists; split; [reflexivity|cbn; tauto]|].
  destruct (500 <? len t);
    [intros _; eexists; split; [reflexivity|cbn; tauto]|].
  destruct ((testDangerous (trim t) li).1);
    [intros _; eexists; split; [reflexivity|cbn; tauto]|].
  destruct (len (trim (removeEmoji (trim t))) =? 0);
    [intros _; eexists; split; [reflexivity|cbn; tauto]|].
  discriminate.
Qed.

Lemma validateInput_ok_string (text : option jsstring) (li : nat) :
  ok (validateInput text li).1 = true ->
  exists t, text = Some t /\ len t <= 500.
Proof.
  destruct text as [t|]; [|discriminate].
  rewrite validateInput_unfold.
  destruct (len (trim t) =? 0); [discriminate|].
  destruct (len (trim t) <? 2); [discriminate|].
  destruct (Z.ltb_spec 500 (len t)); [discriminate|].
  intros _. exists t. split; [reflexivity|lia].
Qed.

Lemma POST_unfold (E : DateEnv) (clock : jsstring) (b : ParseTodoRequest)
    (li : nat) :
  POST E clock (Parsed b) li
  = let v := validateInput (text b) li in
    if negb (ok v.1)
    then (Answer (errorResponse (default [] (error v.1)) 400), v.2)
    else
      let cleanedText := preprocessText (default [] (text b)) in
      if len cleanedText <? 2
      then (Answer (errorResponse msgMeaningless 400), 0%nat)
      else
        let nowStr :=
          if truthy (currentLocalDateTime b)
          then default [] (currentLocalDateTime b)
          else clock in
        (GenerateObject
           {| promptNow := nowStr; promptText := cleanedText |}
           (fun reply =>
              match reply with
              | Generated raw => json (postprocess E raw nowStr)
              | Thrown message => onError message
              end),
         0%nat).
Proof.
  unfold POST, MIN_LENGTH. cbv zeta.
  destruct (validateInput (text b) li) as [v li']. reflexivity.
Qed.

(** X21. What the parse-todo handler sends to the model.  When a request
    reaches the model, whatever [lastIndex] the shared pattern had, its
    text was a string that [validateInput] accepted; the text in the
    prompt is [preprocessText] of it, has between 2 and 500 code units
    and no white space at either end; the reference time in the prompt is
    the request's [currentLocalDateTime] unless that is missing or empty,
    in which case it is the server's clock; and the pattern is left
    fresh. *)
Theorem parse_POST_prompt (E : DateEnv) (clock : jsstring)
    (b : ParseTodoRequest) (li : nat) (p : ParsePrompt) :
  promptOf (POST E clock (Parsed b) li).1 = Some p ->
  exists t,
    text b = Some t
    /\ ok (validateInput (Some t) li).1 = true
    /\ promptText p = preprocessText t
    /\ 2 <= len (promptText p) <= 500
    /\ startsClean (promptText p) = true /\ endsClean (promptText p) = true
    /\ promptNow p
       = match currentLocalDateTime b with
         | Some (c :: r) => c :: r
         | _ => clock
         end
    /\ (POST E clock (Parsed b) li).2 = 0%nat.
Proof.
  rewrite POST_unfold. cbv zeta.
  destruct (ok (validateInput (text b) li).1) eqn:Hok; cbn [negb];
    [|discriminate].
  destruct (validateInput_ok_string (text b) li Hok) as (t & Ht & Hlen).
  rewrite Ht in *. change (default [] (Some t)) with t.
  destruct (Z.ltb_spec (len (preprocessText t)) 2) as [Hlt|Hge];
    [cbn [fst promptOf]; discriminate|].
  cbn [fst snd promptOf]. intros [= <-]. cbn [promptText promptNow].
  exists t. split; [reflexivity|]. split; [exact Hok|].
  split; [reflexivity|].
  pose proof (preprocessText_length t) as Hpl.
  split; [unfold len in *; lia|].
  destruct (trim_clean
              (List.map toHalfwidth
                 (removeDangerous
                    (trim (removeEmoji (collapseSpaces (trim t)))))))
    as [Hs He].
  split; [exact Hs|]. split; [exact He|]. split; [|reflexivity].
  destruct (currentLocalDateTime b) as [[|c r]|]; reflexivity.
Qed.

(** X22. The responses of the parse-todo handler.  Every response has
    status 200, 400, 429 or 500.  The status is 200 exactly when the
    model was called and generated an object, and the payload is then
    [postprocess] of that object for the reference time of the prompt.
    The status is 400 exactly when the body was readable and the model
    was not called.  An error response carries one of the fixed messages
    of the route, never the text of the exception. *)
Theorem parse_POST_responses (E : DateEnv) (clock : jsstring)
    (body : Body ParseTodoRequest) (li : nat) (reply : ModelReply RawTodo) :
  let h := (POST E clock body li).1 in
  let r := respond h reply in
  (statusOf r = 200 \/ statusOf r = 400 \/ statusOf r = 429 \/ statusOf r = 500)
  /\ (forall o, r = json o
        <-> exists p raw, promptOf h = Some p /\ reply = Generated raw
                          /\ o = postprocess E raw (promptNow p))
  /\ (statusOf r = 400
      <-> invokesModel h = false /\ exists b, body = Parsed b)
  /\ (forall m s, r = errorResponse m s ->
        (s = 400
         /\ In m [msgNotString; msgEmpty; msgTooShort; msgTooLong;
                  msgDangerous; msgEmojiOnly; msgMeaningless])
        \/ (s = 429 /\ m = msgQuota)
        \/ (s = 500 /\ In m [msgAuth; msgModel; msgJson; msgFailed])).
Proof.
  intros h r. subst r h.
  assert (Herr : forall message : jsstring,
    let r := @onError ParsedTodoResult message in
    (statusOf r = 429 \/ statusOf r = 500)
    /\ (forall o, r <> json o)
    /\ (forall m s, r = errorResponse m s ->
          (s = 429 /\ m = msgQuota)
          \/ (s = 500 /\ In m [msgAuth; msgModel; msgJson; msgFailed]))).
  { intros message r. subst r.
    destruct (@onError_cases ParsedTodoResult message)
      as [->|[->|[->|[->| ->]]]]; cbn [statusOf];
      (split; [tauto|]); (split; [discriminate|]);
      intros m s [= <- <-]; cbn [In]; tauto. }
  destruct body as [b|message].
  2:{ cbn [POST fst respond invokesModel promptOf].
      destruct (Herr message) as (H1 & H2 & H3). cbv zeta in H1, H2, H3.
      split; [tauto|]. split.
      - intros o. split; [intros H; contradiction (H2 o H)|].
        intros (p & raw & [=] & _).
      - split; [split; [lia|intros (_ & b & [=])]|].
        intros m s H. specialize (H3 m s H). tauto. }
  rewrite POST_unfold. cbv zeta.
  destruct (ok (validateInput (text b) li).1) eqn:Hok; cbn [negb].
  - destruct (len (preprocessText (default [] (text b))) <? 2).
    + cbn [fst respond invokesModel promptOf statusOf].
      split; [tauto|]. split.
      * intros o. split; [discriminate|]. intros (p & raw & [=] & _).
      * split; [split; [intros _; split; [reflexivity|exists b; reflexivity]
                       |reflexivity]|].
        intros m s [= <- <-]. left. cbn [In]. tauto.
    + cbn [fst respond invokesModel promptOf].
      destruct reply as [raw|message].
      * cbn [statusOf]. split; [tauto|]. split.
        -- intros o. split.
           ++ intros [= <-]. eexists _, raw.
              split; [reflexivity|]. split; reflexivity.
           ++ intros (p & raw' & [= <-] & [= <-] & ->). reflexivity.
        -- split; [split; [discriminate|intros [[=] _]]|].
           intros m s [=].
      * destruct (Herr message) as (H1 & H2 & H3). cbv zeta in H1, H2, H3.
        split; [tauto|]. split.
        -- intros o. split; [intros H; contradiction (H2 o H)|].
           intros (p & raw & _ & [=] & _).
        -- split; [split; [lia|intros [[=] _]]|].
           intros m s H. specialize (H3 m s H). tauto.
  - destruct (validateInput_error_cases (text b) li Hok) as (m0 & Hm0 & Hin).
    rewrite Hm0. cbn [fst respond invokesModel promptOf statusOf default].
    split; [tauto|]. split.
    + intros o. split; [discriminate|]. intros (p & raw & [=] & _).
    + split; [split; [intros _; split; [reflexivity|exists b; reflexivity]
                     |reflexivity]|].
      intros m s [= <- <-]. left. split; [reflexivity|].
      cbn [In] in *. tauto.
Qed.

Lemma parse_POST_prompt_witness :
  let E := isoEnv 0 in
  let b := {| text := Some (js "  buy   milk tomorrow ");
              currentLocalDateTime := Some (js "2026-02-17T09:00") |} in
  promptOf (POST E [] (Parsed b) 3).1
  = Some {| promptNow := js "2026-02-17T09:00";
            promptText := js "buy milk tomorrow" |}
  /\ exists t, text b = Some t
       /\ 2 <= len (preprocessText t) <= 500
       /\ (POST E [] (Parsed b) 3).2 = 0%nat.
Proof.
  assert (H : promptOf (POST (isoEnv 0) []
                 (Parsed {| text := Some (js "  buy   milk tomorrow ");
                            currentLocalDateTime := Some (js "2026-02-17T09:00") |})
                 3).1
              = Some {| promptNow := js "2026-02-17T09:00";
                        promptText := js "buy milk tomorrow" |})
    by (vm_compute; reflexivity).
  split; [exact H|].
  destruct (parse_POST_prompt _ _ _ _ _ H)
    as (t & H1 & _ & H3 & H4 & _ & _ & _ & H8).
  exists t. cbn [promptText] in H3, H4. rewrite H3 in H4.
  repeat split; try assumption; lia.
Defined.

End ParseRuns.

(** ** Runs of the summarize-todos handler *)

Module SummarizeRuns.
Import JsString JsDate Route RouteSpec Summarize SummarizeSpec.

Lemma onError_kinds {T} (message : jsstring) :
  @onError T message = errorResponse msgAuth 500
  \/ @onError T message = errorResponse msgQuota 429
  \/ @onError T message = errorResponse msgFailed 500.
Proof.
  unfold onError.
  destruct (includes message (js "API_KEY") || includes message (js "authentication")
            || includes message (js "API key")); [tauto|].
  destruct (includes message (js "quota")
            || includes message (js "RESOURCE_EXHAUSTED")
            || includes message (js "429")); tauto.
Qed.

(** X23. The responses of the summarize-todos handler.  Every response
    has status 200, 400, 429 or 500.  The status is 200 exactly when the
    model was called and generated an object, and the payload is that
    object, unchanged.  A response of status 400 is given without calling
    the model, to a body that was readable.  An error response carries
    one of the fixed messages of the route, never the text of the
    exception. *)
Theorem summarize_POST_responses (E : DateEnv) (clock : jsstring)
    (body : Body SummarizeTodosRequest) (reply : ModelReply TodoSummary) :
  let h := POST E clock body in
  let r := respond h reply in
  (statusOf r = 200 \/ statusOf r = 400 \/ statusOf r = 429 \/ statusOf r = 500)
  /\ (forall o, r = json o <-> invokesModel h = true /\ reply = Generated o)
  /\ (statusOf r = 400 -> invokesModel h = false /\ exists b, body = Parsed b)
  /\ (forall m s, r = errorResponse m s ->
        (s = 400 /\ In m [msgTodosFormat; msgPeriod; msgNoTodos; msgTooMany])
        \/ (s = 429 /\ m = msgQuota)
        \/ (s = 500 /\ In m [msgAuth; msgFailed])).
Proof.
  intros h r. subst r h.
  assert (Herr : forall message : jsstring,
    let r := @onError TodoSummary message in
    (statusOf r = 429 \/ statusOf r = 500)
    /\ (forall o, r <> json o)
    /\ (forall m s, r = errorResponse m s ->
          (s = 429 /\ m = msgQuota) \/ (s = 500 /\ In m [msgAuth; msgFailed]))).
  { intros message r. subst r.
    destruct (@onError_kinds TodoSummary message) as [->|[->| ->]];
      cbn [statusOf]; (split; [tauto|]); (split; [discriminate|]);
      intros m s [= <- <-]; cbn [In]; tauto. }
  assert (Hfail : forall (message : jsstring) (Q : Prop),
    let r := @onError TodoSummary message in
    (statusOf r = 200 \/ statusOf r = 400 \/ statusOf r = 429 \/ statusOf r = 500)
    /\ (forall o, r = json o <-> false = true /\ reply = Generated o)
    /\ (statusOf r = 400 -> false = false /\ Q)
    /\ (forall m s, r = errorResponse m s ->
          (s = 400 /\ In m [msgTodosFormat; msgPeriod; msgNoTodos; msgTooMany])
          \/ (s = 429 /\ m = msgQuota)
          \/ (s = 500 /\ In m [msgAuth; msgFailed]))).
  { intros message Q. destruct (Herr message) as (H1 & H2 & H3).
    cbv zeta in *. split; [tauto|]. split.
    - intros o. split; [intros H; contradiction (H2 o H)|intros [[=] _]].
    - split; [lia|]. intros m s H. specialize (H3 m s H). tauto. }
  assert (Hbad : forall m0 : jsstring,
    In m0 [msgTodosFormat; msgPeriod; msgNoTodos; msgTooMany] ->
    forall Q : Prop, Q ->
    let r := @errorResponse TodoSummary m0 400 in
    (statusOf r = 200 \/ statusOf r = 400 \/ statusOf r = 429 \/ statusOf r = 500)
    /\ (forall o, r = json o <-> false = true /\ reply = Generated o)
    /\ (statusOf r = 400 -> false = false /\ Q)
    /\ (forall m s, r = errorResponse m s ->
          (s = 400 /\ In m [msgTodosFormat; msgPeriod; msgNoTodos; msgTooMany])
          \/ (s = 429 /\ m = msgQuota)
          \/ (s = 500 /\ In m [msgAuth; msgFailed]))).
  { intros m0 Hin Q HQ r. subst r. cbn [statusOf]. split; [tauto|]. split.
    - intros o. split; [discriminate|intros [[=] _]].
    - split; [intros _; split; [reflexivity|exact HQ]|].
      intros m s [= <- <-]. left. split; [reflexivity|exact Hin]. }
  destruct body as [b|message];
    [|cbn [POST respond invokesModel]; apply Hfail].
  assert (HQ : exists b', Parsed b = Parsed b') by (exists b; reflexivity).
  cbn [POST].
  destruct (todos b) as [|items];
    [cbn [respond invokesModel]; apply Hbad; [cbn [In]; tauto|exact HQ]|].
  destruct (parsePeriod (period b)) as [per|];
    [|cbn [respond invokesModel]; apply Hbad; [cbn [In]; tauto|exact HQ]].
  destruct (Z.of_nat (length items) =? 0);
    [cbn [respond invokesModel]; apply Hbad; [cbn [In]; tauto|exact HQ]|].
  destruct (200 <? Z.of_nat (length items));
    [cbn [respond invokesModel]; apply Hbad; [cbn [In]; tauto|exact HQ]|].
  destruct (buildStatsBlock _ per) as [prompt|message];
    [|cbn [respond invokesModel]; apply Hfail].
  cbn [respond invokesModel]. destruct reply as [o'|message].
  - cbn [statusOf]. split; [tauto|]. split.
    + intros o. split; [intros [= <-]; split; reflexivity|].
      intros [_ [= <-]]. reflexivity.
    + split; [discriminate|]. intros m s [=].
  - destruct (Herr message) as (H1 & H2 & H3). cbv zeta in *.
    split; [tauto|]. split.
    + intros o. split; [intros H; contradiction (H2 o H)|intros [_ [=]]].
    + split; [lia|]. intros m s H. specialize (H3 m s H). tauto.
Qed.

End SummarizeRuns.

(** ** The reference time from the client to the server *)

Module ClientClock.
Import JsString JsDate StringSpec ParseSpec ClockSpec Automation DateFacts DueDate.
Import SummarizePeriods.

Lemma year_reads_table :
  holdsFrom yearReadsBack 1000 (Z.to_nat 9000) = true.
Proof. vm_compute. reflexivity. Qed.

Lemma pad_reads_table : holdsFrom padReadsBack 0 (Z.to_nat 100) = true.
Proof. vm_compute. reflexivity. Qed.

Lemma year_reads_back (y : Z) :
  1000 <= y <= 9999 ->
  exists a b c d,
    numToString (Some y) = [a; b; c; d] /\ digits4 a b c d = Some y.
Proof.
  intros Hy.
  pose proof (holdsFrom_spec _ _ _ year_reads_table y ltac:(lia)) as H.
  unfold yearReadsBack in H.
  destruct (numToString (Some y)) as [|a [|b [|c [|d [|? ?]]]]];
    try discriminate.
  exists a, b, c, d. split; [reflexivity|].
  destruct (digits4 a b c d) as [v|]; [|discriminate].
  apply Z.eqb_eq in H. congruence.
Qed.

Lemma pad_reads_back (v : Z) :
  0 <= v <= 99 ->
  exists a b, Client.pad (Some v) = [a; b] /\ digits2 a b = Some v.
Proof.
  intros Hv.
  pose proof (holdsFrom_spec _ _ _ pad_reads_table v ltac:(lia)) as H.
  unfold padReadsBack in H. unfold Client.pad.
  destruct (padStart0 2 (numToString (Some v))) as [|a [|b [|? ?]]];
    try discriminate.
  exists a, b. split; [reflexivity|].
  destruct (digits2 a b) as [w|]; [|discriminate].
  apply Z.eqb_eq in H. congruence.
Qed.

Lemma DateFromTime_le (t : Z) :
  DateFromTime t <= daysInMonth (YearFromTime t) (MonthFromTime t).
Proof.
  pose proof (DayWithinYear_range t) as Hd.
  unfold DateFromTime, MonthFromTime, daysInMonth, leapDays in *.
  set (d := DayWithinYear t) in *.
  destruct (isLeap (YearFromTime t)); cbv zeta;
    repeat match goal with
           | |- context [?a <? ?b] => destruct (Z.ltb_spec a b)
           end; unfold monthStart; simpl; lia.
Qed.

Lemma isoParse_local (tza y m d h n : Z)
    (y1 y2 y3 y4 m1 m2 d1 d2 h1 h2 n1 n2 : Z) :
  digits4 y1 y2 y3 y4 = Some y -> digits2 m1 m2 = Some (m + 1) ->
  digits2 d1 d2 = Some d -> digits2 h1 h2 = Some h -> digits2 n1 n2 = Some n ->
  0 <= m <= 11 -> 1 <= d <= daysInMonth y m -> 0 <= h < 24 -> 0 <= n < 60 ->
  isoParse tza [y1; y2; y3; y4; 45; m1; m2; 45; d1; d2; 84; h1; h2; 58; n1; n2]
  = Some (MakeDate (MakeDay y m d) (h * msPerHour + n * msPerMinute) - tza).
Proof.
  intros Hy Hm Hd Hh Hn Rm Rd Rh Rn.
  unfold isoParse. rewrite Hy, Hm, Hd, Hh, Hn.
  cbn [mbind option_bind].
  replace (m + 1 - 1) with m by lia.
  assert (C1 : (1 <=? m + 1) && (m + 1 <=? 12) && (1 <=? d)
               && (d <=? daysInMonth y m) = true) by lia.
  rewrite C1.
  assert (C2 : (h <? 24) && (n <? 60) = true) by lia.
  cbn [parseSeconds parseZone mbind option_bind default].
  rewrite C2, Z.add_0_r. reflexivity.
Qed.

Lemma startOfMinute_parts (t : Z) :
  MakeDate (Day t) (HourFromTime t * msPerHour + MinFromTime t * msPerMinute)
  = startOfMinute t.
Proof.
  unfold MakeDate, Day, HourFromTime, MinFromTime, startOfMinute,
    msPerDay, msPerHour, msPerMinute.
  div_lia.
Qed.

Lemma Day_startOfMinute (t : Z) : Day (startOfMinute t) = Day t.
Proof. unfold Day, startOfMinute, msPerDay, msPerMinute. div_lia. Qed.

Lemma HourFromTime_startOfMinute (t : Z) :
  HourFromTime (startOfMinute t) = HourFromTime t.
Proof. unfold HourFromTime, startOfMinute, msPerHour, msPerMinute. div_lia. Qed.

Lemma MinFromTime_startOfMinute (t : Z) :
  MinFromTime (startOfMinute t) = MinFromTime t.
Proof. unfold MinFromTime, startOfMinute, msPerMinute. div_lia. Qed.

(** The calendar fields of a time value depend on its day only. *)
Lemma same_day_fields (a b : Z) :
  Day a = Day b ->
  YearFromTime a = YearFromTime b /\ MonthFromTime a = MonthFromTime b
  /\ DateFromTime a = DateFromTime b /\ WeekDay a = WeekDay b.
Proof.
  intros H.
  unfold DateFromTime, MonthFromTime, leapDays, DayWithinYear, YearFromTime,
    WeekDay.
  rewrite H. repeat split; reflexivity.
Qed.

Lemma getCurrentLocalDateTime_fields (E1 E2 : DateEnv) (a b : Z) :
  Day (LocalTime E1 a) = Day (LocalTime E2 b) ->
  HourFromTime (LocalTime E1 a) = HourFromTime (LocalTime E2 b) ->
  MinFromTime (LocalTime E1 a) = MinFromTime (LocalTime E2 b) ->
  Client.getCurrentLocalDateTime E1 (Some a)
  = Client.getCurrentLocalDateTime E2 (Some b).
Proof.
  intros Hd Hh Hm. destruct (same_day_fields _ _ Hd) as (Hy & Hmo & Hda & _).
  unfold Client.getCurrentLocalDateTime, getFullYear, getMonth, getDate,
    getHours, getMinutes.
  cbn [fmap option_fmap option_map]. rewrite Hy, Hmo, Hda, Hh, Hm. reflexivity.
Qed.

(** The client's string, made in a zone [tzC] east of UTC, parsed in a
    zone [tzS] east of UTC. *)
Lemma getCurrentLocalDateTime_isoParse (tzC tzS n : Z) :
  1000 <= YearFromTime (n + tzC) <= 9999 ->
  isoParse tzS (Client.getCurrentLocalDateTime (isoEnv tzC) (Some n))
  = Some (startOfMinute (n + tzC) - tzS)
  /\ Client.getCurrentLocalDateTime (isoEnv tzC) (Some n) <> []
  /\ firstn 10 (Client.getCurrentLocalDateTime (isoEnv tzC) (Some n))
     = Summarize.todayStrOf (isoEnv tzC) (Some n)
  /\ length (Client.getCurrentLocalDateTime (isoEnv tzC) (Some n)) = 16%nat.
Proof.
  intros Hy.
  unfold Client.getCurrentLocalDateTime, Summarize.todayStrOf, Summarize.pad2,
    getFullYear, getMonth, getDate, getHours, getMinutes.
  cbn [fmap option_fmap option_map].
  change (LocalTime (isoEnv tzC) n) with (n + tzC).
  set (t := n + tzC) in *.
  destruct (month_date_spec t) as (Hm & Hd & _).
  pose proof (DateFromTime_le t) as Hdm.
  pose proof (HourFromTime_bounds t) as Hh.
  pose proof (MinFromTime_range t) as Hn.
  destruct (year_reads_back _ Hy) as (y1 & y2 & y3 & y4 & -> & Ry).
  destruct (pad_reads_back (MonthFromTime t + 1) ltac:(lia))
    as (m1 & m2 & Pm & Rm).
  destruct (pad_reads_back (DateFromTime t) ltac:(lia)) as (d1 & d2 & Pd & Rd).
  destruct (pad_reads_back (HourFromTime t) ltac:(lia)) as (h1 & h2 & Ph & Rh).
  destruct (pad_reads_back (MinFromTime t) ltac:(lia)) as (n1 & n2 & Pn & Rn).
  unfold Client.pad in Pm, Pd, Ph, Pn. unfold Client.pad.
  rewrite Pm, Pd, Ph, Pn.
  cbn [js list_ascii_of_string List.map app firstn].
  change (Z.of_N (N_of_ascii "-")) with 45.
  change (Z.of_N (N_of_ascii "T")) with 84.
  change (Z.of_N (N_of_ascii ":")) with 58.
  split; [|split; [discriminate|split; reflexivity]].
  rewrite (isoParse_local tzS _ _ _ _ _ _ _ _ _ _ _ _ _ _ _ _ _
             Ry Rm Rd Rh Rn Hm ltac:(lia) Hh Hn).
  rewrite Day_of_local, startOfMinute_parts. reflexivity.
Qed.

Lemma getCurrentLocalDateTime_newDate (tzC tzS n : Z) :
  1000 <= YearFromTime (n + tzC) <= 9999 ->
  newDate (isoEnv tzS) (Client.getCurrentLocalDateTime (isoEnv tzC) (Some n))
  = Some (startOfMinute (n + tzC) - tzS).
Proof.
  intros Hy.
  destruct (getCurrentLocalDateTime_isoParse tzC tzS n Hy) as (Hp & Hne & _).
  unfold newDate. revert Hp Hne.
  generalize (Client.getCurrentLocalDateTime (isoEnv tzC) (Some n)).
  intros [|c r] Hp Hne; [contradiction|exact Hp].
Qed.






End ClientClock.

(** ** The statistics of the summary section *)

Module ClientStatsFacts.
Import JsString JsNumber JsDate Summarize SummarizeSpec ParseSpec ClockSpec.
Import ClientStats ClientSpec Automation DateFacts SummarizeTotals.
Import SummarizeOverdue SummarizePeriods ClientClock.

Lemma toSummaryInput_map (todos : list ClientTodo.Todo) :
  toSummaryInput todos = List.map summaryOf todos.
Proof. reflexivity. Qed.

Lemma filter_map_comm {A B} (f : A -> B) (p : B -> bool) (l : list A) :
  List.filter p (List.map f l) = List.map f (List.filter (fun a => p (f a)) l).
Proof.
  induction l as [|a l IH]; [reflexivity|].
  cbn [List.map List.filter]. destruct (p (f a)); cbn [List.map]; rewrite IH;
    reflexivity.
Qed.

Lemma filter_and {A} (p q : A -> bool) (l : list A) :
  List.filter (fun a => p a && q a) l = List.filter p (List.filter q l).
Proof.
  induction l as [|a l IH]; [reflexivity|].
  cbn [List.filter]. destruct (q a) eqn:Hq, (p a) eqn:Hp;
    cbn [List.filter andb]; rewrite ?Hp, ?IH; reflexivity.
Qed.

Lemma In_take {A} (x : A) (n : nat) (l : list A) :
  In x (firstn n l) -> In x l.
Proof.
  revert n. induction l as [|a l IH]; intros [|n]; cbn; try tauto.
  intros [->|H]; [left; reflexivity|right; apply (IH n H)].
Qed.

Section WithEnv.
Variable E : DateEnv.

Lemma LocalTime_inj (a b : Z) : LocalTime E a = LocalTime E b -> a = b.
Proof. unfold LocalTime. lia. Qed.

(** The week window depends on the local day of the reference only. *)
Lemma weekMondayOf_same_day (a b : Z) :
  Day (LocalTime E a) = Day (LocalTime E b) ->
  weekMondayOf E (Some a) = weekMondayOf E (Some b).
Proof.
  intros Hd.
  destruct (weekWindow_spec E a) as (ma & _ & -> & _ & Ha & _).
  destruct (weekWindow_spec E b) as (mb & _ & -> & _ & Hb & _).
  f_equal. apply LocalTime_inj. rewrite Ha, Hb.
  destruct (same_day_fields _ _ Hd) as (_ & _ & _ & ->). rewrite Hd.
  reflexivity.
Qed.

Lemma weekTodos_dueInWeek (todos : list ClientTodo.Todo) (now : Date) :
  weekTodos E todos now
  = List.filter
      (fun t =>
         dueInWeek E (weekMondayOf E now) (weekSundayOf E (weekMondayOf E now))
           (summaryOf t)) todos.
Proof.
  unfold weekTodos. apply filter_ext. intros t.
  unfold dueInWeek, summaryOf. cbn [Todo.due_at].
  destruct (ClientTodo.due_at t) as [s|]; [|reflexivity].
  cbv zeta. rewrite andb_assoc. reflexivity.
Qed.

(** Every todo of the week has a due time that is a date. *)
Lemma weekTodos_valid (todos : list ClientTodo.Todo) (now : Date)
    (t : ClientTodo.Todo) :
  In t (weekTodos E todos now) ->
  exists s d, ClientTodo.due_at t = Some s /\ truthy (Some s) = true
              /\ newDate E s = Some d.
Proof.
  unfold weekTodos. intros H. apply List.filter_In in H. destruct H as [_ H].
  destruct (ClientTodo.due_at t) as [s|]; [|discriminate].
  apply andb_true_iff in H. destruct H as [Hs H]. cbv zeta in H.
  apply andb_true_iff in H. destruct H as [H _].
  unfold dateGe, dateLe in H.
  destruct (weekMondayOf E now); cbn in H.
  - destruct (newDate E s) as [d|] eqn:Hd; [|destruct (setHours _ _ _ _ _ _); discriminate].
    exists s, d. repeat split; assumption.
  - destruct (newDate E s) as [d|] eqn:Hd; [exists s, d; repeat split; assumption|].
    destruct (setHours _ _ _ _ _ _); discriminate.
Qed.

Lemma sumTotals_alter (t : ClientTodo.Todo) (l : list DayStat.t) (i : nat) :
  (i < length l)%nat ->
  let l' :=
    alter
      (fun e =>
         {| DayStat.name := DayStat.name e;
            DayStat.total := DayStat.total e + 1;
            DayStat.completed :=
              DayStat.completed e + (if ClientTodo.completed t then 1 else 0) |})
      i l in
  sumTotals l' = sumTotals l + 1
  /\ sumCompleted l'
     = sumCompleted l + (if ClientTodo.completed t then 1 else 0)
  /\ List.map DayStat.name l' = List.map DayStat.name l.
Proof.
  revert i. induction l as [|e l IH]; intros i Hi; [cbn in Hi; lia|].
  destruct i as [|i].
  - cbn. repeat split; lia.
  - cbn [length] in Hi. specialize (IH i ltac:(lia)). cbv zeta in IH.
    destruct IH as (H1 & H2 & H3).
    cbn [alter list_alter sumTotals sumCompleted fold_right List.map] in *.
    fold (sumTotals l) in *. fold (sumCompleted l) in *.
    unfold sumTotals, sumCompleted in *.
    rewrite H1, H2, H3. repeat split; lia.
Qed.

Lemma indexOf_DAY_ORDER (d : Z) :
  0 <= d < 7 -> exists i, indexOf DAY_ORDER d = Some i /\ (i < 7)%nat.
Proof.
  intros Hd.
  assert (d = 0 \/ d = 1 \/ d = 2 \/ d = 3 \/ d = 4 \/ d = 5 \/ d = 6)
    as [->|[->|[->|[->|[->|[->| ->]]]]]] by lia;
    eexists; (split; [vm_compute; reflexivity|lia]).
Qed.

Lemma dayStep_sums (t : ClientTodo.Todo) (l : list DayStat.t) :
  length l = 7%nat ->
  (exists s d, ClientTodo.due_at t = Some s /\ truthy (Some s) = true
               /\ newDate E s = Some d) ->
  sumTotals (dayStep E l t) = sumTotals l + 1
  /\ sumCompleted (dayStep E l t)
     = sumCompleted l + (if ClientTodo.completed t then 1 else 0)
  /\ List.map DayStat.name (dayStep E l t) = List.map DayStat.name l.
Proof.
  intros Hlen (s & d & Hs & Ht & Hd). unfold dayStep.
  rewrite Hs, Ht, Hd. cbn [getDay fmap option_fmap option_map].
  destruct (indexOf_DAY_ORDER (WeekDay (LocalTime E d)))
    as (i & -> & Hi); [apply SummarizeDistributions.WeekDay_range|].
  apply sumTotals_alter. lia.
Qed.

Lemma dayStep_fold (ts : list ClientTodo.Todo) (l : list DayStat.t) :
  length l = 7%nat ->
  (forall t, In t ts ->
     exists s d, ClientTodo.due_at t = Some s /\ truthy (Some s) = true
                 /\ newDate E s = Some d) ->
  let l' := fold_left (dayStep E) ts l in
  sumTotals l' = sumTotals l + Z.of_nat (length ts)
  /\ sumCompleted l'
     = sumCompleted l + Z.of_nat (length (List.filter ClientTodo.completed ts))
  /\ List.map DayStat.name l' = List.map DayStat.name l.
Proof.
  revert l. induction ts as [|t ts IH]; intros l Hlen Hv.
  - cbn [fold_left length List.filter]. cbv zeta.
    change (Z.of_nat 0) with 0. rewrite !Z.add_0_r. repeat split; reflexivity.
  - cbn [fold_left]. cbv zeta.
    destruct (dayStep_sums t l Hlen (Hv t (or_introl eq_refl)))
      as (H1 & H2 & H3).
    assert (Hlen' : length (dayStep E l t) = 7%nat).
    { rewrite <- (length_map DayStat.name), H3, length_map. exact Hlen. }
    specialize (IH (dayStep E l t) Hlen' (fun t' Hin => Hv t' (or_intror Hin))).
    cbv zeta in IH. destruct IH as (I1 & I2 & I3).
    rewrite I1, I2, I3, H1, H2, H3. cbn [List.filter length].
    destruct (ClientTodo.completed t); cbn [length]; repeat split; lia.
Qed.

(** X26. The week statistics of the summary section: the distribution
    over the days has seven entries, named Monday first and Sunday last;
    its totals add up to the number of todos of the week and its
    completed counts to the number of completed ones, so no todo of the
    week is left out of the chart; and the completed todos never exceed
    the total. *)
Theorem computeWeekStats_dayDist (todos : list ClientTodo.Todo) (now : Date) :
  let ws := computeWeekStats E todos now in
  List.map DayStat.name (WeekStats.dayDist ws) = mondayFirst
  /\ sumTotals (WeekStats.dayDist ws) = WeekStats.total ws
  /\ sumCompleted (WeekStats.dayDist ws) = WeekStats.completed ws
  /\ 0 <= WeekStats.completed ws <= WeekStats.total ws
  /\ WeekStats.total ws <= Z.of_nat (length todos).
Proof.
  intros ws. subst ws.
  cbn [computeWeekStats WeekStats.dayDist WeekStats.total WeekStats.completed].
  match goal with
  | |- context [fold_left (dayStep E) ?ts ?l0] =>
      destruct (dayStep_fold ts l0 eq_refl (weekTodos_valid todos now))
        as (H1 & H2 & H3)
  end.
  cbv zeta in H1, H2, H3. rewrite H1, H2, H3.
  split; [reflexivity|]. split; [cbn; lia|]. split; [cbn; lia|].
  pose proof (List.filter_length_le ClientTodo.completed (weekTodos E todos now)).
  assert (length (weekTodos E todos now) <= length todos)%nat
    by (unfold weekTodos; apply List.filter_length_le).
  lia.
Qed.

(** X27. The today statistics of the summary section: completed and
    remaining todos make up the total; at most three urgent todos are
    shown, each of them a remaining todo of high priority; every
    remaining todo is an open todo of the list whose due time falls on
    the local day of the clock. *)
Theorem computeTodayStats_invariants (todos : list ClientTodo.Todo)
    (now : Date) :
  let s := computeTodayStats E todos now in
  TodayStats.completed s + Z.of_nat (length (TodayStats.allRemaining s))
  = TodayStats.total s
  /\ TodayStats.completionRate s
     = percentage (TodayStats.completed s) (TodayStats.total s)
  /\ (length (TodayStats.urgentRemaining s) <= 3)%nat
  /\ (forall t, In t (TodayStats.urgentRemaining s) ->
        In t (TodayStats.allRemaining s) /\ ClientTodo.priority t = high)
  /\ (forall t, In t (TodayStats.allRemaining s) ->
        In t todos /\ ClientTodo.completed t = false
        /\ exists d, ClientTodo.due_at t = Some d
                     /\ ClientStats.isSameLocalDay E d now = true)
  /\ 0 <= TodayStats.overdueCount s <= Z.of_nat (length todos).
Proof.
  intros s. subst s.
  cbn [computeTodayStats TodayStats.completed TodayStats.allRemaining
       TodayStats.total TodayStats.completionRate TodayStats.urgentRemaining
       TodayStats.overdueCount].
  set (today := List.filter _ todos).
  split.
  { clear. induction today as [|t l IH]; [reflexivity|].
    cbn [List.filter length]. destruct (ClientTodo.completed t);
      cbn [negb length]; lia. }
  split; [reflexivity|].
  split; [rewrite length_firstn; lia|].
  split.
  { intros t Hin. apply In_take in Hin.
    apply List.filter_In in Hin. destruct Hin as [Hin Hp].
    split; [exact Hin|]. apply bool_decide_eq_true in Hp. exact Hp. }
  split.
  { intros t Hin. apply List.filter_In in Hin. destruct Hin as [Hin Hc].
    subst today. apply List.filter_In in Hin. destruct Hin as [Hin Hd].
    split; [exact Hin|]. split; [destruct (ClientTodo.completed t); [discriminate|reflexivity]|].
    destruct (ClientTodo.due_at t) as [d|]; [|discriminate].
    exists d. split; [reflexivity|].
    apply andb_true_iff in Hd. apply Hd. }
  pose proof (List.filter_length_le (overdueAt E now) todos). lia.
Qed.

End WithEnv.

(** X28. The week of the summary section and the week of the server
    agree.  When the section computes its week statistics and the request
    is sent on the same local day, in the same time zone, the week list the
    server computes from the request holds exactly the todos of the
    client's week, in the same order; so the client's weekly total and
    completed count are the length of the server's week list and its
    count of todos completed this week. *)
Theorem computeWeekStats_agrees_with_server (tza n1 n2 : Z)
    (todos : list ClientTodo.Todo) :
  1000 <= YearFromTime (LocalTime (isoEnv tza) n2) <= 9999 ->
  Day (LocalTime (isoEnv tza) n1) = Day (LocalTime (isoEnv tza) n2) ->
  let E := isoEnv tza in
  let ws := computeWeekStats E todos (Some n1) in
  let st := computeStats E (toSummaryInput todos)
              (Client.getCurrentLocalDateTime E (Some n2)) in
  weekTasks st = toSummaryInput (weekTodos E todos (Some n1))
  /\ WeekStats.total ws = Z.of_nat (length (weekTasks st))
  /\ WeekStats.completed ws = completedThisWeek st.
Proof.
  intros Hy Hday E ws st.
  change (LocalTime (isoEnv tza) n2) with (n2 + tza) in Hy.
  pose proof (getCurrentLocalDateTime_newDate tza tza n2 Hy) as Hnow.
  fold E in Hnow.
  assert (Hmon : weekMondayOf E (Some (startOfMinute (n2 + tza) - tza))
                 = weekMondayOf E (Some n1)).
  { apply weekMondayOf_same_day.
    replace (LocalTime E (startOfMinute (n2 + tza) - tza))
      with (startOfMinute (LocalTime E n2))
      by (unfold LocalTime; cbn [LocalTZA E isoEnv]; lia).
    rewrite Day_startOfMinute. symmetry. exact Hday. }
  assert (Hw : weekTasks st = toSummaryInput (weekTodos E todos (Some n1))).
  { subst st. cbn [computeStats weekTasks]. rewrite Hnow, Hmon.
    rewrite weekTodos_dueInWeek, !toSummaryInput_map.
    apply filter_map_comm. }
  split; [exact Hw|].
  split.
  - rewrite Hw, toSummaryInput_map, length_map. reflexivity.
  - subst st ws. cbn [computeStats completedThisWeek computeWeekStats
                      WeekStats.completed].
    rewrite Hnow, Hmon. unfold countIf.
    rewrite toSummaryInput_map, filter_map_comm, length_map.
    rewrite weekTodos_dueInWeek, <- filter_and. reflexivity.
Qed.

Lemma computeWeekStats_agrees_with_server_witness :
  let E := isoEnv (9 * msPerHour) in
  let todos := [dueOn "2026-02-18T20:00:00.000Z" true;
                dueOn "2026-03-01T00:00:00.000Z" false] in
  let st := computeStats E (toSummaryInput todos)
              (Client.getCurrentLocalDateTime E (Some 1771318812345)) in
  1000 <= YearFromTime (LocalTime E 1771318812345) <= 9999
  /\ Day (LocalTime E 1771318800000) = Day (LocalTime E 1771318812345)
  /\ weekTasks st = toSummaryInput [dueOn "2026-02-18T20:00:00.000Z" true]
  /\ WeekStats.total (computeWeekStats E todos (Some 1771318800000)) = 1
  /\ completedThisWeek st = 1.
Proof.
  assert (Hy : 1000 <= YearFromTime (LocalTime (isoEnv (9 * msPerHour))
                                      1771318812345) <= 9999)
    by (vm_compute; split; discriminate).
  assert (Hd : Day (LocalTime (isoEnv (9 * msPerHour)) 1771318800000)
               = Day (LocalTime (isoEnv (9 * msPerHour)) 1771318812345))
    by (vm_compute; reflexivity).
  split; [exact Hy|]. split; [exact Hd|].
  pose proof (computeWeekStats_agrees_with_server (9 * msPerHour)
                1771318800000 1771318812345
                [dueOn "2026-02-18T20:00:00.000Z" true;
                 dueOn "2026-03-01T00:00:00.000Z" false] Hy Hd) as H.
  cbv zeta in H. destruct H as (H1 & H2 & H3).
  split; [rewrite H1; vm_compute; reflexivity|].
  split; [vm_compute; reflexivity|].
  rewrite <- H3. vm_compute. reflexivity.
Defined.

End ClientStatsFacts.

(** ** [postprocess] applied to its own result *)

Module PostprocessFixedPoint.
Import JsString JsDate Route ParseTodo StringSpec ParseSpec PostprocessSpec.
Import ClockSpec Automation StringFacts DateFacts DueDate PostprocessOutput.
Import ClientClock.

Lemma serialize_client (E : DateEnv) (d : Date) :
  serialize E d = Client.getCurrentLocalDateTime E d.
Proof. reflexivity. Qed.

(** A rendered instant is read back as the start of its minute and
    renders the same again. *)
Lemma serialize_read_back (tza d : Z) :
  1000 <= YearFromTime (LocalTime (isoEnv tza) d) <= 9999 ->
  exists d',
    newDate (isoEnv tza) (serialize (isoEnv tza) (Some d)) = Some d'
    /\ d' <= d
    /\ serialize (isoEnv tza) (Some d') = serialize (isoEnv tza) (Some d).
Proof.
  intros Hy. rewrite !serialize_client.
  change (LocalTime (isoEnv tza) d) with (d + tza) in Hy.
  exists (startOfMinute (d + tza) - tza).
  split; [apply (getCurrentLocalDateTime_newDate tza tza), Hy|].
  split; [unfold startOfMinute, msPerMinute; div_lia|].
  rewrite serialize_client.
  assert (Hl : LocalTime (isoEnv tza) (startOfMinute (d + tza) - tza)
               = startOfMinute (LocalTime (isoEnv tza) d))
    by (unfold LocalTime; cbn [LocalTZA isoEnv]; lia).
  apply getCurrentLocalDateTime_fields; rewrite Hl.
  - apply Day_startOfMinute.
  - apply HourFromTime_startOfMinute.
  - apply MinFromTime_startOfMinute.
Qed.

Lemma repairDueAt_fixed (tza : Z) (raw : option jsstring) (now : Date) :
  (forall s p, raw = Some s -> newDate (isoEnv tza) s = Some p ->
     1000 <= YearFromTime (LocalTime (isoEnv tza) p) <= 9999) ->
  (forall n, now = Some n ->
     1000 <= YearFromTime (LocalTime (isoEnv tza) n) <= 9999) ->
  repairDueAt (isoEnv tza) (repairDueAt (isoEnv tza) raw now) now
  = repairDueAt (isoEnv tza) raw now.
Proof.
  intros Hraw Hnow. pose proof (serialize_read_back tza) as Hread.
  revert Hread Hraw Hnow. generalize (isoEnv tza). intros E Hread Hraw Hnow.
  destruct raw as [s|]; [|reflexivity].
  destruct (newDate E s) as [p|] eqn:Hp.
  2:{ assert (Hr : repairDueAt E (Some s) now = None).
      { unfold repairDueAt. rewrite Hp. destruct (truthy (Some s)); reflexivity. }
      rewrite Hr. reflexivity. }
  specialize (Hraw s p eq_refl Hp).
  destruct now as [n|].
  - specialize (Hnow n eq_refl).
    destruct (repairDueAt_cases E s p n Hp) as (d & Hd & Hcase & _ & Hgt).
    rewrite Hd.
    assert (Hy : 1000 <= YearFromTime (LocalTime E d) <= 9999).
    { destruct Hcase as [->|[-> _]]; assumption. }
    destruct (Hread d Hy) as (d' & Hp' & Hle & Hs').
    rewrite (repairDueAt_unfold E _ d' n Hp').
    assert (Hgt' : dateGt (Some d') (oneYearAfter E n) = false).
    { revert Hgt. unfold dateGt, dateLt. destruct (oneYearAfter E n) as [o|];
        [|reflexivity]. intros Hgt. apply Z.ltb_ge. apply Z.ltb_ge in Hgt. lia. }
    rewrite Hgt', Hs'. reflexivity.
  - destruct (repairDueAt_renders E s p None Hp) as (d & Hd & Hnone).
    rewrite Hd. rewrite (Hnone eq_refl).
    destruct (Hread p Hraw) as (d' & Hp' & _ & Hs').
    destruct (repairDueAt_renders E _ d' None Hp') as (d2 & Hd2 & Hnone2).
    rewrite Hd2, (Hnone2 eq_refl), Hs'. reflexivity.
Qed.

(** X29. [postprocess] is a fixed point on its own results.  With the
    ISO parser, for due dates and a reference time in the years 1000 to
    9999: feeding the result of [postprocess] back as the model's object
    gives the same result again, so every repair (title, due date,
    priority, category, description) leaves an already repaired value as
    it is. *)
Theorem postprocess_fixed_point (tza : Z) (raw : RawTodo) (nowStr : jsstring) :
  (forall s p, raw_due_at raw = Some s -> newDate (isoEnv tza) s = Some p ->
     1000 <= YearFromTime (LocalTime (isoEnv tza) p) <= 9999) ->
  (forall n, newDate (isoEnv tza) nowStr = Some n ->
     1000 <= YearFromTime (LocalTime (isoEnv tza) n) <= 9999) ->
  let E := isoEnv tza in
  postprocess E (rawOf (postprocess E raw nowStr)) nowStr
  = postprocess E raw nowStr.
Proof.
  intros Hraw Hnow E.
  unfold postprocess at 1. unfold rawOf.
  cbn [raw_title raw_due_at raw_priority raw_category raw_description].
  unfold postprocess. cbn [title due_at priority category description].
  f_equal.
  - apply repairTitle_fixed.
  - apply repairDueAt_fixed; assumption.
  - destruct (raw_priority raw) as [q|]; [|reflexivity].
    destruct (truthy (Some q)
              && bool_decide (q ∈ [js "high"; js "medium"; js "low"])) eqn:Hq;
      [rewrite Hq; reflexivity|reflexivity].
  - apply trimOrNull_idempotent.
  - apply trimOrNull_idempotent.
Qed.

Lemma postprocess_fixed_point_witness :
  let E := isoEnv 0 in
  let raw := {| raw_title := Some (js "  plan   trip ");
                raw_due_at := Some (js "2028-02-29T10:00:30");
                raw_priority := Some (js "urgent");
                raw_category := Some (js " travel ");
                raw_description := Some (js "   ") |} in
  let r := postprocess E raw (js "2026-02-17T09:00") in
  r = {| title := js "plan   trip"; due_at := Some (js "2026-03-01T10:00");
         priority := js "medium"; category := Some (js "travel");
         description := None |}
  /\ postprocess E (rawOf r) (js "2026-02-17T09:00") = r.
Proof.
  split; [vm_compute; reflexivity|].
  apply (postprocess_fixed_point 0).
  - intros s p [= <-] Hp. vm_compute in Hp. injection Hp as <-.
    vm_compute. split; discriminate.
  - intros n Hn. vm_compute in Hn. injection Hn as <-.
    vm_compute. split; discriminate.
Defined.

End PostprocessFixedPoint.

(** ** The todos the prompt lists *)

Module SummarizeListing.
Import JsString JsDate Summarize SummarizeSpec SummarizePrompt.

Lemma indexFrom_fst (i : nat) (todos : list TodoSummaryInput) :
  List.map fst (indexFrom i todos) = seq i (length todos).
Proof.
  revert i. induction todos as [|t r IH]; intros i; [reflexivity|].
  cbn [indexFrom List.map length seq fst]. rewrite IH. reflexivity.
Qed.

Lemma indexFrom_snd (i : nat) (todos : list TodoSummaryInput) :
  List.map snd (indexFrom i todos) = todos.
Proof.
  revert i. induction todos as [|t r IH]; intros i; [reflexivity|].
  cbn [indexFrom List.map snd]. rewrite IH. reflexivity.
Qed.

Lemma NoDup_filter_fst {A B} (p : A * B -> bool) (l : list (A * B)) :
  List.NoDup (List.map fst l) -> List.NoDup (List.map fst (List.filter p l)).
Proof.
  induction l as [|x l IH]; [intros _; constructor|].
  cbn [List.map List.filter]. intros H. inversion H as [|? ? Hx Hl]; subst.
  destruct (p x); [|apply IH, Hl].
  cbn [List.map]. constructor; [|apply IH, Hl].
  intros Hin. apply Hx. apply in_map_iff in Hin.
  destruct Hin as (y & Hy & Hin). apply List.filter_In in Hin.
  apply in_map_iff. exists y. split; [exact Hy|apply Hin].
Qed.

Lemma includesObject_spec (a : list (nat * TodoSummaryInput))
    (t : nat * TodoSummaryInput) :
  includesObject a t = true <-> In t.1 (List.map fst a).
Proof.
  unfold includesObject. rewrite existsb_exists, in_map_iff. split.
  - intros (x & Hin & Hx). apply Nat.eqb_eq in Hx. exists x. split; assumption.
  - intros (x & Hx & Hin). exists x. split; [exact Hin|].
    apply Nat.eqb_eq. exact Hx.
Qed.

Lemma filter_snd_map {B} (p : B -> bool) (l : list (nat * B)) :
  List.map snd (List.filter (fun x => p x.2) l)
  = List.filter p (List.map snd l).
Proof.
  induction l as [|x l IH]; [reflexivity|].
  cbn [List.map List.filter]. destruct (p x.2); cbn [List.map]; rewrite IH;
    reflexivity.
Qed.

Section WithEnv.
Variable E : DateEnv.

(** X30. The todos the prompt lists.  The list under the heading of the
    period is the today list or the week list of the statistics.  The
    list under the last heading holds the todos that are in the today
    list or in the week list, each of them once, though a todo can be in
    both lists; so a todo that is in neither list, such as any todo
    without a due time, is not listed in the prompt at all. *)
Theorem listedTodos_spec (todos : list TodoSummaryInput) (nowStr : jsstring) :
  let st := computeStats E todos nowStr in
  List.map snd (targetTodos E todos nowStr today) = todayTasks st
  /\ List.map snd (targetTodos E todos nowStr week) = weekTasks st
  /\ List.NoDup (List.map fst (listedTodos E todos nowStr))
  /\ (forall x, In x (listedTodos E todos nowStr)
        <-> In x (indexFrom 0 todos)
            /\ (dueToday (todayStr st) x.2
                || dueInWeek E (weekMonday st) (weekSunday st) x.2) = true)
  /\ (forall x, In x (listedTodos E todos nowStr) -> Todo.due_at x.2 <> None).
Proof.
  intros st.
  assert (Hnd : List.NoDup (List.map fst (indexFrom 0 todos))).
  { rewrite indexFrom_fst. apply List.seq_NoDup. }
  assert (Hmem : forall x, In x (listedTodos E todos nowStr)
        <-> In x (indexFrom 0 todos)
            /\ (dueToday (todayStr st) x.2
                || dueInWeek E (weekMonday st) (weekSunday st) x.2) = true).
  { intros x. unfold listedTodos. cbv zeta.
    fold st. unfold todayObjects, weekObjects. cbv zeta. fold st.
    set (T := List.filter (fun x => dueToday (todayStr st) x.2)
                (indexFrom 0 todos)).
    set (W := List.filter
                (fun x => dueInWeek E (weekMonday st) (weekSunday st) x.2)
                (indexFrom 0 todos)).
    assert (HT : forall y, In y T <-> In y (indexFrom 0 todos)
                                      /\ dueToday (todayStr st) y.2 = true)
      by (intros y; apply List.filter_In).
    assert (HW : forall y, In y W <-> In y (indexFrom 0 todos)
        /\ dueInWeek E (weekMonday st) (weekSunday st) y.2 = true)
      by (intros y; apply List.filter_In).
    clearbody T W.
    destruct ((0 <? Z.of_nat (length T)) || (0 <? Z.of_nat (length W))) eqn:Hany.
    - rewrite in_app_iff, List.filter_In, HT, HW, orb_true_iff.
      rewrite negb_true_iff.
      split.
      + intros [[H1 H2]|[[H1 H2] _]]; split; auto.
      + intros [H1 [H2|H2]]; [left; split; assumption|].
        destruct (includesObject T x) eqn:Hi.
        * left. apply includesObject_spec in Hi. apply in_map_iff in Hi.
          destruct Hi as (y & Hy & Hin).
          assert (y = x).
          { apply HT in Hin as [Hin _].
            assert (Hinj : forall l, List.NoDup (List.map fst l) ->
                      forall a b : nat * TodoSummaryInput,
                      In a l -> In b l -> a.1 = b.1 -> a = b).
            { clear. induction l as [|c l IH]; intros Hn a b Ha Hb Hab;
                [contradiction|].
              cbn [List.map] in Hn. inversion Hn as [|? ? Hc Hl]; subst.
              destruct Ha as [->|Ha], Hb as [->|Hb]; try reflexivity.
              - exfalso. apply Hc. rewrite Hab. apply in_map. exact Hb.
              - exfalso. apply Hc. rewrite <- Hab. apply in_map. exact Ha.
              - apply (IH Hl); assumption. }
            apply (Hinj _ Hnd); assumption. }
          subst y. apply HT. exact Hin.
        * right. split; [split; assumption|reflexivity].
    - apply orb_false_iff in Hany. destruct Hany as [H1 H2].
      apply Z.ltb_ge in H1, H2.
      assert (T = []) as HT0
        by (destruct T; [reflexivity|cbn [length] in H1; lia]).
      assert (W = []) as HW0
        by (destruct W; [reflexivity|cbn [length] in H2; lia]).
      split; [contradiction|]. intros [Hin [Hd|Hd]%orb_true_iff].
      + assert (Hx : In x T) by (apply HT; split; assumption).
        rewrite HT0 in Hx. contradiction.
      + assert (Hx : In x W) by (apply HW; split; assumption).
        rewrite HW0 in Hx. contradiction. }
  split.
  { unfold targetTodos, todayObjects. cbv zeta. fold st.
    rewrite (filter_snd_map (dueToday (todayStr st))), indexFrom_snd.
    reflexivity. }
  split.
  { unfold targetTodos, weekObjects. cbv zeta. fold st.
    rewrite (filter_snd_map (dueInWeek E (weekMonday st) (weekSunday st))),
      indexFrom_snd.
    reflexivity. }
  split.
  { unfold listedTodos. cbv zeta.
    destruct ((0 <? _) || (0 <? _)); [|constructor].
    rewrite List.map_app. apply List.NoDup_app.
    - apply NoDup_filter_fst, Hnd.
    - apply NoDup_filter_fst. apply NoDup_filter_fst, Hnd.
    - intros i Hi Hi'. apply in_map_iff in Hi'.
      destruct Hi' as (y & <- & Hy). apply List.filter_In in Hy.
      destruct Hy as [_ Hy]. apply negb_true_iff in Hy.
      assert (Hc : includesObject (todayObjects E todos nowStr) y = true)
        by (apply includesObject_spec; exact Hi).
      congruence. }
  split; [exact Hmem|].
  intros x Hx. apply Hmem in Hx. destruct Hx as [_ Hx].
  unfold dueToday, dueInWeek in Hx.
  destruct (Todo.due_at x.2); [discriminate|discriminate Hx].
Qed.

End WithEnv.

End SummarizeListing.
